(** * private4me: context assembly, provider sessions and the orchestrating handlers

    A shallow embedding of the TypeScript sources
      - [App.tsx] (the component holding the state and the handlers),
      - [components/ChatWindow.tsx] (its submit handler),
      - [services/gemini.ts],
      - [services/openrouter.ts],
    followed by the properties of the embedding.

    Conventions of the embedding:
      - a JavaScript string is the list of its UTF-16 code units;
      - a JavaScript number that the program uses as an integer (citation
        counts, years, counters, budgets) is a [Z];
      - [null]/[undefined] are [None];
      - a handler of the component reads the state of the render it was
        created in (its closure) and calls setters; it is embedded as a
        function from that snapshot to the list of effects it issues, and
        [run] applies setters to a state in order;
      - the module-level [let] variables of [services/gemini.ts] are a
        record that is passed through the service functions;
      - the outcome of a remote call is an argument of the function that
        makes the call. *)

From Stdlib Require Import ZArith List Bool Ascii String DecimalString Sorted Lia.
From stdpp Require Import base list sorting gmap.

Local Open Scope Z_scope.

(* ================================================================= *)
(** ** JavaScript strings *)

Module JS.

Abbreviation jschar := N (only parsing).
Abbreviation jsstring := (list N) (only parsing).

(** A string literal of the source. *)
Definition lit (s : string) : jsstring :=
  List.map N_of_ascii (list_ascii_of_string s).

Definition LF : jsstring := [10%N].

(** The class [\s] of a regular expression, which is also what
    [String.prototype.trim] removes: WhiteSpace and LineTerminator. *)
Definition isWhiteSpace (c : jschar) : bool :=
  ((9 <=? c) && (c <=? 13))%N
  || (c =? 32)%N || (c =? 160)%N || (c =? 5760)%N
  || ((8192 <=? c) && (c <=? 8202))%N
  || (c =? 8232)%N || (c =? 8233)%N || (c =? 8239)%N
  || (c =? 8287)%N || (c =? 12288)%N || (c =? 65279)%N.

(** [s.split(/\s+/)]: the pieces of [s] between maximal runs of white
    space.  A run at the very start or the very end leaves an empty piece
    there, and the empty string splits into one empty piece.
    [cur] is the piece being read, reversed; [inRun] tells that the
    previous code unit was white space. *)
Fixpoint splitAux (cur : jsstring) (inRun : bool) (s : jsstring) : list jsstring :=
  match s with
  | [] => [rev cur]
  | c :: r =>
      if isWhiteSpace c
      then (if inRun then splitAux [] true r else rev cur :: splitAux [] true r)
      else splitAux (c :: cur) false r
  end.

Definition split (s : jsstring) : list jsstring := splitAux [] false s.

Definition isEmpty (s : jsstring) : bool :=
  match s with [] => true | _ => false end.

(** The words of a string: its non-empty whitespace-delimited pieces. *)
Definition words (s : jsstring) : list jsstring :=
  List.filter (fun w => negb (isEmpty w)) (split s).

Fixpoint trimStart (s : jsstring) : jsstring :=
  match s with
  | c :: r => if isWhiteSpace c then trimStart r else s
  | [] => []
  end.

Definition trimEnd (s : jsstring) : jsstring := rev (trimStart (rev s)).

(** The last code unit of [s] is white space. *)
Fixpoint endsWithWhiteSpace (s : jsstring) : bool :=
  match s with
  | [] => false
  | [c] => isWhiteSpace c
  | _ :: r => endsWithWhiteSpace r
  end.

(** [s.trim()] *)
Definition trim (s : jsstring) : jsstring := trimEnd (trimStart s).

(** [l.join(sep)] *)
Fixpoint join (sep : jsstring) (l : list jsstring) : jsstring :=
  match l with
  | [] => []
  | [x] => x
  | x :: r => x ++ sep ++ join sep r
  end.

Fixpoint startsWith (p s : jsstring) : bool :=
  match p, s with
  | [], _ => true
  | _ :: _, [] => false
  | a :: p', b :: s' => (a =? b)%N && startsWith p' s'
  end.

(** [s.includes(p)] *)
Fixpoint includes (s p : jsstring) : bool :=
  startsWith p s || match s with [] => false | _ :: r => includes r p end.

(** [`${n}`] for an integer [n]: its decimal digits, with a minus sign
    when negative.  (JavaScript switches to exponent notation from 1e21
    on; the integers of this program are counters, years and counts.) *)
Definition numberToString (n : Z) : jsstring :=
  lit (NilZero.string_of_int (Z.to_int n)).

(** [a || d] on strings: [d] replaces [undefined] and the empty string. *)
Definition orElse (a : option jsstring) (d : jsstring) : jsstring :=
  match a with
  | Some (c :: r) => c :: r
  | _ => d
  end.

(** Truthiness of a string. *)
Definition truthy (s : jsstring) : bool := negb (isEmpty s).

(** [a.sort(compareFn)]: the sort of an array is stable, and for a
    comparator that is a consistent ordering its result is the one
    stable sorted arrangement, which insertion from the right computes.
    [compareFn x y <= 0] keeps [x] in front of [y]. *)
Section Sort.
Context {A : Type} (compareFn : A -> A -> Z).

Fixpoint insertSorted (x : A) (l : list A) : list A :=
    match l with
    | [] => [x]
    | y :: r => if compareFn x y <=? 0 then x :: y :: r else y :: insertSorted x r
    end.

Definition sort (l : list A) : list A := foldr insertSorted [] l.

(** [x] may stay in front of [y]. *)
Definition inOrder (x y : A) : Prop := compareFn x y <= 0.
End Sort.

(** [new Set(arr)]: the distinct members in order of first insertion. *)
Fixpoint setAddAll (seen : list jsstring) (arr : list jsstring) : list jsstring :=
  match arr with
  | [] => seen
  | x :: r => if bool_decide (x ∈ seen) then setAddAll seen r else setAddAll (seen ++ [x]) r
  end.

Definition newSet (arr : list jsstring) : list jsstring := setAddAll [] arr.

End JS.

Import JS.

(* ================================================================= *)
(** ** Data ([types.ts] as the sources use it) *)

Module Types.

Record Author := { name : jsstring }.

(** [abstract_] is the field [abstract]. *)
Record Paper := {
  paperId : jsstring;
  title : jsstring;
  authors : option (list Author);
  year : option Z;
  venue : option jsstring;
  url : option jsstring;
  abstract_ : option jsstring;
  citationCount : option Z
}.

Inductive ApiProvider := GEMINI | OPENROUTER.

Inductive ApiKeyName := KeySemanticScholar | KeyGemini | KeyOpenRouter.

Record ApiKeys := {
  semanticScholar : jsstring;
  gemini : jsstring;
  openRouter : jsstring
}.

Inductive Sender := SenderUser | SenderAi.

Record ChatMessage := {
  id : jsstring;
  sender : Sender;
  text : jsstring;
  timestamp : Z
}.

(** Modelled from the spec: [GroundingChunk] is declared in [types.ts],
    which is not among the sources; the spec calls it an optional
    citation/source annotation attached to generated text.  The handlers
    only store it and clear it. *)
Record GroundingChunk := { source : jsstring }.

(** [Content] of the Gemini SDK: a role and text parts. *)
Inductive GeminiRole := RoleUser | RoleModel.
Record Part := { partText : jsstring }.
Record Content := { role : GeminiRole; parts : list Part }.

(** [OpenRouterMessage] of [services/openrouter.ts]. *)
Inductive OpenRouterRole := system | user | assistant.
Record OpenRouterMessage := { orRole : OpenRouterRole; content : jsstring }.

(** A thrown [Error] carries its message. *)
Inductive result (A : Type) :=
| Ok (a : A)
| Throw (message : jsstring).
Arguments Ok {A} a.
Arguments Throw {A} message.

(** The [message] of a caught value, when it has a non-empty one. *)
Abbreviation errorMessage := (option jsstring) (only parsing).

End Types.

Import Types.

(* ================================================================= *)
(** ** The state of the component ([useState]/[useLocalStorage] of [App]) *)

Module State.

Record AppState := mkAppState {
  apiKeys : ApiKeys;
  researchTopic : jsstring;
  papers : list Paper;
  selectedPaperIds : list jsstring;
  searchLoading : bool;
  searchError : option jsstring;
  currentPage : Z;
  totalPapers : Z;
  cachedPapers : gmap jsstring Paper;
  selectingAllPapersLoading : bool;
  generationProvider : ApiProvider;
  introContent : jsstring;
  relatedWorksContent : jsstring;
  introGrounding : option (list GroundingChunk);
  relatedWorksGrounding : option (list GroundingChunk);
  generationLoading : bool;
  introError : option jsstring;
  relatedWorksError : option jsstring;
  chatMessages : list ChatMessage;
  chatProvider : ApiProvider;
  chatLoading : bool;
  chatError : option jsstring;
  geminiChatHistory : list Content;
  openRouterChatHistory : list OpenRouterMessage;
  selectedGeminiModel : jsstring;
  selectedOpenRouterModel : jsstring
}.

Definition setApiKeys (v : ApiKeys) (st : AppState) : AppState :=
  mkAppState v (researchTopic st) (papers st) (selectedPaperIds st) (searchLoading st)
    (searchError st) (currentPage st) (totalPapers st) (cachedPapers st)
    (selectingAllPapersLoading st) (generationProvider st) (introContent st)
    (relatedWorksContent st) (introGrounding st) (relatedWorksGrounding st)
    (generationLoading st) (introError st) (relatedWorksError st) (chatMessages st)
    (chatProvider st) (chatLoading st) (chatError st) (geminiChatHistory st)
    (openRouterChatHistory st) (selectedGeminiModel st) (selectedOpenRouterModel st).

Definition setResearchTopic (v : jsstring) (st : AppState) : AppState :=
  mkAppState (apiKeys st) v (papers st) (selectedPaperIds st) (searchLoading st)
    (searchError st) (currentPage st) (totalPapers st) (cachedPapers st)
    (selectingAllPapersLoading st) (generationProvider st) (introContent st)
    (relatedWorksContent st) (introGrounding st) (relatedWorksGrounding st)
    (generationLoading st) (introError st) (relatedWorksError st) (chatMessages st)
    (chatProvider st) (chatLoading st) (chatError st) (geminiChatHistory st)
    (openRouterChatHistory st) (selectedGeminiModel st) (selectedOpenRouterModel st).

Definition setPapers (v : list Paper) (st : AppState) : AppState :=
  mkAppState (apiKeys st) (researchTopic st) v (selectedPaperIds st) (searchLoading
    st) (searchError st) (currentPage st) (totalPapers st) (cachedPapers st)
    (selectingAllPapersLoading st) (generationProvider st) (introContent st)
    (relatedWorksContent st) (introGrounding st) (relatedWorksGrounding st)
    (generationLoading st) (introError st) (relatedWorksError st) (chatMessages st)
    (chatProvider st) (chatLoading st) (chatError st) (geminiChatHistory st)
    (openRouterChatHistory st) (selectedGeminiModel st) (selectedOpenRouterModel st).

Definition setSelectedPaperIds (v : list jsstring) (st : AppState) : AppState :=
  mkAppState (apiKeys st) (researchTopic st) (papers st) v (searchLoading st)
    (searchError st) (currentPage st) (totalPapers st) (cachedPapers st)
    (selectingAllPapersLoading st) (generationProvider st) (introContent st)
    (relatedWorksContent st) (introGrounding st) (relatedWorksGrounding st)
    (generationLoading st) (introError st) (relatedWorksError st) (chatMessages st)
    (chatProvider st) (chatLoading st) (chatError st) (geminiChatHistory st)
    (openRouterChatHistory st) (selectedGeminiModel st) (selectedOpenRouterModel st).

Definition setSearchLoading (v : bool) (st : AppState) : AppState :=
  mkAppState (apiKeys st) (researchTopic st) (papers st) (selectedPaperIds st) v
    (searchError st) (currentPage st) (totalPapers st) (cachedPapers st)
    (selectingAllPapersLoading st) (generationProvider st) (introContent st)
    (relatedWorksContent st) (introGrounding st) (relatedWorksGrounding st)
    (generationLoading st) (introError st) (relatedWorksError st) (chatMessages st)
    (chatProvider st) (chatLoading st) (chatError st) (geminiChatHistory st)
    (openRouterChatHistory st) (selectedGeminiModel st) (selectedOpenRouterModel st).

Definition setSearchError (v : option jsstring) (st : AppState) : AppState :=
  mkAppState (apiKeys st) (researchTopic st) (papers st) (selectedPaperIds st)
    (searchLoading st) v (currentPage st) (totalPapers st) (cachedPapers st)
    (selectingAllPapersLoading st) (generationProvider st) (introContent st)
    (relatedWorksContent st) (introGrounding st) (relatedWorksGrounding st)
    (generationLoading st) (introError st) (relatedWorksError st) (chatMessages st)
    (chatProvider st) (chatLoading st) (chatError st) (geminiChatHistory st)
    (openRouterChatHistory st) (selectedGeminiModel st) (selectedOpenRouterModel st).

Definition setCurrentPage (v : Z) (st : AppState) : AppState :=
  mkAppState (apiKeys st) (researchTopic st) (papers st) (selectedPaperIds st)
    (searchLoading st) (searchError st) v (totalPapers st) (cachedPapers st)
    (selectingAllPapersLoading st) (generationProvider st) (introContent st)
    (relatedWorksContent st) (introGrounding st) (relatedWorksGrounding st)
    (generationLoading st) (introError st) (relatedWorksError st) (chatMessages st)
    (chatProvider st) (chatLoading st) (chatError st) (geminiChatHistory st)
    (openRouterChatHistory st) (selectedGeminiModel st) (selectedOpenRouterModel st).

Definition setTotalPapers (v : Z) (st : AppState) : AppState :=
  mkAppState (apiKeys st) (researchTopic st) (papers st) (selectedPaperIds st)
    (searchLoading st) (searchError st) (currentPage st) v (cachedPapers st)
    (selectingAllPapersLoading st) (generationProvider st) (introContent st)
    (relatedWorksContent st) (introGrounding st) (relatedWorksGrounding st)
    (generationLoading st) (introError st) (relatedWorksError st) (chatMessages st)
    (chatProvider st) (chatLoading st) (chatError st) (geminiChatHistory st)
    (openRouterChatHistory st) (selectedGeminiModel st) (selectedOpenRouterModel st).

Definition setCachedPapers (v : gmap jsstring Paper) (st : AppState) : AppState :=
  mkAppState (apiKeys st) (researchTopic st) (papers st) (selectedPaperIds st)
    (searchLoading st) (searchError st) (currentPage st) (totalPapers st) v
    (selectingAllPapersLoading st) (generationProvider st) (introContent st)
    (relatedWorksContent st) (introGrounding st) (relatedWorksGrounding st)
    (generationLoading st) (introError st) (relatedWorksError st) (chatMessages st)
    (chatProvider st) (chatLoading st) (chatError st) (geminiChatHistory st)
    (openRouterChatHistory st) (selectedGeminiModel st) (selectedOpenRouterModel st).

Definition setSelectingAllPapersLoading (v : bool) (st : AppState) : AppState :=
  mkAppState (apiKeys st) (researchTopic st) (papers st) (selectedPaperIds st)
    (searchLoading st) (searchError st) (currentPage st) (totalPapers st)
    (cachedPapers st) v (generationProvider st) (introContent st) (relatedWorksContent
    st) (introGrounding st) (relatedWorksGrounding st) (generationLoading st)
    (introError st) (relatedWorksError st) (chatMessages st) (chatProvider st)
    (chatLoading st) (chatError st) (geminiChatHistory st) (openRouterChatHistory st)
    (selectedGeminiModel st) (selectedOpenRouterModel st).

Definition setGenerationProvider (v : ApiProvider) (st : AppState) : AppState :=
  mkAppState (apiKeys st) (researchTopic st) (papers st) (selectedPaperIds st)
    (searchLoading st) (searchError st) (currentPage st) (totalPapers st)
    (cachedPapers st) (selectingAllPapersLoading st) v (introContent st)
    (relatedWorksContent st) (introGrounding st) (relatedWorksGrounding st)
    (generationLoading st) (introError st) (relatedWorksError st) (chatMessages st)
    (chatProvider st) (chatLoading st) (chatError st) (geminiChatHistory st)
    (openRouterChatHistory st) (selectedGeminiModel st) (selectedOpenRouterModel st).

Definition setIntroContent (v : jsstring) (st : AppState) : AppState :=
  mkAppState (apiKeys st) (researchTopic st) (papers st) (selectedPaperIds st)
    (searchLoading st) (searchError st) (currentPage st) (totalPapers st)
    (cachedPapers st) (selectingAllPapersLoading st) (generationProvider st) v
    (relatedWorksContent st) (introGrounding st) (relatedWorksGrounding st)
    (generationLoading st) (introError st) (relatedWorksError st) (chatMessages st)
    (chatProvider st) (chatLoading st) (chatError st) (geminiChatHistory st)
    (openRouterChatHistory st) (selectedGeminiModel st) (selectedOpenRouterModel st).

Definition setRelatedWorksContent (v : jsstring) (st : AppState) : AppState :=
  mkAppState (apiKeys st) (researchTopic st) (papers st) (selectedPaperIds st)
    (searchLoading st) (searchError st) (currentPage st) (totalPapers st)
    (cachedPapers st) (selectingAllPapersLoading st) (generationProvider st)
    (introContent st) v (introGrounding st) (relatedWorksGrounding st)
    (generationLoading st) (introError st) (relatedWorksError st) (chatMessages st)
    (chatProvider st) (chatLoading st) (chatError st) (geminiChatHistory st)
    (openRouterChatHistory st) (selectedGeminiModel st) (selectedOpenRouterModel st).

Definition setIntroGrounding (v : option (list GroundingChunk)) (st : AppState) : AppState :=
  mkAppState (apiKeys st) (researchTopic st) (papers st) (selectedPaperIds st)
    (searchLoading st) (searchError st) (currentPage st) (totalPapers st)
    (cachedPapers st) (selectingAllPapersLoading st) (generationProvider st)
    (introContent st) (relatedWorksContent st) v (relatedWorksGrounding st)
    (generationLoading st) (introError st) (relatedWorksError st) (chatMessages st)
    (chatProvider st) (chatLoading st) (chatError st) (geminiChatHistory st)
    (openRouterChatHistory st) (selectedGeminiModel st) (selectedOpenRouterModel st).

Definition setRelatedWorksGrounding (v : option (list GroundingChunk)) (st : AppState) : AppState :=
  mkAppState (apiKeys st) (researchTopic st) (papers st) (selectedPaperIds st)
    (searchLoading st) (searchError st) (currentPage st) (totalPapers st)
    (cachedPapers st) (selectingAllPapersLoading st) (generationProvider st)
    (introContent st) (relatedWorksContent st) (introGrounding st) v
    (generationLoading st) (introError st) (relatedWorksError st) (chatMessages st)
    (chatProvider st) (chatLoading st) (chatError st) (geminiChatHistory st)
    (openRouterChatHistory st) (selectedGeminiModel st) (selectedOpenRouterModel st).

Definition setGenerationLoading (v : bool) (st : AppState) : AppState :=
  mkAppState (apiKeys st) (researchTopic st) (papers st) (selectedPaperIds st)
    (searchLoading st) (searchError st) (currentPage st) (totalPapers st)
    (cachedPapers st) (selectingAllPapersLoading st) (generationProvider st)
    (introContent st) (relatedWorksContent st) (introGrounding st)
    (relatedWorksGrounding st) v (introError st) (relatedWorksError st) (chatMessages
    st) (chatProvider st) (chatLoading st) (chatError st) (geminiChatHistory st)
    (openRouterChatHistory st) (selectedGeminiModel st) (selectedOpenRouterModel st).

Definition setIntroError (v : option jsstring) (st : AppState) : AppState :=
  mkAppState (apiKeys st) (researchTopic st) (papers st) (selectedPaperIds st)
    (searchLoading st) (searchError st) (currentPage st) (totalPapers st)
    (cachedPapers st) (selectingAllPapersLoading st) (generationProvider st)
    (introContent st) (relatedWorksContent st) (introGrounding st)
    (relatedWorksGrounding st) (generationLoading st) v (relatedWorksError st)
    (chatMessages st) (chatProvider st) (chatLoading st) (chatError st)
    (geminiChatHistory st) (openRouterChatHistory st) (selectedGeminiModel st)
    (selectedOpenRouterModel st).

Definition setRelatedWorksError (v : option jsstring) (st : AppState) : AppState :=
  mkAppState (apiKeys st) (researchTopic st) (papers st) (selectedPaperIds st)
    (searchLoading st) (searchError st) (currentPage st) (totalPapers st)
    (cachedPapers st) (selectingAllPapersLoading st) (generationProvider st)
    (introContent st) (relatedWorksContent st) (introGrounding st)
    (relatedWorksGrounding st) (generationLoading st) (introError st) v (chatMessages
    st) (chatProvider st) (chatLoading st) (chatError st) (geminiChatHistory st)
    (openRouterChatHistory st) (selectedGeminiModel st) (selectedOpenRouterModel st).

Definition setChatMessages (v : list ChatMessage) (st : AppState) : AppState :=
  mkAppState (apiKeys st) (researchTopic st) (papers st) (selectedPaperIds st)
    (searchLoading st) (searchError st) (currentPage st) (totalPapers st)
    (cachedPapers st) (selectingAllPapersLoading st) (generationProvider st)
    (introContent st) (relatedWorksContent st) (introGrounding st)
    (relatedWorksGrounding st) (generationLoading st) (introError st)
    (relatedWorksError st) v (chatProvider st) (chatLoading st) (chatError st)
    (geminiChatHistory st) (openRouterChatHistory st) (selectedGeminiModel st)
    (selectedOpenRouterModel st).

Definition setChatProvider (v : ApiProvider) (st : AppState) : AppState :=
  mkAppState (apiKeys st) (researchTopic st) (papers st) (selectedPaperIds st)
    (searchLoading st) (searchError st) (currentPage st) (totalPapers st)
    (cachedPapers st) (selectingAllPapersLoading st) (generationProvider st)
    (introContent st) (relatedWorksContent st) (introGrounding st)
    (relatedWorksGrounding st) (generationLoading st) (introError st)
    (relatedWorksError st) (chatMessages st) v (chatLoading st) (chatError st)
    (geminiChatHistory st) (openRouterChatHistory st) (selectedGeminiModel st)
    (selectedOpenRouterModel st).

Definition setChatLoading (v : bool) (st : AppState) : AppState :=
  mkAppState (apiKeys st) (researchTopic st) (papers st) (selectedPaperIds st)
    (searchLoading st) (searchError st) (currentPage st) (totalPapers st)
    (cachedPapers st) (selectingAllPapersLoading st) (generationProvider st)
    (introContent st) (relatedWorksContent st) (introGrounding st)
    (relatedWorksGrounding st) (generationLoading st) (introError st)
    (relatedWorksError st) (chatMessages st) (chatProvider st) v (chatError st)
    (geminiChatHistory st) (openRouterChatHistory st) (selectedGeminiModel st)
    (selectedOpenRouterModel st).

Definition setChatError (v : option jsstring) (st : AppState) : AppState :=
  mkAppState (apiKeys st) (researchTopic st) (papers st) (selectedPaperIds st)
    (searchLoading st) (searchError st) (currentPage st) (totalPapers st)
    (cachedPapers st) (selectingAllPapersLoading st) (generationProvider st)
    (introContent st) (relatedWorksContent st) (introGrounding st)
    (relatedWorksGrounding st) (generationLoading st) (introError st)
    (relatedWorksError st) (chatMessages st) (chatProvider st) (chatLoading st) v
    (geminiChatHistory st) (openRouterChatHistory st) (selectedGeminiModel st)
    (selectedOpenRouterModel st).

Definition setGeminiChatHistory (v : list Content) (st : AppState) : AppState :=
  mkAppState (apiKeys st) (researchTopic st) (papers st) (selectedPaperIds st)
    (searchLoading st) (searchError st) (currentPage st) (totalPapers st)
    (cachedPapers st) (selectingAllPapersLoading st) (generationProvider st)
    (introContent st) (relatedWorksContent st) (introGrounding st)
    (relatedWorksGrounding st) (generationLoading st) (introError st)
    (relatedWorksError st) (chatMessages st) (chatProvider st) (chatLoading st)
    (chatError st) v (openRouterChatHistory st) (selectedGeminiModel st)
    (selectedOpenRouterModel st).

Definition setOpenRouterChatHistory (v : list OpenRouterMessage) (st : AppState) : AppState :=
  mkAppState (apiKeys st) (researchTopic st) (papers st) (selectedPaperIds st)
    (searchLoading st) (searchError st) (currentPage st) (totalPapers st)
    (cachedPapers st) (selectingAllPapersLoading st) (generationProvider st)
    (introContent st) (relatedWorksContent st) (introGrounding st)
    (relatedWorksGrounding st) (generationLoading st) (introError st)
    (relatedWorksError st) (chatMessages st) (chatProvider st) (chatLoading st)
    (chatError st) (geminiChatHistory st) v (selectedGeminiModel st)
    (selectedOpenRouterModel st).

Definition setSelectedGeminiModel (v : jsstring) (st : AppState) : AppState :=
  mkAppState (apiKeys st) (researchTopic st) (papers st) (selectedPaperIds st)
    (searchLoading st) (searchError st) (currentPage st) (totalPapers st)
    (cachedPapers st) (selectingAllPapersLoading st) (generationProvider st)
    (introContent st) (relatedWorksContent st) (introGrounding st)
    (relatedWorksGrounding st) (generationLoading st) (introError st)
    (relatedWorksError st) (chatMessages st) (chatProvider st) (chatLoading st)
    (chatError st) (geminiChatHistory st) (openRouterChatHistory st) v
    (selectedOpenRouterModel st).

Definition setSelectedOpenRouterModel (v : jsstring) (st : AppState) : AppState :=
  mkAppState (apiKeys st) (researchTopic st) (papers st) (selectedPaperIds st)
    (searchLoading st) (searchError st) (currentPage st) (totalPapers st)
    (cachedPapers st) (selectingAllPapersLoading st) (generationProvider st)
    (introContent st) (relatedWorksContent st) (introGrounding st)
    (relatedWorksGrounding st) (generationLoading st) (introError st)
    (relatedWorksError st) (chatMessages st) (chatProvider st) (chatLoading st)
    (chatError st) (geminiChatHistory st) (openRouterChatHistory st)
    (selectedGeminiModel st) v.

End State.

Import State.

(* ================================================================= *)
(** ** [services/gemini.ts] *)

Module Gemini.

(** The client object [GoogleGenAI] and the SDK's [Chat].  An object is
    identified by the rank of its creation ([aiId], [chatId]).  A [Chat]
    keeps the parameters it was created with and its own history, which
    the SDK extends with the two turns of every message it answers. *)
Record GoogleGenAI := { aiId : nat; aiKey : jsstring }.

Record Chat := {
  chatId : nat;
  chatClient : GoogleGenAI;
  chatModel : jsstring;
  chatHistory : list Content;
  chatConfig : option jsstring
}.

(** The module-level variables.  [chatSystemInstruction] holds [null]
    ([None]), [undefined] ([Some None]) or a string.  [allocated] counts
    the objects created so far. *)
Record Module_ := mkModule {
  ai : option GoogleGenAI;
  activeApiKey : option jsstring;
  geminiChatInstance : option Chat;
  chatApiKey : option jsstring;
  chatSystemInstruction : option (option jsstring);
  chatModelUsed : option jsstring;
  allocated : nat
}.

Definition initial : Module_ := mkModule None None None None None None 0.

(** Outcome of a request to the Gemini API: the text of the response, or
    a rejection whose [message] may be missing or empty. *)
Inductive Response :=
| Responded (text : jsstring) (groundingChunks : option (list GroundingChunk))
| Rejected (message : errorMessage).

Record GeminiGenerateTextResult := {
  resultText : jsstring;
  resultGroundingChunks : option (list GroundingChunk)
}.

(** Requests that leave the program. *)
Inductive Request :=
| GenerateContent (key model prompt : jsstring) (systemInstruction : option jsstring)
    (searchGrounding : bool)
| SendMessage (chat : Chat) (message : jsstring).

Definition userContent (t : jsstring) : Content :=
  {| role := RoleUser; parts := [ {| partText := t |} ] |}.

Definition modelContent (t : jsstring) : Content :=
  {| role := RoleModel; parts := [ {| partText := t |} ] |}.

(** [getAi] *)
Definition getAi (apiKey : jsstring) (m : Module_) : Module_ * result GoogleGenAI :=
  match (if bool_decide (activeApiKey m = Some apiKey) then ai m else None) with
  | Some a => (m, Ok a)
  | None =>
      if isEmpty apiKey then (m, Throw (lit "Gemini API key is not set."))
      else
        let a' := {| aiId := allocated m; aiKey := apiKey |} in
        (mkModule (Some a') (Some apiKey) (geminiChatInstance m) (chatApiKey m)
           (chatSystemInstruction m) (chatModelUsed m) (S (allocated m)), Ok a')
  end.

(** [generateTextWithGemini] *)
Definition generateTextWithGemini (apiKey prompt model : jsstring)
    (systemInstruction : option jsstring) (useSearchGrounding : bool)
    (response : Response) (m : Module_)
  : Module_ * list Request * result GeminiGenerateTextResult :=
  match getAi apiKey m with
  | (m', Throw e) => (m', [], Throw e)
  | (m', Ok _) =>
      let request :=
        GenerateContent apiKey model prompt
          (match systemInstruction with
           | Some (c :: r) => Some (c :: r)
           | _ => None
           end)
          useSearchGrounding in
      match response with
      | Responded t g =>
          (m', [request], Ok {| resultText := t; resultGroundingChunks := g |})
      | Rejected msg =>
          (m', [request],
           Throw (lit "Gemini API error: " ++ orElse msg (lit "Unknown error")))
      end
  end.

(** The condition of line 80, negated: the stored instance, when there is
    one and the three stored values equal the arguments. *)
Definition reusable (apiKey model : jsstring) (systemInstruction : option jsstring)
    (m : Module_) : option Chat :=
  if bool_decide (chatApiKey m = Some apiKey
                  ∧ chatSystemInstruction m = Some systemInstruction
                  ∧ chatModelUsed m = Some model)
  then geminiChatInstance m
  else None.

(** [currentAi.chats.create({ model, history, config })] *)
Definition chatsCreate (currentAi : GoogleGenAI) (model : jsstring)
    (history : list Content) (systemInstruction : option jsstring) (rank : nat) : Chat :=
  {| chatId := rank; chatClient := currentAi; chatModel := model;
     chatHistory := history;
     chatConfig := match systemInstruction with
                   | Some (x :: r) => Some (x :: r)
                   | _ => None
                   end |}.

(** Lines 78 to 89 of [startOrContinueChatWithGemini]: the session
    lookup.  It returns the [Chat] the turn will use. *)
Definition getOrCreate (apiKey : jsstring) (history : list Content) (model : jsstring)
    (systemInstruction : option jsstring) (m : Module_) : Module_ * result Chat :=
  match getAi apiKey m with
  | (m1, Throw e) => (m1, Throw e)
  | (m1, Ok currentAi) =>
      match reusable apiKey model systemInstruction m1 with
      | Some c => (m1, Ok c)
      | None =>
          let c' := chatsCreate currentAi model history systemInstruction (allocated m1) in
          (mkModule (ai m1) (activeApiKey m1) (Some c') (Some apiKey)
             (Some systemInstruction) (Some model) (S (allocated m1)), Ok c')
      end
  end.

(** What the SDK does to the [Chat] when a message is answered. *)
Definition answered (c : Chat) (userMessage aiResponseText : jsstring) : Chat :=
  {| chatId := chatId c; chatClient := chatClient c; chatModel := chatModel c;
     chatHistory := chatHistory c ++ [userContent userMessage; modelContent aiResponseText];
     chatConfig := chatConfig c |}.

(** The test of the [catch] block. *)
Definition isApiKeyNotValid (msg : errorMessage) : bool :=
  match msg with
  | Some (c :: r) => includes (c :: r) (lit "API key not valid")
  | _ => false
  end.

(** [startOrContinueChatWithGemini] *)
Definition startOrContinueChatWithGemini (apiKey userMessage : jsstring)
    (history : list Content) (model : jsstring) (systemInstruction : option jsstring)
    (response : Response) (m : Module_)
  : Module_ * list Request * result (jsstring * list Content) :=
  match getOrCreate apiKey history model systemInstruction m with
  | (m1, Throw e) => (m1, [], Throw e)
  | (m1, Ok c) =>
      match response with
      | Responded aiResponseText _ =>
          let updatedHistory :=
            history ++ [userContent userMessage; modelContent aiResponseText] in
          (mkModule (ai m1) (activeApiKey m1)
             (Some (answered c userMessage aiResponseText))
             (chatApiKey m1) (chatSystemInstruction m1) (chatModelUsed m1) (allocated m1),
           [SendMessage c userMessage],
           Ok (aiResponseText, updatedHistory))
      | Rejected msg =>
          let m2 :=
            if isApiKeyNotValid msg
            then mkModule None None None None (chatSystemInstruction m1) None (allocated m1)
            else m1 in
          (m2, [SendMessage c userMessage],
           Throw (lit "Gemini Chat API error: " ++ orElse msg (lit "Unknown error")))
      end
  end.

(** [resetGeminiChat] *)
Definition resetGeminiChat (m : Module_) : Module_ :=
  mkModule (ai m) (activeApiKey m) None None None None (allocated m).

(** The calls a client of the module can make, and the module after a
    call. *)
Inductive Op :=
| OpChat (apiKey userMessage : jsstring) (history : list Content) (model : jsstring)
    (systemInstruction : option jsstring) (response : Response)
| OpGenerate (apiKey prompt model : jsstring) (systemInstruction : option jsstring)
    (useSearchGrounding : bool) (response : Response)
| OpReset.

Definition exec (m : Module_) (o : Op) : Module_ :=
  match o with
  | OpChat apiKey userMessage history model systemInstruction response =>
      fst (fst (startOrContinueChatWithGemini apiKey userMessage history model
                  systemInstruction response m))
  | OpGenerate apiKey prompt model systemInstruction useSearchGrounding response =>
      fst (fst (generateTextWithGemini apiKey prompt model systemInstruction
                  useSearchGrounding response m))
  | OpReset => resetGeminiChat m
  end.

Definition execAll (m : Module_) (os : list Op) : Module_ := fold_left exec os m.

(** Objects held by the module were created before the next rank, and
    [activeApiKey] is the key of the client held. *)
Definition wellFormed (m : Module_) : Prop :=
  (∀ c, geminiChatInstance m = Some c → (chatId c < allocated m)%nat)
  ∧ (∀ a, ai m = Some a → (aiId a < allocated m)%nat ∧ activeApiKey m = Some (aiKey a)).

(** No [Chat] of rank below [n] is held, and none will be created. *)
Definition above (n : nat) (m : Module_) : Prop :=
  (n <= allocated m)%nat ∧ ∀ c, geminiChatInstance m = Some c → (n <= chatId c)%nat.

End Gemini.

(* ================================================================= *)
(** ** [services/openrouter.ts] *)

Module OpenRouter.

(** Outcome of the [fetch] of a chat completion: the request fails or its
    body cannot be read ([Failed], with the message of the error if any);
    the response is not [ok] ([NotOk], with the message of the error body
    if there is one, and the status text); or the response is read and
    carries the contents of its choices. *)
Inductive Completion :=
| Failed (message : errorMessage)
| NotOk (bodyMessage : errorMessage) (statusText : jsstring)
| Choices (contents : list jsstring).

(** The request that leaves the program: the [Authorization] key, the
    model and the messages of the body. *)
Record Request := { reqKey : jsstring; reqModel : jsstring; reqMessages : list OpenRouterMessage }.

(** [generateTextWithOpenRouter] *)
Definition generateTextWithOpenRouter (apiKey prompt model : jsstring)
    (systemInstruction : option jsstring) (history : option (list OpenRouterMessage))
    (completion : Completion)
  : list Request * result jsstring :=
  if isEmpty apiKey then ([], Throw (lit "OpenRouter API key is not set."))
  else
    let messages :=
      (match systemInstruction with
       | Some (c :: r) => [ {| orRole := system; content := c :: r |} ]
       | _ => []
       end)
      ++ default [] history
      ++ [ {| orRole := user; content := prompt |} ] in
    let request := {| reqKey := apiKey; reqModel := model; reqMessages := messages |} in
    let rethrow (msg : errorMessage) : result jsstring :=
      Throw (lit "OpenRouter API error: " ++ orElse msg (lit "Unknown error")) in
    match completion with
    | Failed msg => ([request], rethrow msg)
    | NotOk bodyMessage statusText =>
        ([request],
         rethrow (Some (lit "OpenRouter API error: " ++ orElse bodyMessage statusText)))
    | Choices (c :: _) => ([request], Ok c)
    | Choices [] =>
        ([request],
         rethrow (Some (lit "OpenRouter returned no choices or an unexpected response format.")))
    end.

Definition isSystem (m : OpenRouterMessage) : bool :=
  match orRole m with system => true | _ => false end.

(** [chatWithOpenRouter] *)
Definition chatWithOpenRouter (apiKey userMessage : jsstring)
    (currentHistory : list OpenRouterMessage) (model : jsstring)
    (systemInstruction : option jsstring) (completion : Completion)
  : list Request * result (jsstring * list OpenRouterMessage) :=
  let messagesForApi :=
    (match systemInstruction with
     | Some (c :: r) =>
         if existsb isSystem currentHistory then []
         else [ {| orRole := system; content := c :: r |} ]
     | _ => []
     end)
    ++ currentHistory
    ++ [ {| orRole := user; content := userMessage |} ] in
  match generateTextWithOpenRouter apiKey userMessage model None (Some currentHistory)
          completion with
  | (reqs, Throw e) => (reqs, Throw e)
  | (reqs, Ok aiResponseText) =>
      let updatedHistoryAfterUser := messagesForApi in
      let finalHistory :=
        updatedHistoryAfterUser ++ [ {| orRole := assistant; content := aiResponseText |} ] in
      (reqs, Ok (aiResponseText, finalHistory))
  end.

End OpenRouter.

(* ================================================================= *)
(** ** [App.tsx]: the handlers *)

Module App.

(** Outcome of [searchSemanticScholarPapers]. *)
Inductive SearchOutcome :=
| Found (found : list Paper) (total : Z)
| SearchFailed (message : errorMessage).

(** Requests that leave the program. *)
Inductive RemoteCall :=
| SearchPapers (topic key : jsstring) (limit offset : Z)
| ToGemini (r : Gemini.Request)
| ToOpenRouter (r : OpenRouter.Request).

(** What a handler does besides computing: it calls a setter (with a
    value, or with a function of the pending state), shows an [alert], or
    issues a remote call. *)
Inductive Effect :=
| Update (f : AppState -> AppState)
| Alert (message : jsstring)
| Call (c : RemoteCall).

Definition apply (st : AppState) (e : Effect) : AppState :=
  match e with
  | Update f => f st
  | _ => st
  end.

(** The state after the effects, in order. *)
Definition run (st : AppState) (es : list Effect) : AppState := fold_left apply es st.

(** The state after each effect, in order. *)
Fixpoint trace (st : AppState) (es : list Effect) : list AppState :=
  match es with
  | [] => []
  | e :: r => apply st e :: trace (apply st e) r
  end.

Definition isCall (e : Effect) : bool :=
  match e with Call _ => true | _ => false end.

Definition remoteCalls (es : list Effect) : list Effect := List.filter isCall es.

Definition alerts (es : list Effect) : list jsstring :=
  omap (fun e => match e with Alert m => Some m | _ => None end) es.

Section Handlers.

(** [constants.ts] and the string values of [enum ApiProvider] are not
    among the sources. *)
Variable MAX_CONTEXT_LENGTH_WORDS : Z.
Variable PAPERS_PER_PAGE : Z.
Variable providerName : ApiProvider -> jsstring.

(** [handleSelectedGeminiModelChange] *)
Definition handleSelectedGeminiModelChange (model : jsstring) (g : Gemini.Module_)
  : list Effect * Gemini.Module_ :=
  ([Update (setSelectedGeminiModel model); Update (setGeminiChatHistory [])],
   Gemini.resetGeminiChat g).

(** [handleSelectedOpenRouterModelChange] *)
Definition handleSelectedOpenRouterModelChange (model : jsstring) : list Effect :=
  [Update (setSelectedOpenRouterModel model); Update (setOpenRouterChatHistory [])].

(** [fetchPapersForPage] *)
Definition fetchPapersForPage (snapshot : AppState) (topic : jsstring) (page : Z)
    (outcome : SearchOutcome) : list Effect :=
  if isEmpty (semanticScholar (apiKeys snapshot))
  then [Update (setSearchError (Some (lit "Semantic Scholar API key is not set.")));
        Update (setPapers []);
        Update (setTotalPapers 0)]
  else
    let offset := (page - 1) * PAPERS_PER_PAGE in
    [Update (setSearchLoading true);
     Update (setSearchError None);
     Call (SearchPapers topic (semanticScholar (apiKeys snapshot)) PAPERS_PER_PAGE offset)]
    ++ match outcome with
       | Found responsePapers responseTotal =>
           [Update (setPapers responsePapers);
            Update (setTotalPapers responseTotal);
            Update (setCurrentPage page);
            Update (fun st =>
                      setCachedPapers
                        (fold_left (fun newCache p => <[paperId p := p]> newCache)
                                   responsePapers (cachedPapers st))
                        st)]
       | SearchFailed msg =>
           [Update (setSearchError (Some (orElse msg (lit "Failed to fetch papers."))));
            Update (setPapers []);
            Update (setTotalPapers 0)]
       end
    ++ [Update (setSearchLoading false)].

(** What [handleSearch] does before it awaits the fetch of page 1. *)
Definition handleSearchReset (topic : jsstring) : list Effect :=
  [Update (setResearchTopic topic);
   Update (setSelectedPaperIds []);
   Update (setIntroContent []);
   Update (setRelatedWorksContent []);
   Update (setIntroGrounding None);
   Update (setRelatedWorksGrounding None);
   Update (setCachedPapers ∅)].

(** [handleSearch] *)
Definition handleSearch (snapshot : AppState) (topic : jsstring)
    (outcome : SearchOutcome) : list Effect :=
  handleSearchReset topic ++ fetchPapersForPage snapshot topic 1 outcome.

(** Lines 193 to 206 of [getContextFromSelectedPapers]. *)
Definition papersToConsider (st : AppState) : list Paper :=
  let currentSelectedPaperIdSet := newSet (selectedPaperIds st) in
  if (0 <? length currentSelectedPaperIdSet)%nat
  then omap (fun id => cachedPapers st !! id) currentSelectedPaperIdSet
  else omap (fun p => cachedPapers st !! paperId p) (papers st).

(** The comparator of line 208. *)
Definition compareFn (a b : Paper) : Z :=
  let citationDiff := default 0 (citationCount b) - default 0 (citationCount a) in
  if negb (citationDiff =? 0) then citationDiff
  else default 0 (year b) - default 0 (year a).

Definition authorNames (p : Paper) : jsstring :=
  orElse (option_map (fun l => join (lit ", ") (List.map name l)) (authors p)) (lit "N/A").

(** [${p.year || 'N/A'}]: a missing year and the year 0 are falsy. *)
Definition yearText (p : Paper) : jsstring :=
  match year p with
  | Some y => if y =? 0 then lit "N/A" else numberToString y
  | None => lit "N/A"
  end.

(** The template of line 216. *)
Definition paperInfo (paperCounter : Z) (p : Paper) : jsstring :=
  lit "[" ++ numberToString paperCounter ++ lit "] Title: " ++ title p ++ LF
  ++ lit "Authors: " ++ authorNames p ++ LF
  ++ lit "Year: " ++ yearText p ++ LF
  ++ lit "Venue: " ++ orElse (venue p) (lit "N/A") ++ LF
  ++ lit "URL: " ++ orElse (url p) (lit "N/A") ++ LF
  ++ lit "Abstract: " ++ orElse (abstract_ p) (lit "N/A") ++ LF ++ LF.

(** [paperInfo.split(/\s+/).length] *)
Definition splitLength (s : jsstring) : Z := Z.of_nat (length (split s)).

(** The loop of lines 214 to 226, from its state ([context], [wordCount],
    [paperCounter]) to the final [context]. *)
Fixpoint appendPapers (ps : list Paper) (context : jsstring) (wordCount paperCounter : Z)
  : jsstring :=
  match ps with
  | [] => context
  | p :: rest =>
      let currentPaperWordCount := splitLength (paperInfo paperCounter p) in
      if wordCount + currentPaperWordCount <=? MAX_CONTEXT_LENGTH_WORDS
      then appendPapers rest (context ++ paperInfo paperCounter p)
             (wordCount + currentPaperWordCount) (paperCounter + 1)
      else context
  end.

(** [getContextFromSelectedPapers] *)
Definition getContextFromSelectedPapers (st : AppState) : jsstring :=
  trim (appendPapers (sort compareFn (papersToConsider st)) [] 0 1).

(** The papers whose block the loop appends, in the order of appending
    (the loop itself only keeps the text). *)
Fixpoint appended (ps : list Paper) (wordCount paperCounter : Z) : list Paper :=
  match ps with
  | [] => []
  | p :: rest =>
      let currentPaperWordCount := splitLength (paperInfo paperCounter p) in
      if wordCount + currentPaperWordCount <=? MAX_CONTEXT_LENGTH_WORDS
      then p :: appended rest (wordCount + currentPaperWordCount) (paperCounter + 1)
      else []
  end.

Definition includedPapers (st : AppState) : list Paper :=
  appended (sort compareFn (papersToConsider st)) 0 1.

(** The number of words of a string, and a count summed over blocks. *)
Definition wordCountOf (s : jsstring) : Z := Z.of_nat (length (words s)).

Definition total (count : jsstring → Z) (bs : list jsstring) : Z :=
  foldr (fun b acc => count b + acc) 0 bs.

(** The blocks of a list of papers numbered from [paperCounter]. *)
Fixpoint blocks (paperCounter : Z) (ps : list Paper) : list jsstring :=
  match ps with
  | [] => []
  | p :: rest => paperInfo paperCounter p :: blocks (paperCounter + 1) rest
  end.

Inductive SectionType := introduction | relatedWorks.

Definition DQUOTE : jsstring := [34%N].

(** The template of lines 259 to 273. *)
Definition promptFor (researchTopic promptAction context : jsstring) : jsstring :=
  LF
  ++ lit "You are an academic writing assistant. Based on the following research papers (each prefixed with a number like [1], [2], etc.) related to the research topic "
  ++ DQUOTE ++ researchTopic ++ DQUOTE ++ lit ", write " ++ promptAction
  ++ lit " for a new research paper." ++ LF
  ++ lit "Instructions:" ++ LF
  ++ lit "1. The tone should be academic, formal, and objective." ++ LF
  ++ lit "2. Synthesize information from the provided papers to create a coherent narrative. Do not simply summarize each paper individually." ++ LF
  ++ lit "3. When you use information or ideas from a specific paper in the context, you MUST cite it using its corresponding number in square brackets (e.g., [1], [2])." ++ LF
  ++ lit "4. Ensure that citations are placed appropriately within the text." ++ LF
  ++ lit "5. At the end of the generated section, you MUST include a 'References' section." ++ LF
  ++ lit "6. In the 'References' section, list all papers that you cited. Use the corresponding number for each reference." ++ LF
  ++ lit "7. For each reference, include the authors, year, title, and venue. If a URL is available, you can include it. Format example:" ++ LF
  ++ lit "   [1] Author, A. A., & Author, B. B. (Year). Title of paper. *Venue*. URL (if available)" ++ LF
  ++ lit "   [2] Author, C. C., et al. (Year). Another title. *Conference or Journal Name*." ++ LF
  ++ lit "Context Papers:" ++ LF
  ++ context ++ LF
  ++ lit "Begin the " ++ promptAction ++ lit " now:".

Definition generationSystemInstruction : jsstring :=
  lit "You are an expert academic writing assistant specializing in drafting research paper sections with proper citations and references according to the user's detailed instructions. Adhere strictly to the citation and reference formatting provided.".

(** The four messages of the checks of [handleGenerateSection]. *)
Definition noTopicMessage : jsstring := lit "Please search for a topic first.".
Definition noContextMessage : jsstring := lit "No papers available to provide context.".
Definition noKeyMessage (provider : ApiProvider) : jsstring :=
  lit "API key for " ++ providerName provider ++ lit " is not set.".
Definition noModelMessage (provider : ApiProvider) : jsstring :=
  lit "Model for " ++ providerName provider ++ lit " is not selected.".

(** Lines 251 to 256: the start of an attempt. *)
Definition startAttempt (sectionType : SectionType) : list Effect :=
  Update (setGenerationLoading true)
  :: match sectionType with
     | introduction =>
         [Update (setIntroError None); Update (setIntroContent []);
          Update (setIntroGrounding None)]
     | relatedWorks =>
         [Update (setRelatedWorksError None); Update (setRelatedWorksContent []);
          Update (setRelatedWorksGrounding None)]
     end.

(** Lines 287 to 294: what the attempt stores when the service returns
    or throws. *)
Definition storeOutcome (sectionType : SectionType)
    (outcome : result (jsstring * option (list GroundingChunk))) : list Effect :=
  match outcome, sectionType with
  | Ok (resultText, groundingData), introduction =>
      [Update (setIntroContent resultText); Update (setIntroGrounding groundingData)]
  | Ok (resultText, groundingData), relatedWorks =>
      [Update (setRelatedWorksContent resultText);
       Update (setRelatedWorksGrounding groundingData)]
  | Throw message, introduction => [Update (setIntroError (Some message))]
  | Throw message, relatedWorks => [Update (setRelatedWorksError (Some message))]
  end.

(** Lines 280 to 285: the request to the provider of the generation.
    Its outcome is [geminiResponse] or [openRouterCompletion], by
    provider. *)
Definition requestText (provider : ApiProvider) (apiKey prompt modelToUse : jsstring)
    (systemInstruction : jsstring)
    (geminiResponse : Gemini.Response) (openRouterCompletion : OpenRouter.Completion)
    (g : Gemini.Module_) : Gemini.Module_ * list RemoteCall * result jsstring :=
  match provider with
  | GEMINI =>
      match Gemini.generateTextWithGemini apiKey prompt modelToUse
              (Some systemInstruction) false geminiResponse g with
      | (g', reqs, Ok geminiResult) =>
          (g', List.map ToGemini reqs, Ok (Gemini.resultText geminiResult))
      | (g', reqs, Throw e) => (g', List.map ToGemini reqs, Throw e)
      end
  | OPENROUTER =>
      match OpenRouter.generateTextWithOpenRouter apiKey prompt modelToUse
              (Some systemInstruction) None openRouterCompletion with
      | (reqs, r) => (g, List.map ToOpenRouter reqs, r)
      end
  end.

(** [handleGenerateSection] *)
Definition handleGenerateSection (snapshot : AppState) (sectionType : SectionType)
    (geminiResponse : Gemini.Response) (openRouterCompletion : OpenRouter.Completion)
    (g : Gemini.Module_) : list Effect * Gemini.Module_ :=
  let context := getContextFromSelectedPapers snapshot in
  if isEmpty (researchTopic snapshot) then ([Alert noTopicMessage], g)
  else if isEmpty context then ([Alert noContextMessage], g)
  else
    let apiKey :=
      match generationProvider snapshot with
      | GEMINI => gemini (apiKeys snapshot)
      | OPENROUTER => openRouter (apiKeys snapshot)
      end in
    let modelToUse :=
      match generationProvider snapshot with
      | GEMINI => selectedGeminiModel snapshot
      | OPENROUTER => selectedOpenRouterModel snapshot
      end in
    if isEmpty apiKey then ([Alert (noKeyMessage (generationProvider snapshot))], g)
    else if isEmpty modelToUse
    then ([Alert (noModelMessage (generationProvider snapshot))], g)
    else
      let promptAction :=
        match sectionType with
        | introduction => lit "an introduction"
        | relatedWorks => lit "a related works section"
        end in
      let prompt := promptFor (researchTopic snapshot) promptAction context in
      let groundingData : option (list GroundingChunk) := None in
      match requestText (generationProvider snapshot) apiKey prompt modelToUse
              generationSystemInstruction geminiResponse openRouterCompletion g with
      | (g', calls, r) =>
          (startAttempt sectionType
           ++ List.map Call calls
           ++ storeOutcome sectionType
                (match r with
                 | Ok resultText => Ok (resultText, groundingData)
                 | Throw e => Throw e
                 end)
           ++ [Update (setGenerationLoading false)], g')
      end.

(** The two slots, each with its content, its error and its grounding. *)
Definition otherSection (sectionType : SectionType) : SectionType :=
  match sectionType with
  | introduction => relatedWorks
  | relatedWorks => introduction
  end.

Definition slot (sectionType : SectionType) (st : AppState)
  : jsstring * option jsstring * option (list GroundingChunk) :=
  match sectionType with
  | introduction => (introContent st, introError st, introGrounding st)
  | relatedWorks => (relatedWorksContent st, relatedWorksError st, relatedWorksGrounding st)
  end.

(** The key and the model that [handleGenerateSection] checks. *)
Definition generationKey (st : AppState) : jsstring :=
  match generationProvider st with
  | GEMINI => gemini (apiKeys st)
  | OPENROUTER => openRouter (apiKeys st)
  end.

Definition generationModel (st : AppState) : jsstring :=
  match generationProvider st with
  | GEMINI => selectedGeminiModel st
  | OPENROUTER => selectedOpenRouterModel st
  end.

(** [setChatMessages(prev => [...prev, m])] *)
Definition appendChatMessage (m : ChatMessage) : Effect :=
  Update (fun st => setChatMessages (chatMessages st ++ [m]) st).

Definition chatSystemInstruction : jsstring :=
  lit "You are a helpful AI assistant specialized in research-related queries. Be concise and informative.".

(** [handleSendMessage].  [now] is the reading of the clock when the
    user's message is recorded and [later] the reading when the reply or
    the error is. *)
Definition handleSendMessage (snapshot : AppState) (messageText : jsstring)
    (provider : ApiProvider) (model : jsstring) (now later : Z)
    (geminiResponse : Gemini.Response) (openRouterCompletion : OpenRouter.Completion)
    (g : Gemini.Module_) : list Effect * Gemini.Module_ :=
  let userMessage :=
    {| id := numberToString now; sender := SenderUser; text := messageText;
       timestamp := now |} in
  let aiSays (t : jsstring) :=
    {| id := numberToString (later + 1); sender := SenderAi; text := t;
       timestamp := later |} in
  let entry :=
    [appendChatMessage userMessage; Update (setChatLoading true);
     Update (setChatError None)] in
  let apiKey :=
    match provider with
    | GEMINI => gemini (apiKeys snapshot)
    | OPENROUTER => openRouter (apiKeys snapshot)
    end in
  if isEmpty apiKey || isEmpty model
  then
    let errorMsg :=
      if isEmpty apiKey then noKeyMessage provider else noModelMessage provider in
    (entry
     ++ [Update (setChatError (Some errorMsg)); Update (setChatLoading false);
         appendChatMessage (aiSays (lit "Error: " ++ errorMsg))], g)
  else
    let failed (e : jsstring) :=
      [Update (setChatError
                 (Some (orElse (Some e)
                          (lit "Failed to get response from " ++ providerName provider
                           ++ lit "."))));
       appendChatMessage (aiSays (lit "Error: " ++ e))] in
    match provider with
    | GEMINI =>
        match Gemini.startOrContinueChatWithGemini apiKey messageText
                (geminiChatHistory snapshot) model (Some chatSystemInstruction)
                geminiResponse g with
        | (g', reqs, r) =>
            (entry
             ++ List.map (fun q => Call (ToGemini q)) reqs
             ++ match r with
                | Ok (geminiText, newGeminiHistory) =>
                    [Update (setGeminiChatHistory newGeminiHistory);
                     appendChatMessage (aiSays geminiText)]
                | Throw e => failed e
                end
             ++ [Update (setChatLoading false)], g')
        end
    | OPENROUTER =>
        let currentOpenRouterHistory := openRouterChatHistory snapshot in
        match OpenRouter.chatWithOpenRouter apiKey messageText currentOpenRouterHistory
                model (Some chatSystemInstruction) openRouterCompletion with
        | (reqs, r) =>
            (entry
             ++ List.map (fun q => Call (ToOpenRouter q)) reqs
             ++ match r with
                | Ok (orText, newOrHistory) =>
                    [Update (setOpenRouterChatHistory newOrHistory);
                     appendChatMessage (aiSays orText)]
                | Throw e => failed e
                end
             ++ [Update (setChatLoading false)], g)
        end
    end.

(** [handleApiKeyChange] *)
Definition handleApiKeyChange (name : ApiKeyName) (value : jsstring) (g : Gemini.Module_)
  : list Effect * Gemini.Module_ :=
  let setKey :=
    Update (fun st =>
              setApiKeys
                (match name with
                 | KeySemanticScholar =>
                     {| semanticScholar := value; gemini := gemini (apiKeys st);
                        openRouter := openRouter (apiKeys st) |}
                 | KeyGemini =>
                     {| semanticScholar := semanticScholar (apiKeys st); gemini := value;
                        openRouter := openRouter (apiKeys st) |}
                 | KeyOpenRouter =>
                     {| semanticScholar := semanticScholar (apiKeys st);
                        gemini := gemini (apiKeys st); openRouter := value |}
                 end) st) in
  match name with
  | KeyGemini => ([setKey; Update (setGeminiChatHistory [])], Gemini.resetGeminiChat g)
  | KeyOpenRouter => ([setKey; Update (setOpenRouterChatHistory [])], g)
  | KeySemanticScholar => ([setKey], g)
  end.

(** [isApiKeySet] *)
Definition isApiKeySet (snapshot : AppState) (provider : ApiProvider) : bool :=
  match provider with
  | GEMINI => truthy (gemini (apiKeys snapshot))
  | OPENROUTER => truthy (openRouter (apiKeys snapshot))
  end.

(** [handleSend] of [components/ChatWindow.tsx], with the props that
    [App] passes ([loading] is [chatLoading], [activeProvider] is
    [chatProvider]).  [input] is the state of the text field; the result
    carries its value after the handler. *)
Definition handleSend (snapshot : AppState) (input : jsstring) (now later : Z)
    (geminiResponse : Gemini.Response) (openRouterCompletion : OpenRouter.Completion)
    (g : Gemini.Module_) : list Effect * Gemini.Module_ * jsstring :=
  let activeProvider := chatProvider snapshot in
  let currentModel :=
    match activeProvider with
    | GEMINI => selectedGeminiModel snapshot
    | OPENROUTER => selectedOpenRouterModel snapshot
    end in
  if truthy (trim input) && negb (chatLoading snapshot)
     && isApiKeySet snapshot activeProvider && truthy currentModel
  then
    match handleSendMessage snapshot (trim input) activeProvider currentModel now later
            geminiResponse openRouterCompletion g with
    | (es, g') => (es, g', [])
    end
  else if negb (isApiKeySet snapshot activeProvider)
  then ([Alert (lit "Please set the API key for " ++ providerName activeProvider
                ++ lit " to use the chat.")], g, input)
  else if negb (truthy currentModel)
  then ([Alert (lit "Please select a model for " ++ providerName activeProvider
                ++ lit " to use the chat.")], g, input)
  else ([], g, input).

(** The key that [handleSendMessage] checks. *)
Definition chatKey (provider : ApiProvider) (st : AppState) : jsstring :=
  match provider with
  | GEMINI => gemini (apiKeys st)
  | OPENROUTER => openRouter (apiKeys st)
  end.

(** The model that [handleSend] checks and passes on. *)
Definition chatWindowModel (st : AppState) : jsstring :=
  match chatProvider st with
  | GEMINI => selectedGeminiModel st
  | OPENROUTER => selectedOpenRouterModel st
  end.

(** The conversation state: the ordered turns kept for each provider and
    the session of the Gemini module. *)
Definition conversationState (st : AppState) (g : Gemini.Module_)
  : list Content * list OpenRouterMessage * Gemini.Module_ :=
  (geminiChatHistory st, openRouterChatHistory st, g).

End Handlers.

End App.

(* ================================================================= *)
(** ** Sample data *)

Module Sample.

Definition P1 : Paper :=
  {| paperId := lit "P1"; title := lit "Graph learning";
     authors := Some [ {| name := lit "A. Lovelace" |}; {| name := lit "C. Babbage" |} ];
     year := Some 2020; venue := Some (lit "ICML"); url := None;
     abstract_ := Some (lit "We study graphs."); citationCount := Some 10 |}.

Definition P2 : Paper :=
  {| paperId := lit "P2"; title := lit "Attention";
     authors := Some [ {| name := lit "G. Hopper" |} ];
     year := Some 2019; venue := None; url := Some (lit "https://example.org/p2");
     abstract_ := None; citationCount := Some 50 |}.

Definition P3 : Paper :=
  {| paperId := lit "P3"; title := lit "Notes"; authors := None;
     year := None; venue := None; url := None;
     abstract_ := None; citationCount := None |}.

Definition providerName (p : ApiProvider) : jsstring :=
  match p with
  | GEMINI => lit "Gemini"
  | OPENROUTER => lit "OpenRouter"
  end.

Definition cache : gmap jsstring Paper :=
  <[paperId P1 := P1]> (<[paperId P2 := P2]> (<[paperId P3 := P3]> ∅)).

(** A state with keys and models set, nothing selected, [P3] on the page. *)
Definition ready : AppState :=
  mkAppState
    {| semanticScholar := lit "s2-key"; gemini := lit "g-key"; openRouter := lit "or-key" |}
    (lit "graphs") [P3] [] false None 1 3 cache false
    GEMINI [] [] None None false None None
    [] GEMINI false None [] []
    (lit "gemini-pro") (lit "some/model").

(** [P1], [P2] and an id that is not cached are selected. *)
Definition selected : AppState :=
  setSelectedPaperIds [lit "P1"; lit "gone"; lit "P2"; lit "P1"] ready.

(** Only ids that are not cached are selected. *)
Definition stale : AppState := setSelectedPaperIds [lit "gone"] ready.

(** No Gemini key. *)
Definition noKey : AppState :=
  setApiKeys {| semanticScholar := lit "s2-key"; gemini := []; openRouter := lit "or-key" |}
    selected.

Definition noTopic : AppState := setResearchTopic [] noKey.

Definition noModel : AppState := setSelectedGeminiModel [] selected.

(** Content left by earlier attempts in both slots. *)
Definition written : AppState :=
  setIntroContent (lit "old intro")
    (setIntroError (Some (lit "old error"))
       (setRelatedWorksContent (lit "old related works")
          (setRelatedWorksGrounding (Some [ {| source := lit "src" |} ]) selected))).

End Sample.

(* ================================================================= *)
(** ** The rest of the component and of the services *)

Module Rest.

Import App.

(** [Set.prototype.add] and [Set.prototype.delete] on a set kept as the
    list of its members in order of insertion. *)
Definition setAdd (x : jsstring) (s : list jsstring) : list jsstring :=
  if bool_decide (x ∈ s) then s else s ++ [x].

Definition setDelete (x : jsstring) (s : list jsstring) : list jsstring :=
  List.filter (λ y, negb (bool_decide (y = x))) s.

(** The updater of [toggleSelectPaper]: from the previous array to the
    next one. *)
Definition toggled (paperId : jsstring) (prevArray : list jsstring) : list jsstring :=
  let newSet := newSet prevArray in
  if bool_decide (paperId ∈ newSet) then setDelete paperId newSet
  else setAdd paperId newSet.

(** [toggleSelectPaper] *)
Definition toggleSelectPaper (paperId : jsstring) : list Effect :=
  [Update (λ st, setSelectedPaperIds (toggled paperId (selectedPaperIds st)) st)].

(** [handleSelectAllOnPage] *)
Definition handleSelectAllOnPage (snapshot : AppState) : list Effect :=
  let paperIdsOnPage := List.map paperId (papers snapshot) in
  [Update (λ st,
     setSelectedPaperIds (setAddAll (newSet (selectedPaperIds st)) paperIdsOnPage) st)].

(** [handleDeselectAllPapers] *)
Definition handleDeselectAllPapers : list Effect := [Update (setSelectedPaperIds [])].

(** Outcome of [fetchAllPapersForTopic]. *)
Inductive FetchAllOutcome :=
| AllFound (found : list Paper)
| FetchAllFailed (message : errorMessage).

(** What [handleSelectAllAcrossPages] does: an effect of the component, or
    the call of [fetchAllPapersForTopic]. *)
Inductive Action :=
| Do (e : Effect)
| FetchAll (topic key : jsstring) (limit : Z).

Definition effectsOf (acts : list Action) : list Effect :=
  omap (λ a, match a with Do e => Some e | FetchAll _ _ _ => None end) acts.

Definition fetchAllCalls (acts : list Action) : list Action :=
  List.filter (λ a, match a with FetchAll _ _ _ => true | Do _ => false end) acts.

(** [setCachedPapers(prevCache => ...)]: the papers are set one by one
    under their ids. *)
Definition mergeIntoCache (ps : list Paper) : Effect :=
  Update (λ st,
    setCachedPapers
      (fold_left (λ newCache p, <[paperId p := p]> newCache) ps (cachedPapers st)) st).

Section Handlers.

Variable PAPERS_PER_PAGE : Z.
Variable PRACTICAL_SELECT_ALL_LIMIT : Z.

(** [handlePageChange] *)
Definition handlePageChange (snapshot : AppState) (newPage : Z) (outcome : SearchOutcome)
  : list Effect :=
  if truthy (researchTopic snapshot)
  then fetchPapersForPage PAPERS_PER_PAGE snapshot (researchTopic snapshot) newPage outcome
  else [].

(** [handleSelectAllAcrossPages] *)
Definition handleSelectAllAcrossPages (snapshot : AppState) (outcome : FetchAllOutcome)
  : list Action :=
  if isEmpty (researchTopic snapshot) || isEmpty (semanticScholar (apiKeys snapshot))
  then
    [Do (Update (setSearchError
                   (Some (lit "Cannot select all papers without a topic and Semantic Scholar API key."))))]
  else
    [Do (Update (setSelectingAllPapersLoading true));
     Do (Update (setSearchError None));
     FetchAll (researchTopic snapshot) (semanticScholar (apiKeys snapshot))
       PRACTICAL_SELECT_ALL_LIMIT]
    ++ match outcome with
       | AllFound allFoundPapers =>
           [Do (mergeIntoCache allFoundPapers);
            Do (Update (setSelectedPaperIds (List.map paperId allFoundPapers)))]
       | FetchAllFailed msg =>
           [Do (Update (setSearchError
                          (Some (orElse msg (lit "Failed to fetch all papers.")))))]
       end
    ++ [Do (Update (setSelectingAllPapersLoading false))].

End Handlers.

(** [canGenerateSections] *)
Definition canGenerateSections (st : AppState) : bool :=
  ((0 <? length (newSet (selectedPaperIds st)))%nat
   || ((0 <? length (papers st))%nat
       && (length (newSet (selectedPaperIds st)) =? 0)%nat
       && (0 <? size (cachedPapers st))%nat))
  && negb (isEmpty (researchTopic st))
  && isApiKeySet st (generationProvider st)
  && match generationProvider st with
     | GEMINI => truthy (selectedGeminiModel st)
     | OPENROUTER => truthy (selectedOpenRouterModel st)
     end.

(** The [disabled] attribute of the two buttons of
    [components/SectionGeneratorControls.tsx], negated. *)
Definition generateEnabled (st : AppState) : bool :=
  negb (generationLoading st || negb (canGenerateSections st)).

(** A conversation with OpenRouter as [handleSendMessage] drives it: the
    history that a turn returns is the history passed to the next turn.
    Each turn is the user's message and the outcome of its request. *)
Fixpoint converse (apiKey model : jsstring) (systemInstruction : option jsstring)
    (history : list OpenRouterMessage) (turns : list (jsstring * OpenRouter.Completion))
  : result (list OpenRouterMessage) :=
  match turns with
  | [] => Ok history
  | (userMessage, completion) :: rest =>
      match OpenRouter.chatWithOpenRouter apiKey userMessage history model
              systemInstruction completion with
      | (_, Ok (_, updatedHistory)) =>
          converse apiKey model systemInstruction updatedHistory rest
      | (_, Throw e) => Throw e
      end
  end.

(** The turns of a list of exchanges. *)
Definition exchanged (turns : list (jsstring * jsstring)) : list OpenRouterMessage :=
  concat (List.map (λ '(u, a), [ {| orRole := user; content := u |};
                                 {| orRole := assistant; content := a |} ]) turns).

(** States of the Gemini module that calls of its functions lead to. *)
Definition reachable (m : Gemini.Module_) : Prop :=
  ∃ os, m = Gemini.execAll Gemini.initial os.

(** The client held was made with a key that is not empty. *)
Definition keyed (m : Gemini.Module_) : Prop :=
  ∀ a, Gemini.ai m = Some a → Gemini.aiKey a ≠ [].

(** The stored configuration describes the [Chat] held. *)
Definition coherent (m : Gemini.Module_) : Prop :=
  ∀ c, Gemini.geminiChatInstance m = Some c →
       Gemini.chatApiKey m = Some (Gemini.aiKey (Gemini.chatClient c))
       ∧ Gemini.chatModelUsed m = Some (Gemini.chatModel c)
       ∧ ∃ si, Gemini.chatSystemInstruction m = Some si
               ∧ Gemini.chatConfig c = match si with
                                       | Some (x :: r) => Some (x :: r)
                                       | _ => None
                                       end.

(** What the user can do to the conversation with Gemini, and the state
    of the component and of the module after it.  Each handler runs in the
    render of the current state. *)
Inductive Event :=
| Sends (messageText : jsstring) (provider : ApiProvider) (model : jsstring)
    (now later : Z) (geminiResponse : Gemini.Response)
    (openRouterCompletion : OpenRouter.Completion)
| ChangesGeminiModel (model : jsstring)
| ChangesOpenRouterModel (model : jsstring)
| ChangesApiKey (name : ApiKeyName) (value : jsstring)
| Generates (sectionType : SectionType) (geminiResponse : Gemini.Response)
    (openRouterCompletion : OpenRouter.Completion)
| Searches (topic : jsstring) (outcome : SearchOutcome).

Section World.

Variable MAX_CONTEXT_LENGTH_WORDS : Z.
Variable PAPERS_PER_PAGE : Z.
Variable providerName : ApiProvider → jsstring.

Definition after (w : AppState * Gemini.Module_) (ev : Event) : AppState * Gemini.Module_ :=
  let '(st, g) := w in
  match ev with
  | Sends messageText provider model now later geminiResponse openRouterCompletion =>
      match handleSendMessage providerName st messageText provider model now later
              geminiResponse openRouterCompletion g with
      | (es, g') => (run st es, g')
      end
  | ChangesGeminiModel model =>
      match handleSelectedGeminiModelChange model g with
      | (es, g') => (run st es, g')
      end
  | ChangesOpenRouterModel model =>
      (run st (handleSelectedOpenRouterModelChange model), g)
  | ChangesApiKey name value =>
      match handleApiKeyChange name value g with
      | (es, g') => (run st es, g')
      end
  | Generates sectionType geminiResponse openRouterCompletion =>
      match handleGenerateSection MAX_CONTEXT_LENGTH_WORDS providerName st sectionType
              geminiResponse openRouterCompletion g with
      | (es, g') => (run st es, g')
      end
  | Searches topic outcome => (run st (handleSearch PAPERS_PER_PAGE st topic outcome), g)
  end.

Definition afterAll (w : AppState * Gemini.Module_) (evs : list Event)
  : AppState * Gemini.Module_ := fold_left after evs w.

End World.

(** Pages visited one after the other, each with the outcome of its
    fetch; every [handlePageChange] runs in the render of the state that
    the visit before it left. *)
Definition browse (PAPERS_PER_PAGE : Z) (st : AppState) (visits : list (Z * SearchOutcome))
  : AppState :=
  fold_left (λ st' '(newPage, outcome),
               run st' (handlePageChange PAPERS_PER_PAGE st' newPage outcome))
            visits st.

(** The [Chat] held, if any, has the history that the component stores. *)
Definition inStep (w : AppState * Gemini.Module_) : Prop :=
  ∀ c, Gemini.geminiChatInstance (snd w) = Some c →
       Gemini.chatHistory c = geminiChatHistory (fst w).

End Rest.

(* ================================================================= *)
(** * Properties *)

Import App.

(** ** Strings *)

Example split_block : split (lit "a b" ++ LF ++ LF) = [lit "a"; lit "b"; []].
Proof. reflexivity. Qed.

Example split_empty : split [] = [[]].
Proof. reflexivity. Qed.

Example trim_block : trim (lit " a b" ++ LF ++ LF) = lit "a b".
Proof. reflexivity. Qed.

Example newSet_order : newSet [lit "b"; lit "a"; lit "b"] = [lit "b"; lit "a"].
Proof. reflexivity. Qed.

Lemma splitAux_length cur inRun s : (1 <= length (splitAux cur inRun s))%nat.
Proof.
  revert cur inRun.
  induction s as [|c r IH]; intros cur inRun; simpl; [lia|].
  destruct (isWhiteSpace c); [destruct inRun|]; simpl; auto with lia.
Qed.

Lemma split_length_pos s : (1 <= length (split s))%nat.
Proof. apply splitAux_length. Qed.

Lemma words_le_split s : (length (words s) <= length (split s))%nat.
Proof. unfold words. apply List.filter_length_le. Qed.

(** The empty pieces of a split.  While a word is being read ([cur] not
    empty) or a run of white space is being skipped, the only empty piece
    still to come is the one after a final run of white space. *)
Lemma filter_isEmpty_length (l : list jsstring) :
  length l
  = (length (List.filter (λ w, negb (isEmpty w)) l) + length (List.filter isEmpty l))%nat.
Proof.
  induction l as [|w l IH]; simpl; [done|].
  destruct (isEmpty w); simpl; lia.
Qed.

Lemma rev_not_nil (cur : jsstring) : cur ≠ [] → isEmpty (rev cur) = false.
Proof.
  destruct cur as [|c r]; [done|]. intros _. simpl.
  by destruct (rev r).
Qed.

Lemma splitAux_empty_pieces s :
  (∀ cur, cur ≠ [] →
     length (List.filter isEmpty (splitAux cur false s))
     = if endsWithWhiteSpace s then 1%nat else 0%nat)
  ∧ length (List.filter isEmpty (splitAux [] true s))
    = if isEmpty s || endsWithWhiteSpace s then 1%nat else 0%nat.
Proof.
  induction s as [|c r [IHw IHr]].
  - split; [|done]. intros cur Hcur. simpl. by rewrite rev_not_nil.
  - assert (endsWithWhiteSpace (c :: r)
            = if isEmpty r then isWhiteSpace c else endsWithWhiteSpace r) as Hends
      by (by destruct r).
    split.
    + intros cur Hcur. rewrite Hends. simpl splitAux.
      destruct (isWhiteSpace c) eqn:Ec.
      * simpl. rewrite rev_not_nil by done. rewrite IHr. by destruct r.
      * rewrite IHw by done. by destruct r.
    + change (isEmpty (c :: r) || endsWithWhiteSpace (c :: r))
        with (endsWithWhiteSpace (c :: r)).
      rewrite Hends. simpl splitAux.
      destruct (isWhiteSpace c) eqn:Ec.
      * rewrite IHr. by destruct r.
      * rewrite IHw by done. by destruct r.
Qed.

(** A string that starts with a code unit that is not white space and ends
    with white space splits into its words and one empty piece. *)
Lemma split_length_words c r :
  isWhiteSpace c = false →
  endsWithWhiteSpace r = true →
  length (split (c :: r)) = S (length (words (c :: r))).
Proof.
  intros Hc Hr. unfold words. rewrite (filter_isEmpty_length (split (c :: r))).
  unfold split. simpl splitAux. rewrite Hc.
  rewrite (proj1 (splitAux_empty_pieces r) [c]) by done. rewrite Hr. lia.
Qed.

Lemma endsWithWhiteSpace_app (a b : jsstring) :
  b ≠ [] → endsWithWhiteSpace (a ++ b) = endsWithWhiteSpace b.
Proof.
  intros Hb. induction a as [|x a IH]; [done|].
  simpl. rewrite IH. destruct (a ++ b) eqn:E; [|done].
  by apply app_eq_nil in E as [_ ->].
Qed.

(** ** [new Set(arr)] *)

Lemma setAddAll_elem seen arr x :
  x ∈ setAddAll seen arr ↔ x ∈ seen ∨ x ∈ arr.
Proof.
  revert seen.
  induction arr as [|a r IH]; intros seen; simpl.
  - rewrite elem_of_nil. tauto.
  - case_bool_decide as Ha; rewrite IH, elem_of_cons.
    + split; [tauto|]. intros [?|[->|?]]; auto.
    + rewrite elem_of_app, list_elem_of_singleton. tauto.
Qed.

Lemma newSet_elem arr x : x ∈ newSet arr ↔ x ∈ arr.
Proof. unfold newSet. rewrite setAddAll_elem, elem_of_nil. tauto. Qed.

Lemma setAddAll_NoDup seen arr : NoDup seen → NoDup (setAddAll seen arr).
Proof.
  revert seen.
  induction arr as [|a r IH]; intros seen Hs; simpl; [done|].
  case_bool_decide as Ha; apply IH; [done|].
  apply NoDup_app. split_and!; [done| |apply NoDup_singleton].
  intros y Hy Hy'. apply list_elem_of_singleton in Hy'. by subst.
Qed.

Lemma newSet_NoDup arr : NoDup (newSet arr).
Proof. apply setAddAll_NoDup, NoDup_nil_2. Qed.

Lemma newSet_size arr : (0 <? length (newSet arr))%nat = negb (bool_decide (arr = [])).
Proof.
  destruct arr as [|a r]; [reflexivity|].
  case_bool_decide; [done|]. simpl.
  apply Nat.ltb_lt.
  assert (a ∈ newSet (a :: r)) as Hin by (apply newSet_elem; left).
  destruct (newSet (a :: r)); [by apply elem_of_nil in Hin | simpl; lia].
Qed.

(** ** [sort] *)

Section SortFacts.
Context {A : Type} (compareFn : A → A → Z).

Hypothesis inOrder_total : ∀ x y, inOrder compareFn x y ∨ inOrder compareFn y x.
Hypothesis inOrder_trans :
  ∀ x y z, inOrder compareFn x y → inOrder compareFn y z → inOrder compareFn x z.

Lemma insertSorted_Permutation x l : insertSorted compareFn x l ≡ₚ x :: l.
Proof.
  induction l as [|y r IH]; simpl; [done|].
  destruct (compareFn x y <=? 0); [done|].
  rewrite IH. apply Permutation_swap.
Qed.

Lemma sort_Permutation l : sort compareFn l ≡ₚ l.
Proof.
  induction l as [|x r IH]; simpl; [done|].
  unfold sort in *. simpl. rewrite insertSorted_Permutation. by f_equiv.
Qed.

Lemma insertSorted_sorted x l :
  StronglySorted (inOrder compareFn) l →
  StronglySorted (inOrder compareFn) (insertSorted compareFn x l).
Proof.
  induction l as [|y r IH]; intros Hs; simpl.
  - repeat constructor.
  - apply StronglySorted_inv in Hs as [Hr Hy].
    destruct (compareFn x y <=? 0) eqn:E.
    + apply Z.leb_le in E.
      constructor; [by constructor|].
      constructor; [done|].
      eapply Forall_impl; [exact Hy|]. intros z Hz. by eapply inOrder_trans.
    + apply Z.leb_gt in E.
      constructor; [by apply IH|].
      rewrite insertSorted_Permutation. constructor; [|done].
      destruct (inOrder_total x y) as [H|H]; [unfold inOrder in H; lia|done].
Qed.

Lemma sort_sorted l : StronglySorted (inOrder compareFn) (sort compareFn l).
Proof.
  induction l as [|x r IH]; simpl; [constructor|].
  by apply insertSorted_sorted.
Qed.

End SortFacts.

(** ** Context assembly *)

Lemma StronglySorted_lookup {A} (R : A → A → Prop) (l : list A) i j a b :
  StronglySorted R l → (i < j)%nat → l !! i = Some a → l !! j = Some b → R a b.
Proof.
  intros Hs. revert i j.
  induction Hs as [|x l Hs IH Hx]; intros i j Hij Hi Hj; [done|].
  destruct j as [|j]; [lia|]. simpl in Hj.
  destruct i as [|i]; simpl in Hi.
  - injection Hi as ->.
    rewrite Forall_forall in Hx. apply Hx.
    eapply list_elem_of_lookup_2. exact Hj.
  - eapply IH; [|exact Hi|exact Hj]. lia.
Qed.

Lemma compareFn_inOrder a b :
  inOrder compareFn a b ↔
  default 0 (citationCount b) <= default 0 (citationCount a)
  ∧ (default 0 (citationCount a) = default 0 (citationCount b) →
     default 0 (year b) <= default 0 (year a)).
Proof.
  unfold inOrder, compareFn.
  destruct (Z.eqb_spec (default 0 (citationCount b) - default 0 (citationCount a)) 0);
    simpl; lia.
Qed.

Lemma compareFn_total a b : inOrder compareFn a b ∨ inOrder compareFn b a.
Proof. rewrite !compareFn_inOrder. lia. Qed.

Lemma compareFn_trans a b c :
  inOrder compareFn a b → inOrder compareFn b c → inOrder compareFn a c.
Proof. rewrite !compareFn_inOrder. lia. Qed.

Lemma candidates_sorted l : StronglySorted (inOrder compareFn) (sort compareFn l).
Proof. apply sort_sorted; [apply compareFn_total | apply compareFn_trans]. Qed.

Section Assembly.
Variable MAX : Z.

Lemma appendPapers_blocks ps context wordCount k :
  appendPapers MAX ps context wordCount k
  = context ++ concat (blocks k (appended MAX ps wordCount k)).
Proof.
  revert context wordCount k.
  induction ps as [|p rest IH]; intros context wordCount k; simpl.
  - by rewrite app_nil_r.
  - destruct (_ <=? _); simpl; [|by rewrite app_nil_r].
    by rewrite IH, <- app_assoc.
Qed.

(** The appended papers are a prefix of the list; their summed counts stay
    within what the budget leaves; and the paper after them, if any, is
    one whose block does not fit. *)
Lemma appended_spec ps wordCount k :
  ∃ rest,
    ps = appended MAX ps wordCount k ++ rest
    ∧ (wordCount <= MAX →
       wordCount + total splitLength (blocks k (appended MAX ps wordCount k)) <= MAX)
    ∧ match rest with
      | [] => True
      | p :: _ =>
          MAX < wordCount + total splitLength (blocks k (appended MAX ps wordCount k))
                + splitLength (paperInfo (k + Z.of_nat (length (appended MAX ps wordCount k))) p)
      end.
Proof.
  revert wordCount k. unfold total.
  induction ps as [|p rest IH]; intros wordCount k; simpl.
  - exists []. simpl. split_and!; [done|lia|done].
  - destruct (Z.leb_spec (wordCount + splitLength (paperInfo k p)) MAX) as [Hle|Hgt].
    + destruct (IH (wordCount + splitLength (paperInfo k p)) (k + 1))
        as (rest' & Heq & Hsum & Hnext).
      exists rest'. simpl. split_and!.
      * by rewrite <- Heq.
      * intros _. specialize (Hsum Hle). lia.
      * destruct rest' as [|q ?]; [done|].
        replace (k + Z.of_nat (S (length (appended MAX rest
                   (wordCount + splitLength (paperInfo k p)) (k + 1)))))
          with (k + 1 + Z.of_nat (length (appended MAX rest
                   (wordCount + splitLength (paperInfo k p)) (k + 1)))) by lia.
        lia.
    + exists (p :: rest). simpl. split_and!; [done|lia|].
      rewrite !Z.add_0_r. lia.
Qed.

Lemma total_words_le bs : total wordCountOf bs <= total splitLength bs.
Proof.
  unfold total.
  induction bs as [|b r IH]; simpl; [lia|].
  pose proof (words_le_split b). unfold wordCountOf at 1, splitLength at 1. lia.
Qed.

End Assembly.

Example context_of_selection :
  getContextFromSelectedPapers 1000 Sample.selected
  = lit "[1] Title: Attention" ++ LF
    ++ lit "Authors: G. Hopper" ++ LF
    ++ lit "Year: 2019" ++ LF
    ++ lit "Venue: N/A" ++ LF
    ++ lit "URL: https://example.org/p2" ++ LF
    ++ lit "Abstract: N/A" ++ LF ++ LF
    ++ lit "[2] Title: Graph learning" ++ LF
    ++ lit "Authors: A. Lovelace, C. Babbage" ++ LF
    ++ lit "Year: 2020" ++ LF
    ++ lit "Venue: ICML" ++ LF
    ++ lit "URL: N/A" ++ LF
    ++ lit "Abstract: We study graphs.".
Proof. vm_compute. reflexivity. Qed.

Example context_of_page :
  includedPapers 1000 Sample.ready = [Sample.P3]
  ∧ splitLength (paperInfo 1 Sample.P3) = 14
  ∧ wordCountOf (paperInfo 1 Sample.P3) = 13.
Proof. vm_compute. auto. Qed.

(** The count that the loop takes of a block is its number of words plus
    one: a block starts with [[] and ends with a blank line, after which
    the split leaves one empty piece. *)
Lemma paperInfo_splitLength k p :
  splitLength (paperInfo k p) = wordCountOf (paperInfo k p) + 1.
Proof.
  unfold splitLength, wordCountOf.
  assert (∃ r, paperInfo k p = 91%N :: r ∧ endsWithWhiteSpace r = true) as (r & -> & Hr).
  { unfold paperInfo. eexists. split; [reflexivity|].
    rewrite !app_assoc. by rewrite endsWithWhiteSpace_app. }
  rewrite split_length_words by done. lia.
Qed.

Lemma context_is_blocks MAX st :
  getContextFromSelectedPapers MAX st = trim (concat (blocks 1 (includedPapers MAX st))).
Proof. unfold getContextFromSelectedPapers. by rewrite appendPapers_blocks. Qed.

Lemma included_prefix MAX st :
  ∃ rest, sort compareFn (papersToConsider st) = includedPapers MAX st ++ rest.
Proof.
  destruct (appended_spec MAX (sort compareFn (papersToConsider st)) 0 1)
    as (rest & Heq & _). by exists rest.
Qed.

(** C1.  The text returned by [getContextFromSelectedPapers] is made of
    the blocks of the included papers, in order, and in that order a paper
    never has fewer citations than a later one (a missing count being 0);
    where two have the same count, the earlier one does not have the
    smaller year (a missing year being 0). *)
Theorem buildContext_rank_order (MAX : Z) (st : AppState) :
  getContextFromSelectedPapers MAX st = trim (concat (blocks 1 (includedPapers MAX st)))
  ∧ ∀ (i j : nat) (a b : Paper),
      (i < j)%nat →
      includedPapers MAX st !! i = Some a →
      includedPapers MAX st !! j = Some b →
      default 0 (citationCount b) <= default 0 (citationCount a)
      ∧ (default 0 (citationCount a) = default 0 (citationCount b) →
         default 0 (year b) <= default 0 (year a)).
Proof.
  split; [apply context_is_blocks|].
  intros i j a b Hij Ha Hb.
  apply compareFn_inOrder.
  destruct (included_prefix MAX st) as [rest Heq].
  pose proof (candidates_sorted (papersToConsider st)) as Hs.
  rewrite Heq in Hs. apply StronglySorted_app_1_l in Hs.
  eapply StronglySorted_lookup; eauto.
Qed.

Lemma buildContext_rank_order_witness :
  default 0 (citationCount Sample.P1) <= default 0 (citationCount Sample.P2)
  ∧ (default 0 (citationCount Sample.P2) = default 0 (citationCount Sample.P1) →
     default 0 (year Sample.P1) <= default 0 (year Sample.P2)).
Proof.
  apply (proj2 (buildContext_rank_order 1000 Sample.selected) 0%nat 1%nat
           Sample.P2 Sample.P1); [lia | reflexivity | reflexivity].
Defined.

(** X29.  With a budget that is not negative: the counts of the appended
    blocks, as the loop takes them ([split(/\s+/).length], which for a
    block is its number of words plus one), sum to at most the budget, and
    so do their numbers of words; the appended papers are a prefix of the
    sorted candidates, and the candidate after the prefix, if there is
    one, is one whose block would take that count over the budget; with
    budget 0, and when the count or the number of words of the block of
    the first candidate is over the budget, the result is the empty
    string. *)
Theorem buildContext_within_budget (MAX : Z) (st : AppState) :
  0 <= MAX →
  let candidates := sort compareFn (papersToConsider st) in
  let included := includedPapers MAX st in
  getContextFromSelectedPapers MAX st = trim (concat (blocks 1 included))
  ∧ total splitLength (blocks 1 included) <= MAX
  ∧ total wordCountOf (blocks 1 included) <= MAX
  ∧ (∀ k p, splitLength (paperInfo k p) = wordCountOf (paperInfo k p) + 1)
  ∧ (∃ rest,
       candidates = included ++ rest
       ∧ match rest with
         | [] => True
         | p :: _ =>
             MAX < total splitLength (blocks 1 included)
                   + splitLength (paperInfo (1 + Z.of_nat (length included)) p)
         end)
  ∧ (MAX = 0 → getContextFromSelectedPapers MAX st = [])
  ∧ (∀ p rest,
       candidates = p :: rest →
       MAX < splitLength (paperInfo 1 p) ∨ MAX < wordCountOf (paperInfo 1 p) →
       getContextFromSelectedPapers MAX st = []).
Proof.
  intros Hpos. cbv zeta.
  rewrite context_is_blocks. unfold includedPapers.
  set (candidates := sort compareFn (papersToConsider st)).
  destruct (appended_spec MAX candidates 0 1) as (rest & Heq & Hsum & Hnext).
  specialize (Hsum Hpos). rewrite Z.add_0_l in Hsum, Hnext.
  assert (∀ p rest', candidates = p :: rest' → MAX < splitLength (paperInfo 1 p) →
          appended MAX candidates 0 1 = []) as Hfirst.
  { intros p rest' Hc Hover. rewrite Hc. simpl.
    destruct (Z.leb_spec (0 + splitLength (paperInfo 1 p)) MAX); [lia|done]. }
  split_and!.
  - done.
  - exact Hsum.
  - etrans; [apply total_words_le|exact Hsum].
  - apply paperInfo_splitLength.
  - exists rest. split; [done|]. by destruct rest.
  - intros ->.
    destruct candidates as [|p rest'] eqn:Hc; [done|].
    rewrite (Hfirst p rest' eq_refl); [done|].
    pose proof (split_length_pos (paperInfo 1 p)). unfold splitLength. lia.
  - intros p rest' Hc Hover.
    rewrite (Hfirst p rest' Hc); [done|].
    destruct Hover as [|Hw]; [done|].
    pose proof (words_le_split (paperInfo 1 p)). unfold splitLength, wordCountOf in *. lia.
Qed.

Lemma buildContext_within_budget_witness :
  total splitLength (blocks 1 (includedPapers 20 Sample.selected)) <= 20
  ∧ getContextFromSelectedPapers 13 Sample.ready = [].
Proof.
  split.
  - pose proof (buildContext_within_budget 20 Sample.selected) as H.
    apply H. lia.
  - apply (proj2 (proj2 (proj2 (proj2 (proj2 (proj2
             (buildContext_within_budget 13 Sample.ready ltac:(lia)))))))
             Sample.P3 []); [reflexivity | left; reflexivity].
Defined.

(** C2.  The loop stops one word early.  What it calls
    [currentPaperWordCount] is [paperInfo.split(/\s+/).length], and a block
    ends in a blank line, so that the count is the number of words of the
    block plus one, for the empty piece after the last word.  A first
    block of exactly as many words as the budget allows, whose addition
    would not exceed the budget, is therefore not appended, and the
    context is empty. *)
Theorem buildContext_drops_exact_fit (MAX : Z) (st : AppState) (p : Paper)
    (rest : list Paper) :
  sort compareFn (papersToConsider st) = p :: rest →
  wordCountOf (paperInfo 1 p) = MAX →
  0 + wordCountOf (paperInfo 1 p) <= MAX
  ∧ splitLength (paperInfo 1 p) = MAX + 1
  ∧ includedPapers MAX st = []
  ∧ getContextFromSelectedPapers MAX st = [].
Proof.
  intros Hc Hw.
  pose proof (paperInfo_splitLength 1 p) as Hs.
  assert (includedPapers MAX st = []) as Hnone.
  { unfold includedPapers. rewrite Hc. simpl.
    destruct (Z.leb_spec (0 + splitLength (paperInfo 1 p)) MAX); [lia|done]. }
  split_and!; [lia | lia | done |].
  by rewrite context_is_blocks, Hnone.
Qed.

Lemma buildContext_drops_exact_fit_witness :
  wordCountOf (paperInfo 1 Sample.P3) = 13
  ∧ getContextFromSelectedPapers 13 Sample.ready = [].
Proof.
  split; [reflexivity|].
  apply (buildContext_drops_exact_fit 13 Sample.ready Sample.P3 []); reflexivity.
Defined.

(** The same one paper later: the blocks of [P2] and [P1] have 14 and 19
    words, 33 together, and under a budget of 33 only [P2] is appended. *)
Example second_block_dropped_within_budget :
  sort compareFn (papersToConsider Sample.selected) = [Sample.P2; Sample.P1]
  ∧ wordCountOf (paperInfo 1 Sample.P2) + wordCountOf (paperInfo 2 Sample.P1) = 33
  ∧ includedPapers 33 Sample.selected = [Sample.P2]
  ∧ includedPapers 35 Sample.selected = [Sample.P2; Sample.P1].
Proof. vm_compute. by split_and!. Qed.

Lemma papersToConsider_selected st :
  selectedPaperIds st ≠ [] →
  papersToConsider st = omap (λ id, cachedPapers st !! id) (newSet (selectedPaperIds st)).
Proof.
  intros Hne. unfold papersToConsider.
  rewrite newSet_size. by rewrite bool_decide_eq_false_2.
Qed.

Lemma sort_nil_context MAX st :
  papersToConsider st = [] → getContextFromSelectedPapers MAX st = [].
Proof. intros H. unfold getContextFromSelectedPapers. by rewrite H. Qed.

(** C8.  With a selection that is not empty the candidates are the cached
    papers of the selected ids, one per distinct id in order of first
    selection: an id that is not cached contributes nothing, and when no
    selected id is cached there is no candidate and the context is empty,
    whatever the page holds.  With an empty selection the candidates are
    the cached papers of the ids on the page. *)
Theorem buildContext_candidates (st : AppState) :
  match selectedPaperIds st with
  | _ :: _ =>
      papersToConsider st
      = omap (λ id, cachedPapers st !! id) (newSet (selectedPaperIds st))
      ∧ (∀ p, p ∈ papersToConsider st ↔
              ∃ id, id ∈ selectedPaperIds st ∧ cachedPapers st !! id = Some p)
      ∧ ((∀ id, id ∈ selectedPaperIds st → cachedPapers st !! id = None) →
         papersToConsider st = []
         ∧ ∀ MAX, getContextFromSelectedPapers MAX st = [])
  | [] =>
      papersToConsider st = omap (λ p, cachedPapers st !! paperId p) (papers st)
      ∧ ∀ p, p ∈ papersToConsider st ↔
             ∃ q, q ∈ papers st ∧ cachedPapers st !! paperId q = Some p
  end.
Proof.
  destruct (selectedPaperIds st) as [|i0 ids] eqn:Hsel.
  - assert (papersToConsider st
            = omap (λ p, cachedPapers st !! paperId p) (papers st)) as Heq.
    { unfold papersToConsider. by rewrite Hsel. }
    split; [done|]. intros p. rewrite Heq. apply list_elem_of_omap.
  - assert (papersToConsider st
            = omap (λ id, cachedPapers st !! id) (newSet (i0 :: ids))) as Heq.
    { rewrite <- Hsel. apply papersToConsider_selected. by rewrite Hsel. }
    assert (∀ p, p ∈ papersToConsider st ↔
                 ∃ id, id ∈ i0 :: ids ∧ cachedPapers st !! id = Some p) as Hmem.
    { intros p. rewrite Heq, list_elem_of_omap.
      split; intros (id & Hid & Hc); exists id; split; try done;
        by apply newSet_elem. }
    split_and!; [done|done|].
    intros Hmiss.
    assert (papersToConsider st = []) as Hnil.
    { destruct (papersToConsider st) as [|p l] eqn:E; [done|].
      destruct (proj1 (Hmem p)) as (id & Hid & Hc); [left|].
      rewrite (Hmiss id Hid) in Hc. done. }
    split; [done|]. intros MAX. by apply sort_nil_context.
Qed.

Lemma buildContext_candidates_witness :
  papersToConsider Sample.stale = []
  ∧ papersToConsider Sample.ready = [Sample.P3]
  ∧ papersToConsider Sample.selected = [Sample.P1; Sample.P2].
Proof.
  split_and!.
  - apply (proj2 (proj2 (buildContext_candidates Sample.stale))).
    intros id Hid. apply list_elem_of_singleton in Hid. subst id. reflexivity.
  - rewrite (proj1 (buildContext_candidates Sample.ready)). reflexivity.
  - rewrite (proj1 (buildContext_candidates Sample.selected)). reflexivity.
Defined.

(** ** Generation *)

Lemma isEmpty_true (s : jsstring) : isEmpty s = true ↔ s = [].
Proof. destruct s; simpl; split; congruence. Qed.

Lemma isEmpty_false (s : jsstring) : isEmpty s = false ↔ s ≠ [].
Proof. destruct s; simpl; split; congruence. Qed.

Lemma validation_messages_distinct (providerName : ApiProvider → jsstring)
    (p q : ApiProvider) :
  noTopicMessage ≠ noContextMessage
  ∧ noTopicMessage ≠ noKeyMessage providerName p
  ∧ noTopicMessage ≠ noModelMessage providerName p
  ∧ noContextMessage ≠ noKeyMessage providerName p
  ∧ noContextMessage ≠ noModelMessage providerName p
  ∧ noKeyMessage providerName p ≠ noModelMessage providerName q.
Proof.
  unfold noTopicMessage, noContextMessage, noKeyMessage, noModelMessage.
  split_and!; cbn; discriminate.
Qed.

(** C6.  [handleGenerateSection] checks, in this order, the topic, the
    assembled context, the key of the generation provider and its model.
    The first check that fails decides the outcome: the run consists of
    one [alert] with the message of that check, so that no setter is
    called, no request is issued and the service module is untouched.
    The four messages are pairwise different. *)
Theorem generate_checks_in_order (MAX : Z) (providerName : ApiProvider → jsstring)
    (st : AppState) (sectionType : SectionType)
    (geminiResponse : Gemini.Response) (openRouterCompletion : OpenRouter.Completion)
    (g : Gemini.Module_) :
  let r := handleGenerateSection MAX providerName st sectionType
             geminiResponse openRouterCompletion g in
  let context := getContextFromSelectedPapers MAX st in
  (researchTopic st = [] → r = ([Alert noTopicMessage], g))
  ∧ (researchTopic st ≠ [] → context = [] → r = ([Alert noContextMessage], g))
  ∧ (researchTopic st ≠ [] → context ≠ [] → generationKey st = [] →
     r = ([Alert (noKeyMessage providerName (generationProvider st))], g))
  ∧ (researchTopic st ≠ [] → context ≠ [] → generationKey st ≠ [] →
     generationModel st = [] →
     r = ([Alert (noModelMessage providerName (generationProvider st))], g))
  ∧ (researchTopic st = [] ∨ context = [] ∨ generationKey st = [] ∨ generationModel st = [] →
     remoteCalls (fst r) = [] ∧ run st (fst r) = st ∧ snd r = g
     ∧ ∃ message, alerts (fst r) = [message])
  ∧ (noTopicMessage ≠ noContextMessage
     ∧ noTopicMessage ≠ noKeyMessage providerName (generationProvider st)
     ∧ noTopicMessage ≠ noModelMessage providerName (generationProvider st)
     ∧ noContextMessage ≠ noKeyMessage providerName (generationProvider st)
     ∧ noContextMessage ≠ noModelMessage providerName (generationProvider st)
     ∧ noKeyMessage providerName (generationProvider st)
       ≠ noModelMessage providerName (generationProvider st)).
Proof.
  cbv zeta. unfold handleGenerateSection, generationKey, generationModel.
  pose proof (validation_messages_distinct providerName
                (generationProvider st) (generationProvider st))
    as (? & ? & ? & ? & ? & ?).
  split_and!; try done.
  - intros Ht. by rewrite (proj2 (isEmpty_true _) Ht).
  - intros Ht Hc.
    by rewrite (proj2 (isEmpty_false _) Ht), (proj2 (isEmpty_true _) Hc).
  - intros Ht Hc Hk.
    by rewrite (proj2 (isEmpty_false _) Ht), (proj2 (isEmpty_false _) Hc),
      (proj2 (isEmpty_true _) Hk).
  - intros Ht Hc Hk Hm.
    by rewrite (proj2 (isEmpty_false _) Ht), (proj2 (isEmpty_false _) Hc),
      (proj2 (isEmpty_false _) Hk), (proj2 (isEmpty_true _) Hm).
  - intros Hfail.
    destruct (isEmpty (researchTopic st)) eqn:Et; [simpl; eauto|].
    destruct (isEmpty (getContextFromSelectedPapers MAX st)) eqn:Ec; [simpl; eauto|].
    match goal with |- context [if isEmpty ?k then _ else _] =>
      destruct (isEmpty k) eqn:Ek; [simpl; eauto|] end.
    match goal with |- context [if isEmpty ?k then _ else _] =>
      destruct (isEmpty k) eqn:Em; [simpl; eauto|] end.
    apply isEmpty_false in Et, Ec, Ek, Em. tauto.
Qed.

Lemma generate_checks_in_order_witness :
  handleGenerateSection 1000 Sample.providerName Sample.noKey introduction
    (Gemini.Responded (lit "text") None) (OpenRouter.Choices [lit "text"]) Gemini.initial
  = ([Alert (lit "API key for Gemini is not set.")], Gemini.initial)
  ∧ handleGenerateSection 1000 Sample.providerName Sample.noTopic introduction
      (Gemini.Responded (lit "text") None) (OpenRouter.Choices [lit "text"]) Gemini.initial
    = ([Alert (lit "Please search for a topic first.")], Gemini.initial).
Proof.
  split.
  - apply (proj1 (proj2 (proj2
      (generate_checks_in_order 1000 Sample.providerName Sample.noKey introduction
         (Gemini.Responded (lit "text") None) (OpenRouter.Choices [lit "text"])
         Gemini.initial)))); [discriminate | vm_compute; discriminate | reflexivity].
  - apply (proj1
      (generate_checks_in_order 1000 Sample.providerName Sample.noTopic introduction
         (Gemini.Responded (lit "text") None) (OpenRouter.Choices [lit "text"])
         Gemini.initial)). reflexivity.
Defined.

Lemma run_app st es1 es2 : run st (es1 ++ es2) = run (run st es1) es2.
Proof. apply fold_left_app. Qed.

Lemma run_calls st (calls : list RemoteCall) : run st (List.map Call calls) = st.
Proof. induction calls as [|c r IH]; simpl; [done|exact IH]. Qed.

Lemma elem_of_trace (P : AppState → Prop) st es :
  Forall (λ e, ∀ s, P s → P (apply s e)) es →
  P st → ∀ s, s ∈ trace st es → P s.
Proof.
  intros Hes. revert st.
  induction Hes as [|e es He Hes IH]; intros st Hst s Hs; simpl in Hs.
  - by apply elem_of_nil in Hs.
  - apply elem_of_cons in Hs as [->|Hs]; [by apply He|].
    eapply IH; [|exact Hs]. by apply He.
Qed.

Lemma Forall_calls (P : Effect → Prop) (calls : list RemoteCall) :
  (∀ c, P (Call c)) → Forall P (List.map Call calls).
Proof. intros H. induction calls; simpl; constructor; auto. Qed.

Lemma getAi_nonempty apiKey g :
  apiKey ≠ [] → ∃ g' a, Gemini.getAi apiKey g = (g', Ok a).
Proof.
  intros Hk. unfold Gemini.getAi.
  destruct (if bool_decide _ then Gemini.ai g else None); [eauto|].
  rewrite (proj2 (isEmpty_false _) Hk). eauto.
Qed.

(** C7.  Once the four checks have passed, the run of
    [handleGenerateSection] starts with the effects of [startAttempt],
    after which the slot of the section holds no content, no error and no
    grounding, whatever it held; when the request fails, the run ends with
    the message of the failure in the error of that slot (and when it
    succeeds, with the text in its content); and after every single effect
    of the run the slot of the other section is what it was before. *)
Theorem generate_attempt_slots (MAX : Z) (providerName : ApiProvider → jsstring)
    (st : AppState) (sectionType : SectionType)
    (geminiResponse : Gemini.Response) (openRouterCompletion : OpenRouter.Completion)
    (g : Gemini.Module_) :
  researchTopic st ≠ [] →
  getContextFromSelectedPapers MAX st ≠ [] →
  generationKey st ≠ [] →
  generationModel st ≠ [] →
  let es := fst (handleGenerateSection MAX providerName st sectionType
                   geminiResponse openRouterCompletion g) in
  ∃ prompt g' calls r,
    requestText (generationProvider st) (generationKey st) prompt (generationModel st)
      generationSystemInstruction geminiResponse openRouterCompletion g = (g', calls, r)
    ∧ (∃ rest, es = startAttempt sectionType ++ rest)
    ∧ slot sectionType (run st (startAttempt sectionType)) = ([], None, None)
    ∧ (∀ e, r = Throw e → slot sectionType (run st es) = ([], Some e, None))
    ∧ (∀ t, r = Ok t → slot sectionType (run st es) = (t, None, None))
    ∧ (generationProvider st = GEMINI → ∀ msg, geminiResponse = Gemini.Rejected msg →
       r = Throw (lit "Gemini API error: " ++ orElse msg (lit "Unknown error")))
    ∧ (generationProvider st = OPENROUTER → ∀ msg,
       openRouterCompletion = OpenRouter.Failed msg →
       r = Throw (lit "OpenRouter API error: " ++ orElse msg (lit "Unknown error")))
    ∧ (∀ s, s ∈ trace st es →
            slot (otherSection sectionType) s = slot (otherSection sectionType) st).
Proof.
  intros Ht Hc Hk Hm. cbv zeta.
  unfold handleGenerateSection.
  rewrite (proj2 (isEmpty_false _) Ht), (proj2 (isEmpty_false _) Hc).
  fold (generationKey st). fold (generationModel st).
  rewrite (proj2 (isEmpty_false _) Hk), (proj2 (isEmpty_false _) Hm).
  match goal with |- context [requestText ?p ?k ?q ?m ?si ?a ?b ?c] =>
    exists q; destruct (requestText p k q m si a b c) as [[g' calls] r] eqn:Hreq end.
  exists g', calls, r. cbv beta iota zeta delta [fst].
  split_and!.
  - done.
  - eauto.
  - by destruct sectionType.
  - intros e ->. rewrite !run_app, run_calls. by destruct sectionType.
  - intros t ->. rewrite !run_app, run_calls. by destruct sectionType.
  - intros Hp msg ->. unfold requestText in Hreq. rewrite Hp in Hreq.
    unfold Gemini.generateTextWithGemini in Hreq.
    destruct (getAi_nonempty (generationKey st) g Hk) as (g1 & a & Ha).
    rewrite Ha in Hreq. by injection Hreq as _ _ <-.
  - intros Hp msg ->. unfold requestText in Hreq. rewrite Hp in Hreq.
    unfold OpenRouter.generateTextWithOpenRouter in Hreq.
    rewrite (proj2 (isEmpty_false _) Hk) in Hreq. by injection Hreq as _ _ <-.
  - apply (elem_of_trace
             (λ s, slot (otherSection sectionType) s = slot (otherSection sectionType) st));
      [|done].
    rewrite !Forall_app. split_and!.
    + destruct sectionType; repeat constructor; intros s <-; reflexivity.
    + apply Forall_calls. by intros c s Hs.
    + destruct r as [t|e], sectionType; repeat constructor; intros s <-; reflexivity.
    + repeat constructor; intros s <-; by destruct sectionType.
Qed.

Lemma generate_attempt_slots_witness :
  slot relatedWorks
    (run Sample.written
       (fst (handleGenerateSection 1000 Sample.providerName Sample.written relatedWorks
               (Gemini.Rejected (Some (lit "quota exceeded")))
               (OpenRouter.Choices []) Gemini.initial)))
  = ([], Some (lit "Gemini API error: quota exceeded"), None).
Proof.
  destruct (generate_attempt_slots 1000 Sample.providerName Sample.written relatedWorks
              (Gemini.Rejected (Some (lit "quota exceeded")))
              (OpenRouter.Choices []) Gemini.initial)
    as (prompt & g' & calls & r & Hreq & _ & _ & Hfail & _ & Hgem & _);
    [discriminate | vm_compute; discriminate | discriminate | discriminate |].
  rewrite (Hfail _ (Hgem eq_refl _ eq_refl)). reflexivity.
Defined.

Example attempt_keeps_other_slot :
  slot introduction
    (run Sample.written
       (fst (handleGenerateSection 1000 Sample.providerName Sample.written relatedWorks
               (Gemini.Rejected (Some (lit "quota exceeded")))
               (OpenRouter.Choices []) Gemini.initial)))
  = (lit "old intro", Some (lit "old error"), None).
Proof. vm_compute. reflexivity. Qed.

Example generate_without_model :
  handleGenerateSection 1000 Sample.providerName Sample.noModel relatedWorks
    (Gemini.Responded (lit "text") None) (OpenRouter.Choices [lit "text"]) Gemini.initial
  = ([Alert (lit "Model for Gemini is not selected.")], Gemini.initial).
Proof. vm_compute. reflexivity. Qed.

(** ** Search *)

Lemma merged_lookup (found : list Paper) (m : gmap jsstring Paper) k p :
  fold_left (λ newCache q, <[paperId q := q]> newCache) found m !! k = Some p →
  (p ∈ found ∧ paperId p = k) ∨ m !! k = Some p.
Proof.
  revert m.
  induction found as [|q r IH]; intros m H; simpl in H; [by right|].
  apply IH in H as [[Hin Hk]|H].
  - left. split; [by right|done].
  - destruct (decide (paperId q = k)) as [<-|Hne].
    + rewrite lookup_insert_eq in H. injection H as <-. left. split; [by left|done].
    + rewrite lookup_insert_ne in H by done. by right.
Qed.

Lemma papersToConsider_cached st p :
  p ∈ papersToConsider st → ∃ k, cachedPapers st !! k = Some p.
Proof.
  unfold papersToConsider.
  destruct (0 <? _)%nat; intros H; apply list_elem_of_omap in H as (x & _ & Hx); eauto.
Qed.

Lemma included_cached MAX st p :
  p ∈ includedPapers MAX st → ∃ k, cachedPapers st !! k = Some p.
Proof.
  intros H. apply papersToConsider_cached.
  destruct (included_prefix MAX st) as [rest Heq].
  rewrite <- (sort_Permutation compareFn (papersToConsider st)), Heq.
  apply elem_of_app. by left.
Qed.

(** C10.  [handleSearch] first sets the topic, empties the selection,
    clears the content and the grounding of both sections and empties the
    cache, and only then fetches page 1: the reset issues no request.  In
    the state after the reset no context can be assembled, although the
    page of the previous search is still displayed; and when the handler
    is done, every cached paper, hence every paper of a context assembled
    then, is one found by this search. *)
Theorem search_resets (PAGE : Z) (snapshot st : AppState) (topic : jsstring)
    (outcome : SearchOutcome) :
  let reset := run st (handleSearchReset topic) in
  let final := run st (handleSearch PAGE snapshot topic outcome) in
  handleSearch PAGE snapshot topic outcome
  = handleSearchReset topic ++ fetchPapersForPage PAGE snapshot topic 1 outcome
  ∧ remoteCalls (handleSearchReset topic) = []
  ∧ researchTopic reset = topic
  ∧ selectedPaperIds reset = []
  ∧ slot introduction reset = ([], introError st, None)
  ∧ slot relatedWorks reset = ([], relatedWorksError st, None)
  ∧ cachedPapers reset = ∅
  ∧ (∀ MAX, getContextFromSelectedPapers MAX reset = [])
  ∧ selectedPaperIds final = []
  ∧ (∀ k p, cachedPapers final !! k = Some p →
            ∃ found total, outcome = Found found total ∧ p ∈ found ∧ paperId p = k)
  ∧ (∀ MAX p, p ∈ includedPapers MAX final →
              ∃ found total, outcome = Found found total ∧ p ∈ found).
Proof.
  cbv zeta.
  assert (∀ k p,
            cachedPapers (run st (handleSearch PAGE snapshot topic outcome)) !! k = Some p →
            ∃ found total, outcome = Found found total ∧ p ∈ found ∧ paperId p = k)
    as Hcache.
  { intros k p. unfold handleSearch, fetchPapersForPage.
    destruct (isEmpty (semanticScholar (apiKeys snapshot))); [by simpl|].
    destruct outcome as [found total|msg]; [|by simpl].
    simpl. intros H. apply merged_lookup in H as [[? ?]|H]; [eauto|done]. }
  split_and!; try reflexivity.
  - intros MAX. apply sort_nil_context.
    destruct (papersToConsider _) as [|p l] eqn:E; [done|].
    destruct (papersToConsider_cached (run st (handleSearchReset topic)) p) as [k Hk].
    { rewrite E. by left. }
    by simpl in Hk.
  - unfold handleSearch, fetchPapersForPage.
    destruct (isEmpty (semanticScholar (apiKeys snapshot))); [done|].
    by destruct outcome.
  - exact Hcache.
  - intros MAX p Hp. apply included_cached in Hp as [k Hk].
    apply Hcache in Hk as (found & total & ? & ? & ?). eauto.
Qed.

Lemma search_resets_witness :
  cachedPapers
    (run Sample.selected
       (handleSearch 10 Sample.selected (lit "topology") (Found [Sample.P2] 1)))
  !! lit "P1" = None.
Proof.
  destruct (cachedPapers _ !! lit "P1") as [p|] eqn:E; [|reflexivity].
  destruct (proj1 (proj2 (proj2 (proj2 (proj2 (proj2 (proj2 (proj2 (proj2 (proj2
              (search_resets 10 Sample.selected Sample.selected (lit "topology")
                 (Found [Sample.P2] 1))))))))))) (lit "P1") p E)
    as (found & total & Heq & Hin & Hid).
  injection Heq as <- _. apply list_elem_of_singleton in Hin. subst p.
  vm_compute in Hid. discriminate Hid.
Defined.

Example search_then_context :
  getContextFromSelectedPapers 1000
    (run Sample.selected
       (handleSearch 10 Sample.selected (lit "topology") (SearchFailed None)))
  = [].
Proof. vm_compute. reflexivity. Qed.

(** ** Chat *)

Lemma isApiKeySet_chatKey st provider :
  isApiKeySet st provider = negb (isEmpty (chatKey provider st)).
Proof. by destruct provider. Qed.

(** C9.  A send from the chat window while the key of the active
    provider or its model is empty only shows an [alert]: the handler of
    [App] is not called, nothing is requested and no state changes.  When
    [handleSendMessage] itself finds the key of the chosen provider empty,
    or the model empty, it reports the error at once: [chatError] is set
    to the message of the failed check and the transcript receives, after
    the user's entry, an entry of the assistant that reads [Error: ]
    followed by that message.  That run issues no request, and the
    conversation state (the turns kept for both providers and the Gemini
    session) is what it was; the state after the run differs from the
    state before it in [chatError], [chatLoading] and the transcript
    only. *)
Theorem chat_validation_failure (providerName : ApiProvider → jsstring)
    (snapshot st : AppState) (input messageText : jsstring) (provider : ApiProvider)
    (model : jsstring) (now later : Z)
    (geminiResponse : Gemini.Response) (openRouterCompletion : OpenRouter.Completion)
    (g : Gemini.Module_) :
  (chatKey (chatProvider snapshot) snapshot = [] ∨ chatWindowModel snapshot = [] →
   ∃ message,
     handleSend providerName snapshot input now later geminiResponse
       openRouterCompletion g
     = ([Alert message], g, input)
     ∧ remoteCalls [Alert message] = []
     ∧ run st [Alert message] = st)
  ∧ (chatKey provider snapshot = [] ∨ model = [] →
     let r := handleSendMessage providerName snapshot messageText provider model now later
                geminiResponse openRouterCompletion g in
     let errorMsg :=
       if isEmpty (chatKey provider snapshot) then noKeyMessage providerName provider
       else noModelMessage providerName provider in
     let userEntry :=
       {| id := numberToString now; sender := SenderUser; text := messageText;
          timestamp := now |} in
     let errorEntry :=
       {| id := numberToString (later + 1); sender := SenderAi;
          text := lit "Error: " ++ errorMsg; timestamp := later |} in
     remoteCalls (fst r) = []
     ∧ alerts (fst r) = []
     ∧ run st (fst r)
       = setChatMessages (chatMessages st ++ [userEntry; errorEntry])
           (setChatLoading false (setChatError (Some errorMsg) st))
     ∧ chatError (run st (fst r)) = Some errorMsg
     ∧ conversationState (run st (fst r)) (snd r) = conversationState st g).
Proof.
  split.
  - intros Hfail. unfold handleSend. rewrite !isApiKeySet_chatKey. unfold truthy.
    fold (chatWindowModel snapshot).
    destruct (isEmpty (chatKey (chatProvider snapshot) snapshot)) eqn:Ek.
    + cbn [negb]. rewrite andb_false_r. cbn. eauto.
    + destruct (isEmpty (chatWindowModel snapshot)) eqn:Em.
      * cbn [negb]. rewrite andb_false_r. cbn. eauto.
      * apply isEmpty_false in Ek, Em. tauto.
  - intros Hfail. cbv zeta. unfold handleSendMessage. fold (chatKey provider snapshot).
    assert (isEmpty (chatKey provider snapshot) || isEmpty model = true) as ->.
    { destruct Hfail as [->| ->]; [done|]. apply orb_true_r. }
    cbv beta iota zeta delta [fst snd].
    split_and!; try reflexivity.
    simpl. by rewrite <- app_assoc.
Qed.

Lemma chat_validation_failure_witness :
  chatError
    (run Sample.noKey
       (fst (handleSendMessage Sample.providerName Sample.noKey (lit "hello") GEMINI
               (lit "gemini-pro") 1700000000000 1700000000005
               (Gemini.Responded (lit "hi") None) (OpenRouter.Choices [lit "hi"])
               Gemini.initial)))
  = Some (lit "API key for Gemini is not set.").
Proof.
  rewrite (proj1 (proj2 (proj2 (proj2 (proj2
    (chat_validation_failure Sample.providerName Sample.noKey Sample.noKey (lit "hello")
       (lit "hello") GEMINI (lit "gemini-pro") 1700000000000 1700000000005
       (Gemini.Responded (lit "hi") None) (OpenRouter.Choices [lit "hi"])
       Gemini.initial) (or_introl eq_refl)))))).
  reflexivity.
Defined.

Example chat_window_without_key :
  handleSend Sample.providerName Sample.noKey (lit "hello") 7 9
    (Gemini.Responded (lit "hi") None) (OpenRouter.Choices [lit "hi"]) Gemini.initial
  = ([Alert (lit "Please set the API key for Gemini to use the chat.")],
     Gemini.initial, lit "hello").
Proof. vm_compute. reflexivity. Qed.

Example chat_without_model :
  chatMessages
    (run Sample.ready
       (fst (handleSendMessage Sample.providerName Sample.ready (lit "hello") OPENROUTER
               [] 7 9 (Gemini.Responded (lit "hi") None) (OpenRouter.Choices [lit "hi"])
               Gemini.initial)))
  = [ {| id := lit "7"; sender := SenderUser; text := lit "hello"; timestamp := 7 |};
      {| id := lit "10"; sender := SenderAi;
         text := lit "Error: Model for OpenRouter is not selected."; timestamp := 9 |} ].
Proof. vm_compute. reflexivity. Qed.

Lemma getOrCreate_nonempty apiKey history model systemInstruction g :
  apiKey ≠ [] →
  ∃ g' c, Gemini.getOrCreate apiKey history model systemInstruction g = (g', Ok c).
Proof.
  intros Hk. unfold Gemini.getOrCreate.
  destruct (getAi_nonempty apiKey g Hk) as (g1 & a & ->).
  destruct (Gemini.reusable _ _ _ _); eauto.
Qed.

(** The first turn sent to OpenRouter with an empty history: the history
    that comes back starts with a system turn, so it is not the prior
    history followed by the two turns. *)
Lemma openrouter_first_turn_adds_system :
  snd (OpenRouter.chatWithOpenRouter (lit "or-key") (lit "hello") [] (lit "some/model")
         (Some chatSystemInstruction) (OpenRouter.Choices [lit "hi"]))
  = Ok (lit "hi",
        [ {| orRole := system; content := chatSystemInstruction |};
          {| orRole := user; content := lit "hello" |};
          {| orRole := assistant; content := lit "hi" |} ])
  ∧ snd (OpenRouter.chatWithOpenRouter (lit "or-key") (lit "hello") [] (lit "some/model")
           (Some chatSystemInstruction) (OpenRouter.Choices [lit "hi"]))
    ≠ Ok (lit "hi",
          [] ++ [ {| orRole := user; content := lit "hello" |};
                  {| orRole := assistant; content := lit "hi" |} ]).
Proof. split; [reflexivity | vm_compute; discriminate]. Qed.

(** C5, amended.  A turn that succeeds returns the text of the assistant
    and an updated history.  For Gemini it is the prior history followed
    by the user's turn and the model's turn.  For OpenRouter it is the
    prior history followed by the user's turn and the assistant's turn,
    preceded by one system turn that carries the system instruction when
    that instruction is not empty and the prior history has no system
    turn.  A turn succeeds only when the provider answers with a text,
    and with a key that is not empty it does succeed then. *)
Theorem sendTurn_updated_history :
  (∀ apiKey userMessage history model systemInstruction response g g' reqs t updated,
     Gemini.startOrContinueChatWithGemini apiKey userMessage history model
       systemInstruction response g = (g', reqs, Ok (t, updated)) →
     updated = history ++ [Gemini.userContent userMessage; Gemini.modelContent t]
     ∧ ∃ chunks, response = Gemini.Responded t chunks)
  ∧ (∀ apiKey userMessage history model systemInstruction t chunks g,
       apiKey ≠ [] →
       snd (Gemini.startOrContinueChatWithGemini apiKey userMessage history model
              systemInstruction (Gemini.Responded t chunks) g)
       = Ok (t, history ++ [Gemini.userContent userMessage; Gemini.modelContent t]))
  ∧ (∀ apiKey userMessage currentHistory model systemInstruction completion reqs t updated,
       OpenRouter.chatWithOpenRouter apiKey userMessage currentHistory model
         systemInstruction completion = (reqs, Ok (t, updated)) →
       updated
       = (match systemInstruction with
          | Some (c :: r) =>
              if existsb OpenRouter.isSystem currentHistory then []
              else [ {| orRole := system; content := c :: r |} ]
          | _ => []
          end)
         ++ currentHistory
         ++ [ {| orRole := user; content := userMessage |};
              {| orRole := assistant; content := t |} ]
       ∧ apiKey ≠ [] ∧ ∃ more, completion = OpenRouter.Choices (t :: more))
  ∧ (∀ apiKey userMessage currentHistory model systemInstruction t more,
       apiKey ≠ [] →
       existsb OpenRouter.isSystem currentHistory = true ∨ default [] systemInstruction = [] →
       snd (OpenRouter.chatWithOpenRouter apiKey userMessage currentHistory model
              systemInstruction (OpenRouter.Choices (t :: more)))
       = Ok (t, currentHistory
                ++ [ {| orRole := user; content := userMessage |};
                     {| orRole := assistant; content := t |} ])).
Proof.
  split_and!.
  - intros apiKey userMessage history model systemInstruction response g g' reqs t updated.
    unfold Gemini.startOrContinueChatWithGemini.
    destruct (Gemini.getOrCreate _ _ _ _ _) as [g1 [c|e]] eqn:Hlook; [|done].
    destruct response as [t' chunks|msg]; [|by destruct (Gemini.isApiKeyNotValid msg)].
    intros H. injection H as _ _ <- <-. eauto.
  - intros apiKey userMessage history model systemInstruction t chunks g Hk.
    unfold Gemini.startOrContinueChatWithGemini.
    by destruct (getOrCreate_nonempty apiKey history model systemInstruction g Hk)
      as (g1 & c & ->).
  - intros apiKey userMessage currentHistory model systemInstruction completion reqs t updated.
    unfold OpenRouter.chatWithOpenRouter, OpenRouter.generateTextWithOpenRouter.
    destruct (isEmpty apiKey) eqn:Ek; [done|]. apply isEmpty_false in Ek.
    destruct completion as [msg|bm stt|[|c more]]; try done.
    intros H. injection H as _ <- <-.
    split_and!; [by rewrite <- !app_assoc | done | eauto].
  - intros apiKey userMessage currentHistory model systemInstruction t more Hk Hsys.
    unfold OpenRouter.chatWithOpenRouter, OpenRouter.generateTextWithOpenRouter.
    rewrite (proj2 (isEmpty_false _) Hk). cbv beta iota zeta delta [snd].
    destruct systemInstruction as [[|c r]|];
      [by rewrite <- !app_assoc | | by rewrite <- !app_assoc].
    destruct Hsys as [->|?]; [by rewrite <- !app_assoc|done].
Qed.

Lemma sendTurn_updated_history_witness :
  snd (Gemini.startOrContinueChatWithGemini (lit "g-key") (lit "hello")
         [Gemini.userContent (lit "q"); Gemini.modelContent (lit "a")]
         (lit "gemini-pro") (Some chatSystemInstruction)
         (Gemini.Responded (lit "hi") None) Gemini.initial)
  = Ok (lit "hi",
        [Gemini.userContent (lit "q"); Gemini.modelContent (lit "a");
         Gemini.userContent (lit "hello"); Gemini.modelContent (lit "hi")])
  ∧ snd (OpenRouter.chatWithOpenRouter (lit "or-key") (lit "hello")
           [ {| orRole := system; content := lit "be brief" |} ] (lit "some/model")
           (Some chatSystemInstruction) (OpenRouter.Choices [lit "hi"]))
    = Ok (lit "hi",
          [ {| orRole := system; content := lit "be brief" |};
            {| orRole := user; content := lit "hello" |};
            {| orRole := assistant; content := lit "hi" |} ]).
Proof.
  split.
  - apply (proj1 (proj2 sendTurn_updated_history)). discriminate.
  - apply (proj2 (proj2 (proj2 sendTurn_updated_history))); [discriminate|].
    left. reflexivity.
Defined.

(** ** The Gemini session *)

Lemma getAi_Ok apiKey g g1 a :
  Gemini.getAi apiKey g = (g1, Ok a) →
  Gemini.ai g1 = Some a
  ∧ Gemini.activeApiKey g1 = Some apiKey
  ∧ Gemini.geminiChatInstance g1 = Gemini.geminiChatInstance g
  ∧ Gemini.chatApiKey g1 = Gemini.chatApiKey g
  ∧ Gemini.chatSystemInstruction g1 = Gemini.chatSystemInstruction g
  ∧ Gemini.chatModelUsed g1 = Gemini.chatModelUsed g
  ∧ (Gemini.allocated g <= Gemini.allocated g1)%nat
  ∧ (Gemini.wellFormed g → Gemini.wellFormed g1 ∧ Gemini.aiKey a = apiKey).
Proof.
  unfold Gemini.getAi.
  case_bool_decide as Hact.
  - destruct (Gemini.ai g) as [a0|] eqn:Ha.
    + intros H. injection H as <- <-. split_and!; try done.
      intros Hwf. split; [done|].
      destruct Hwf as [_ Hw]. destruct (Hw _ Ha) as [_ Hk]. congruence.
    + destruct (isEmpty apiKey); [done|].
      intros H. injection H as <- <-. simpl. split_and!; try done; [lia|].
      intros [Hc _]. split; [|done]. split; simpl.
      * intros c Hin. specialize (Hc c Hin). lia.
      * intros a H. injection H as <-. simpl. split; [lia|done].
  - destruct (isEmpty apiKey); [done|].
    intros H. injection H as <- <-. simpl. split_and!; try done; [lia|].
    intros [Hc _]. split; [|done]. split; simpl.
    + intros c Hin. specialize (Hc c Hin). lia.
    + intros a H. injection H as <-. simpl. split; [lia|done].
Qed.

Lemma getAi_Throw apiKey g g1 e : Gemini.getAi apiKey g = (g1, Throw e) → g1 = g.
Proof.
  unfold Gemini.getAi.
  destruct (if bool_decide _ then Gemini.ai g else None); [done|].
  destruct (isEmpty apiKey); [|done]. by intros H; injection H as <- _.
Qed.

Lemma getAi_again apiKey g g1 a :
  Gemini.getAi apiKey g = (g1, Ok a) → Gemini.getAi apiKey g1 = (g1, Ok a).
Proof.
  intros H. apply getAi_Ok in H as (Ha & Hk & _).
  unfold Gemini.getAi. by rewrite Hk, bool_decide_eq_true_2, Ha.
Qed.

Lemma reusable_Some apiKey model systemInstruction g c :
  Gemini.reusable apiKey model systemInstruction g = Some c ↔
  Gemini.geminiChatInstance g = Some c
  ∧ Gemini.chatApiKey g = Some apiKey
  ∧ Gemini.chatSystemInstruction g = Some systemInstruction
  ∧ Gemini.chatModelUsed g = Some model.
Proof.
  unfold Gemini.reusable. case_bool_decide as H; [tauto|].
  split; [done|]. intros (? & ? & ? & ?). tauto.
Qed.

Lemma reusable_None apiKey model systemInstruction g :
  Gemini.geminiChatInstance g = None →
  Gemini.reusable apiKey model systemInstruction g = None.
Proof. intros H. unfold Gemini.reusable. by case_bool_decide. Qed.

Lemma getOrCreate_cases apiKey history model systemInstruction g g1 c :
  Gemini.getOrCreate apiKey history model systemInstruction g = (g1, Ok c) →
  ∃ g0 a,
    Gemini.getAi apiKey g = (g0, Ok a)
    ∧ ((Gemini.reusable apiKey model systemInstruction g0 = Some c ∧ g1 = g0)
       ∨ (Gemini.reusable apiKey model systemInstruction g0 = None
          ∧ c = Gemini.chatsCreate a model history systemInstruction (Gemini.allocated g0)
          ∧ g1 = Gemini.mkModule (Gemini.ai g0) (Gemini.activeApiKey g0) (Some c)
                   (Some apiKey) (Some systemInstruction) (Some model)
                   (S (Gemini.allocated g0)))).
Proof.
  unfold Gemini.getOrCreate.
  destruct (Gemini.getAi apiKey g) as [g0 [a|e]] eqn:Ha; [|done].
  destruct (Gemini.reusable apiKey model systemInstruction g0) as [c0|] eqn:Hr;
    intros H; injection H as <- <-; exists g0, a; split; auto.
Qed.

Lemma getOrCreate_Throw apiKey history model systemInstruction g g1 e :
  Gemini.getOrCreate apiKey history model systemInstruction g = (g1, Throw e) → g1 = g.
Proof.
  unfold Gemini.getOrCreate.
  destruct (Gemini.getAi apiKey g) as [g0 [a|e0]] eqn:Ha.
  - by destruct (Gemini.reusable _ _ _ _).
  - intros H. injection H as <- _. by eapply getAi_Throw.
Qed.

(** After a lookup the module holds the [Chat] it returned, under the
    configuration of the lookup. *)
Lemma getOrCreate_stored apiKey history model systemInstruction g g1 c :
  Gemini.getOrCreate apiKey history model systemInstruction g = (g1, Ok c) →
  Gemini.geminiChatInstance g1 = Some c
  ∧ Gemini.chatApiKey g1 = Some apiKey
  ∧ Gemini.chatSystemInstruction g1 = Some systemInstruction
  ∧ Gemini.chatModelUsed g1 = Some model
  ∧ Gemini.activeApiKey g1 = Some apiKey
  ∧ is_Some (Gemini.ai g1).
Proof.
  intros H. apply getOrCreate_cases in H as (g0 & a & Ha & Hcase).
  apply getAi_Ok in Ha as (Hai & Hk & _).
  destruct Hcase as [[Hr ->]|(Hr & -> & ->)].
  - apply reusable_Some in Hr as (? & ? & ? & ?). by rewrite Hai.
  - simpl. by rewrite Hai.
Qed.

Lemma getOrCreate_again apiKey history history' model systemInstruction g g1 c :
  Gemini.getOrCreate apiKey history model systemInstruction g = (g1, Ok c) →
  Gemini.getOrCreate apiKey history' model systemInstruction g1 = (g1, Ok c).
Proof.
  intros H. apply getOrCreate_stored in H as (Hc & Hk & Hs & Hm & Hact & [a Ha]).
  unfold Gemini.getOrCreate, Gemini.getAi.
  rewrite Hact, bool_decide_eq_true_2, Ha by done.
  by rewrite (proj2 (reusable_Some apiKey model systemInstruction g1 c)).
Qed.

Lemma getOrCreate_wellFormed apiKey history model systemInstruction g g1 c :
  Gemini.wellFormed g →
  Gemini.getOrCreate apiKey history model systemInstruction g = (g1, Ok c) →
  Gemini.wellFormed g1 ∧ (Gemini.chatId c < Gemini.allocated g1)%nat.
Proof.
  intros Hwf H. apply getOrCreate_cases in H as (g0 & a & Ha & Hcase).
  apply getAi_Ok in Ha as (Hai & Hk & _ & _ & _ & _ & _ & Hwf0).
  destruct (Hwf0 Hwf) as [[Hc0 Ha0] _].
  destruct Hcase as [[Hr ->]|(Hr & -> & ->)].
  - apply reusable_Some in Hr as (Hin & _). split; [done|]. by apply Hc0.
  - split; [|simpl; lia]. split; simpl.
    + intros c H. injection H as <-. simpl. lia.
    + intros a' H. destruct (Ha0 a' H). split; [lia|done].
Qed.

Lemma getOrCreate_above n apiKey history model systemInstruction g g1 r :
  Gemini.above n g →
  Gemini.getOrCreate apiKey history model systemInstruction g = (g1, r) →
  Gemini.above n g1 ∧ ∀ c, r = Ok c → (n <= Gemini.chatId c)%nat.
Proof.
  intros [Hn Hc] H. destruct r as [c|e].
  - apply getOrCreate_cases in H as (g0 & a & Ha & Hcase).
    apply getAi_Ok in Ha as (_ & _ & Hi & _ & _ & _ & Hle & _).
    destruct Hcase as [[Hr ->]|(Hr & -> & ->)].
    + apply reusable_Some in Hr as (Hin & _). rewrite Hi in Hin.
      split; [split; [lia|by rewrite Hi]|]. intros c' H'. injection H' as <-. auto.
    + split; [split; simpl; [lia|]|];
        intros c' H'; injection H' as <-; simpl; lia.
  - apply getOrCreate_Throw in H as ->. split; [by split|done].
Qed.

Lemma exec_above n g o : Gemini.above n g → Gemini.above n (Gemini.exec g o).
Proof.
  intros Hab. destruct o as [k um h m si resp|k pr m si gr resp|]; simpl.
  - unfold Gemini.startOrContinueChatWithGemini.
    destruct (Gemini.getOrCreate k h m si g) as [g1 r] eqn:Hlook.
    destruct (getOrCreate_above n _ _ _ _ _ _ _ Hab Hlook) as [[Hn Hc] Hid].
    destruct r as [c|e]; [|by split].
    destruct resp as [t ch|msg]; simpl.
    + split; simpl; [done|]. intros c' H. injection H as <-. simpl. by apply Hid.
    + destruct (Gemini.isApiKeyNotValid msg); [|by split].
      split; simpl; [done|]. by intros c' H.
  - unfold Gemini.generateTextWithGemini.
    destruct (Gemini.getAi k g) as [g1 [a|e]] eqn:Ha.
    + apply getAi_Ok in Ha as (_ & _ & Hi & _ & _ & _ & Hle & _).
      destruct Hab as [Hn Hc].
      assert (Gemini.above n g1) by (split; [lia|by rewrite Hi]).
      by destruct resp.
    + by apply getAi_Throw in Ha as ->.
  - destruct Hab as [Hn Hc]. split; simpl; [done|]. by intros c H.
Qed.

Lemma execAll_above n g os : Gemini.above n g → Gemini.above n (Gemini.execAll g os).
Proof.
  revert g. induction os as [|o r IH]; intros g Hab; simpl; [done|].
  by apply IH, exec_above.
Qed.

Lemma initial_wellFormed : Gemini.wellFormed Gemini.initial.
Proof. split; intros x H; discriminate. Qed.

(** A turn rejected because the key has expired, an authentication
    failure whose message does not contain [API key not valid]: the error
    is thrown, the module still holds the [Chat] of the failed turn, which
    is not the state after [resetGeminiChat], and the next lookup under
    the same configuration returns that [Chat]. *)
Lemma expired_key_keeps_session :
  let msg := Some (lit "API key expired. Please renew the API key.") in
  let r := Gemini.startOrContinueChatWithGemini (lit "old-key") (lit "hello") []
             (lit "gemini-pro") None (Gemini.Rejected msg) Gemini.initial in
  let g1 := fst (fst r) in
  Gemini.isApiKeyNotValid msg = false
  ∧ ∃ failed,
      snd (fst r) = [Gemini.SendMessage failed (lit "hello")]
      ∧ snd r = Throw (lit "Gemini Chat API error: API key expired. Please renew the API key.")
      ∧ Gemini.geminiChatInstance g1 = Some failed
      ∧ Gemini.geminiChatInstance (Gemini.resetGeminiChat g1) = None
      ∧ Gemini.getOrCreate (lit "old-key") [] (lit "gemini-pro") None g1 = (g1, Ok failed).
Proof.
  cbv zeta. split; [vm_compute; reflexivity|].
  eexists. split_and!; vm_compute; reflexivity.
Qed.

(** C4, amended.  A turn whose request is rejected with a message that
    contains [API key not valid] throws its error from a module that holds no
    session any more: the instance, the stored key and model, and the
    client are null.  From there a lookup behaves as after
    [resetGeminiChat]; it builds a new [Chat] on a client made with the
    key it is given; and whatever calls are made to the module afterwards,
    no lookup ever returns the [Chat] of the failed turn. *)
Theorem auth_failure_invalidates (apiKey userMessage : jsstring) (history : list Content)
    (model : jsstring) (systemInstruction : option jsstring) (msg : errorMessage)
    (g : Gemini.Module_) :
  Gemini.wellFormed g →
  apiKey ≠ [] →
  Gemini.isApiKeyNotValid msg = true →
  ∃ g0 failed g1,
    Gemini.getOrCreate apiKey history model systemInstruction g = (g0, Ok failed)
    ∧ Gemini.startOrContinueChatWithGemini apiKey userMessage history model
        systemInstruction (Gemini.Rejected msg) g
      = (g1, [Gemini.SendMessage failed userMessage],
         Throw (lit "Gemini Chat API error: " ++ orElse msg (lit "Unknown error")))
    ∧ Gemini.geminiChatInstance g1 = None
    ∧ Gemini.chatApiKey g1 = None
    ∧ Gemini.chatModelUsed g1 = None
    ∧ Gemini.ai g1 = None
    ∧ Gemini.activeApiKey g1 = None
    ∧ (∀ k h m si, k ≠ [] →
         Gemini.getOrCreate k h m si g1
         = Gemini.getOrCreate k h m si (Gemini.resetGeminiChat g1))
    ∧ (∀ k h m si, k ≠ [] →
         ∃ g2 c, Gemini.getOrCreate k h m si g1 = (g2, Ok c)
                 ∧ Gemini.chatId c ≠ Gemini.chatId failed
                 ∧ Gemini.aiKey (Gemini.chatClient c) = k
                 ∧ Gemini.chatModel c = m
                 ∧ Gemini.chatHistory c = h)
    ∧ (∀ os k h m si g2 c,
         Gemini.getOrCreate k h m si (Gemini.execAll g1 os) = (g2, Ok c) →
         Gemini.chatId c ≠ Gemini.chatId failed).
Proof.
  intros Hwf Hk Hmsg.
  destruct (getOrCreate_nonempty apiKey history model systemInstruction g Hk)
    as (g0 & failed & Hlook).
  destruct (getOrCreate_wellFormed _ _ _ _ _ _ _ Hwf Hlook) as [Hwf0 Hid].
  exists g0, failed,
    (Gemini.mkModule None None None None (Gemini.chatSystemInstruction g0) None
       (Gemini.allocated g0)).
  set (g1 := Gemini.mkModule _ _ _ _ _ _ _).
  assert (Gemini.above (Gemini.allocated g0) g1) as Hab by (by split).
  assert (∀ k h m si, k ≠ [] →
            Gemini.getOrCreate k h m si g1
            = (Gemini.mkModule
                 (Some {| Gemini.aiId := Gemini.allocated g0; Gemini.aiKey := k |})
                 (Some k)
                 (Some (Gemini.chatsCreate
                          {| Gemini.aiId := Gemini.allocated g0; Gemini.aiKey := k |}
                          m h si (S (Gemini.allocated g0))))
                 (Some k) (Some si) (Some m) (S (S (Gemini.allocated g0))),
               Ok (Gemini.chatsCreate
                     {| Gemini.aiId := Gemini.allocated g0; Gemini.aiKey := k |}
                     m h si (S (Gemini.allocated g0))))) as Hnext.
  { intros k h m si Hne. unfold Gemini.getOrCreate, Gemini.getAi. simpl.
    rewrite (proj2 (isEmpty_false _) Hne). by rewrite reusable_None. }
  split_and!; try done.
  - unfold Gemini.startOrContinueChatWithGemini. by rewrite Hlook, Hmsg.
  - intros k h m si Hne. rewrite (Hnext k h m si Hne).
    unfold Gemini.getOrCreate, Gemini.getAi. simpl.
    rewrite (proj2 (isEmpty_false _) Hne). by rewrite reusable_None.
  - intros k h m si Hne. eexists _, _. split; [exact (Hnext k h m si Hne)|].
    simpl. split_and!; try done. lia.
  - intros os k h m si g2 c Hl.
    pose proof (execAll_above _ _ os Hab) as Hab'.
    destruct (getOrCreate_above _ _ _ _ _ _ _ _ Hab' Hl) as [_ Hge].
    specialize (Hge c eq_refl). lia.
Qed.

Lemma auth_failure_invalidates_witness :
  Gemini.geminiChatInstance
    (fst (fst (Gemini.startOrContinueChatWithGemini (lit "bad-key") (lit "hello") []
                 (lit "gemini-pro") None
                 (Gemini.Rejected
                    (Some (lit "API key not valid. Please pass a valid API key.")))
                 Gemini.initial)))
  = None.
Proof.
  destruct (auth_failure_invalidates (lit "bad-key") (lit "hello") []
              (lit "gemini-pro") None
              (Some (lit "API key not valid. Please pass a valid API key."))
              Gemini.initial initial_wellFormed ltac:(discriminate) eq_refl)
    as (g0 & failed & g1 & _ & Hturn & Hinst & _).
  rewrite Hturn. exact Hinst.
Defined.

Lemma lookup_hit apiKey history model systemInstruction g c :
  Gemini.activeApiKey g = Some apiKey →
  is_Some (Gemini.ai g) →
  Gemini.geminiChatInstance g = Some c →
  Gemini.chatApiKey g = Some apiKey →
  Gemini.chatSystemInstruction g = Some systemInstruction →
  Gemini.chatModelUsed g = Some model →
  Gemini.getOrCreate apiKey history model systemInstruction g = (g, Ok c).
Proof.
  intros Hact [a Ha] Hc Hk Hs Hm.
  unfold Gemini.getOrCreate, Gemini.getAi.
  rewrite Hact, bool_decide_eq_true_2, Ha by done.
  by rewrite (proj2 (reusable_Some apiKey model systemInstruction g c)).
Qed.

(** A lookup made with a model that differs from the stored one and with
    a history that is not empty: the new [Chat] starts from that
    history. *)
Lemma changed_model_keeps_passed_history :
  let g1 := fst (Gemini.getOrCreate (lit "g-key") [] (lit "model-a") None Gemini.initial) in
  Gemini.chatModelUsed g1 = Some (lit "model-a")
  ∧ ∃ g2 c,
      Gemini.getOrCreate (lit "g-key")
        [Gemini.userContent (lit "q"); Gemini.modelContent (lit "a")]
        (lit "model-b") None g1 = (g2, Ok c)
      ∧ Gemini.chatModel c = lit "model-b"
      ∧ Gemini.chatHistory c = [Gemini.userContent (lit "q"); Gemini.modelContent (lit "a")]
      ∧ Gemini.chatHistory c ≠ [].
Proof.
  split; [reflexivity|].
  eexists _, _. split; [vm_compute; reflexivity|].
  split_and!; [reflexivity | reflexivity | discriminate].
Qed.

(** C3, amended.  A lookup made with the configuration of the lookup
    before it returns the same [Chat], with the history that [Chat] has,
    whatever history the caller passes; this also holds when a turn was
    sent in between, unless that turn was rejected for an invalid key.
    A lookup made while a [Chat] is held under a configuration that
    differs in the key, the system instruction or the model replaces it
    by a new [Chat], which starts from the history that the caller passes.
    In the state that [handleSelectedGeminiModelChange] leaves that
    history is empty: a message sent in that state, with a key, goes to a
    new [Chat] of the new model with an empty history. *)
Theorem getOrCreate_reuse_or_fresh :
  (∀ k h h' m si g g1 c,
     Gemini.getOrCreate k h m si g = (g1, Ok c) →
     Gemini.getOrCreate k h' m si g1 = (g1, Ok c))
  ∧ (∀ k um h h' m si resp g g1 c,
       Gemini.getOrCreate k h m si g = (g1, Ok c) →
       let g2 := fst (fst (Gemini.startOrContinueChatWithGemini k um h m si resp g)) in
       match resp with
       | Gemini.Responded t _ =>
           Gemini.getOrCreate k h' m si g2 = (g2, Ok (Gemini.answered c um t))
       | Gemini.Rejected msg =>
           Gemini.isApiKeyNotValid msg = false →
           Gemini.getOrCreate k h' m si g2 = (g2, Ok c)
       end)
  ∧ (∀ k h m si g c0,
       Gemini.wellFormed g →
       k ≠ [] →
       Gemini.geminiChatInstance g = Some c0 →
       Gemini.chatApiKey g ≠ Some k
       ∨ Gemini.chatSystemInstruction g ≠ Some si
       ∨ Gemini.chatModelUsed g ≠ Some m →
       ∃ g1 c,
         Gemini.getOrCreate k h m si g = (g1, Ok c)
         ∧ Gemini.chatId c ≠ Gemini.chatId c0
         ∧ Gemini.geminiChatInstance g1 = Some c
         ∧ Gemini.chatHistory c = h
         ∧ Gemini.chatModel c = m
         ∧ Gemini.aiKey (Gemini.chatClient c) = k
         ∧ Gemini.chatApiKey g1 = Some k
         ∧ Gemini.chatSystemInstruction g1 = Some si
         ∧ Gemini.chatModelUsed g1 = Some m)
  ∧ (∀ providerName st g model messageText now later resp comp,
       gemini (apiKeys st) ≠ [] →
       model ≠ [] →
       let st1 := run st (fst (handleSelectedGeminiModelChange model g)) in
       let g1 := snd (handleSelectedGeminiModelChange model g) in
       selectedGeminiModel st1 = model
       ∧ ∃ c,
           remoteCalls (fst (handleSendMessage providerName st1 messageText GEMINI model
                               now later resp comp g1))
           = [Call (ToGemini (Gemini.SendMessage c messageText))]
           ∧ Gemini.chatHistory c = []
           ∧ Gemini.chatModel c = model
           ∧ (Gemini.allocated g <= Gemini.chatId c)%nat).
Proof.
  split_and!.
  - intros k h h' m si g g1 c. apply getOrCreate_again.
  - intros k um h h' m si resp g g1 c Hlook.
    pose proof (getOrCreate_stored _ _ _ _ _ _ _ Hlook) as (Hc & Hk & Hs & Hm & Hact & Ha).
    unfold Gemini.startOrContinueChatWithGemini. rewrite Hlook.
    destruct resp as [t ch|msg]; cbv zeta; simpl.
    + by apply lookup_hit.
    + intros ->. by apply lookup_hit.
  - intros k h m si g c0 Hwf Hk Hc0 Hdiff.
    destruct (getAi_nonempty k g Hk) as (g0 & a & Ha).
    pose proof (getAi_Ok _ _ _ _ Ha) as (_ & _ & Hi & Hck & Hcs & Hcm & Hle & Hwf0).
    destruct (Hwf0 Hwf) as [_ Hkey].
    assert (Gemini.reusable k m si g0 = None) as Hr.
    { unfold Gemini.reusable. rewrite Hck, Hcs, Hcm.
      rewrite bool_decide_eq_false_2; [done|]. tauto. }
    eexists _, _. split.
    { unfold Gemini.getOrCreate. rewrite Ha, Hr. reflexivity. }
    simpl. split_and!; try done.
    destruct Hwf as [Hc _]. specialize (Hc c0 Hc0). lia.
  - intros providerName st g model messageText now later resp comp Hk Hm. cbv zeta.
    split; [reflexivity|].
    unfold handleSendMessage, handleSelectedGeminiModelChange.
    cbv beta iota zeta delta [fst snd]. simpl run.
    rewrite (proj2 (isEmpty_false _) Hm).
    change (gemini (apiKeys (_ (_ st)))) with (gemini (apiKeys st)).
    rewrite (proj2 (isEmpty_false _) Hk).
    cbv beta iota zeta delta [orb].
    unfold Gemini.startOrContinueChatWithGemini.
    destruct (getAi_nonempty (gemini (apiKeys st)) (Gemini.resetGeminiChat g) Hk)
      as (g0 & a & Ha).
    pose proof (getAi_Ok _ _ _ _ Ha) as (_ & _ & Hi & _ & _ & _ & Hle & _).
    unfold Gemini.getOrCreate. rewrite Ha.
    rewrite reusable_None by (by rewrite Hi).
    exists (Gemini.chatsCreate a model [] (Some chatSystemInstruction) (Gemini.allocated g0)).
    split_and!; [|reflexivity|reflexivity|simpl in *; lia].
    destruct resp as [t ch|msg]; reflexivity.
Qed.

Lemma getOrCreate_reuse_or_fresh_witness :
  (let g1 := fst (Gemini.getOrCreate (lit "g-key") [] (lit "model-a") None Gemini.initial) in
   Gemini.getOrCreate (lit "g-key") [Gemini.userContent (lit "ignored")] (lit "model-a")
     None g1
   = (g1, Ok (Gemini.chatsCreate {| Gemini.aiId := 0; Gemini.aiKey := lit "g-key" |}
                (lit "model-a") [] None 1)))
  ∧ selectedGeminiModel
      (run Sample.ready
         (fst (handleSelectedGeminiModelChange (lit "model-b") Gemini.initial)))
    = lit "model-b".
Proof.
  split.
  - cbv zeta.
    apply (proj1 getOrCreate_reuse_or_fresh (lit "g-key") [] _ (lit "model-a") None
             Gemini.initial).
    reflexivity.
  - apply (proj2 (proj2 (proj2 getOrCreate_reuse_or_fresh)) Sample.providerName
             Sample.ready Gemini.initial (lit "model-b") (lit "hello") 1 2
             (Gemini.Responded (lit "hi") None) (OpenRouter.Choices []));
      discriminate.
Defined.

Example model_change_then_message :
  remoteCalls
    (fst (handleSendMessage Sample.providerName
            (run (setGeminiChatHistory [Gemini.userContent (lit "q")] Sample.ready)
               (fst (handleSelectedGeminiModelChange (lit "model-b") Gemini.initial)))
            (lit "hello") GEMINI (lit "model-b") 1 2
            (Gemini.Responded (lit "hi") None) (OpenRouter.Choices [])
            (snd (handleSelectedGeminiModelChange (lit "model-b") Gemini.initial))))
  = [Call (ToGemini
             (Gemini.SendMessage
                (Gemini.chatsCreate {| Gemini.aiId := 0; Gemini.aiKey := lit "g-key" |}
                   (lit "model-b") [] (Some chatSystemInstruction) 1)
                (lit "hello")))].
Proof. vm_compute. reflexivity. Qed.

(* ================================================================= *)
(** * Further properties *)

Import Rest.

(** ** The selection *)

Lemma setAddAll_fresh seen arr :
  NoDup arr → (∀ x, x ∈ arr → x ∉ seen) → setAddAll seen arr = seen ++ arr.
Proof.
  revert seen.
  induction arr as [|a r IH]; intros seen Hnd Hfresh; simpl; [by rewrite app_nil_r|].
  apply NoDup_cons in Hnd as [Ha Hr].
  rewrite bool_decide_eq_false_2 by (apply Hfresh; left).
  rewrite IH, <- app_assoc; [done|done|].
  intros x Hx Hin. apply elem_of_app in Hin as [Hin|Hin].
  - by apply (Hfresh x); [right|].
  - apply list_elem_of_singleton in Hin. by subst.
Qed.

Lemma newSet_of_NoDup arr : NoDup arr → newSet arr = arr.
Proof.
  intros H. unfold newSet. rewrite setAddAll_fresh; [done|done|].
  intros x _. apply not_elem_of_nil.
Qed.

Lemma setAddAll_absorbed seen arr :
  (∀ x, x ∈ arr → x ∈ seen) → setAddAll seen arr = seen.
Proof.
  induction arr as [|a r IH]; intros H; simpl; [done|].
  rewrite bool_decide_eq_true_2 by (apply H; left).
  apply IH. intros x Hx. apply H. by right.
Qed.

Lemma elem_of_setDelete x y (s : list jsstring) :
  y ∈ setDelete x s ↔ y ∈ s ∧ y ≠ x.
Proof.
  unfold setDelete. rewrite !list_elem_of_In, filter_In, negb_true_iff.
  by rewrite bool_decide_eq_false.
Qed.

Lemma setDelete_NoDup x (s : list jsstring) : NoDup s → NoDup (setDelete x s).
Proof. rewrite !NoDup_ListNoDup. apply List.NoDup_filter. Qed.

Lemma setDelete_absent x (s : list jsstring) : x ∉ s → setDelete x s = s.
Proof.
  intros H. unfold setDelete.
  induction s as [|y r IH]; simpl; [done|].
  apply not_elem_of_cons in H as [Hne Hr].
  rewrite bool_decide_eq_false_2 by done. simpl. by rewrite IH.
Qed.

Lemma setDelete_last x (s : list jsstring) : x ∉ s → setDelete x (s ++ [x]) = s.
Proof.
  intros H. unfold setDelete. rewrite List.filter_app. simpl.
  rewrite bool_decide_eq_true_2 by done. simpl. rewrite app_nil_r.
  by apply setDelete_absent.
Qed.

(** X1.  [toggleSelectPaper] flips the membership of the paper id in the
    selection, keeps the membership of every other id, and leaves an
    array without duplicates, whatever the array held before. *)
Theorem toggle_flips_membership (paperId : jsstring) (prevArray : list jsstring) :
  (paperId ∈ toggled paperId prevArray ↔ paperId ∉ prevArray)
  ∧ (∀ x, x ≠ paperId → (x ∈ toggled paperId prevArray ↔ x ∈ prevArray))
  ∧ NoDup (toggled paperId prevArray).
Proof.
  unfold toggled, setAdd. cbv zeta.
  pose proof (newSet_NoDup prevArray) as Hnd.
  case_bool_decide as Hin.
  - split_and!.
    + rewrite elem_of_setDelete. rewrite newSet_elem in Hin. tauto.
    + intros x Hx. rewrite elem_of_setDelete, newSet_elem. tauto.
    + by apply setDelete_NoDup.
  - split_and!.
    + rewrite elem_of_app, list_elem_of_singleton, newSet_elem.
      rewrite newSet_elem in Hin. tauto.
    + intros x Hx. rewrite elem_of_app, list_elem_of_singleton, newSet_elem. tauto.
    + apply NoDup_app. split_and!; [done| |apply NoDup_singleton].
      intros y Hy Hy'. apply list_elem_of_singleton in Hy'. by subst.
Qed.

Lemma toggle_flips_membership_witness :
  lit "P1" ∈ toggled (lit "P1") [lit "P2"]
  ∧ lit "P2" ∈ toggled (lit "P1") [lit "P2"].
Proof.
  split.
  - apply (proj1 (toggle_flips_membership (lit "P1") [lit "P2"])).
    intros H. apply list_elem_of_singleton in H. discriminate H.
  - apply (proj1 (proj2 (toggle_flips_membership (lit "P1") [lit "P2"]))).
    + discriminate.
    + by apply list_elem_of_singleton.
Defined.

(** X2.  Toggling the same id twice gives back the membership of the
    selection; when the array had no duplicates and did not hold the id it
    gives back the array itself, and when it held the id, the id moves to
    the end. *)
Theorem toggle_twice (paperId : jsstring) (prevArray : list jsstring) :
  (∀ x, x ∈ toggled paperId (toggled paperId prevArray) ↔ x ∈ prevArray)
  ∧ (NoDup prevArray → paperId ∉ prevArray →
     toggled paperId (toggled paperId prevArray) = prevArray)
  ∧ (NoDup prevArray → paperId ∈ prevArray →
     toggled paperId (toggled paperId prevArray)
     = setDelete paperId prevArray ++ [paperId]).
Proof.
  split_and!.
  - intros x.
    destruct (toggle_flips_membership paperId (toggled paperId prevArray)) as (H1 & H2 & _).
    destruct (toggle_flips_membership paperId prevArray) as (H3 & H4 & _).
    destruct (decide (x = paperId)) as [->|Hne].
    + rewrite H1, H3. destruct (decide (paperId ∈ prevArray)); tauto.
    + by rewrite H2, H4.
  - intros Hnd Hout. unfold toggled at 2. cbv zeta.
    rewrite newSet_of_NoDup by done.
    rewrite bool_decide_eq_false_2 by done.
    unfold setAdd. rewrite bool_decide_eq_false_2 by done.
    unfold toggled. cbv zeta.
    assert (NoDup (prevArray ++ [paperId])) as Hnd'.
    { apply NoDup_app. split_and!; [done| |apply NoDup_singleton].
      intros y Hy Hy'. apply list_elem_of_singleton in Hy'. by subst. }
    rewrite newSet_of_NoDup by done.
    rewrite bool_decide_eq_true_2 by (apply elem_of_app; right; by left).
    by apply setDelete_last.
  - intros Hnd Hin. unfold toggled at 2. cbv zeta.
    rewrite newSet_of_NoDup by done.
    rewrite bool_decide_eq_true_2 by done.
    unfold toggled. cbv zeta.
    rewrite newSet_of_NoDup by (by apply setDelete_NoDup).
    assert (paperId ∉ setDelete paperId prevArray) as Hout.
    { rewrite elem_of_setDelete. tauto. }
    rewrite bool_decide_eq_false_2 by done.
    unfold setAdd. by rewrite bool_decide_eq_false_2.
Qed.

Lemma toggle_twice_witness :
  toggled (lit "P1") (toggled (lit "P1") [lit "P2"; lit "P3"]) = [lit "P2"; lit "P3"].
Proof.
  apply (proj1 (proj2 (toggle_twice (lit "P1") [lit "P2"; lit "P3"]))).
  - compute_done.
  - compute_done.
Defined.

Lemma elem_of_paperIds (l : list Paper) k :
  k ∈ List.map paperId l ↔ ∃ p, p ∈ l ∧ paperId p = k.
Proof.
  rewrite list_elem_of_In, in_map_iff.
  split; intros (p & H1 & H2); exists p; [split|split]; try done;
    by apply list_elem_of_In.
Qed.

Lemma setAddAll_prefix seen arr : ∃ added, setAddAll seen arr = seen ++ added.
Proof.
  revert seen.
  induction arr as [|a r IH]; intros seen; simpl.
  - exists []. by rewrite app_nil_r.
  - case_bool_decide; [apply IH|].
    destruct (IH (seen ++ [a])) as [added ->].
    exists (a :: added). by rewrite <- app_assoc.
Qed.

(** X3.  [handleSelectAllOnPage] makes the selection the union of the
    earlier selection and the ids of the page, without duplicates and with
    the earlier selection first, in its order; a second call changes
    nothing more; the cache is not touched. *)
Theorem select_all_on_page (snapshot st : AppState) :
  let st' := run st (handleSelectAllOnPage snapshot) in
  (∀ x, x ∈ selectedPaperIds st' ↔
        x ∈ selectedPaperIds st ∨ ∃ p, p ∈ papers snapshot ∧ paperId p = x)
  ∧ NoDup (selectedPaperIds st')
  ∧ (∃ added, selectedPaperIds st' = newSet (selectedPaperIds st) ++ added)
  ∧ selectedPaperIds (run st' (handleSelectAllOnPage snapshot)) = selectedPaperIds st'
  ∧ cachedPapers st' = cachedPapers st.
Proof.
  cbv zeta. simpl.
  assert (∀ x, x ∈ setAddAll (newSet (selectedPaperIds st))
                     (List.map paperId (papers snapshot)) ↔
               x ∈ selectedPaperIds st ∨ ∃ p, p ∈ papers snapshot ∧ paperId p = x) as Hmem.
  { intros x. rewrite setAddAll_elem, newSet_elem.
    by rewrite elem_of_paperIds. }
  split_and!.
  - exact Hmem.
  - apply setAddAll_NoDup, newSet_NoDup.
  - apply setAddAll_prefix.
  - rewrite newSet_of_NoDup by apply setAddAll_NoDup, newSet_NoDup.
    apply setAddAll_absorbed. intros x Hx. apply Hmem. right.
    by apply elem_of_paperIds.
  - done.
Qed.

(** ** The cache *)

Lemma merged_lookup_other (found : list Paper) (m : gmap jsstring Paper) k :
  k ∉ List.map paperId found →
  fold_left (λ newCache q, <[paperId q := q]> newCache) found m !! k = m !! k.
Proof.
  revert m.
  induction found as [|q r IH]; intros m H; simpl; [done|].
  simpl in H. apply not_elem_of_cons in H as [Hq Hr].
  rewrite IH by done. by apply lookup_insert_ne.
Qed.

Lemma merged_lookup_found (found : list Paper) (m : gmap jsstring Paper) k :
  k ∈ List.map paperId found →
  ∃ p, p ∈ found ∧ paperId p = k
       ∧ fold_left (λ newCache q, <[paperId q := q]> newCache) found m !! k = Some p.
Proof.
  revert m.
  induction found as [|q r IH]; intros m Hk; [by apply elem_of_nil in Hk|].
  simpl.
  destruct (decide (k ∈ List.map paperId r)) as [Hr|Hr].
  - destruct (IH (<[paperId q := q]> m) Hr) as (p' & Hp' & Hk' & Hl).
    exists p'. split_and!; [by right|done|done].
  - simpl in Hk. apply elem_of_cons in Hk as [->|Hk]; [|done].
    exists q. split_and!; [by left|done|].
    rewrite merged_lookup_other by done. apply lookup_insert_eq.
Qed.

Lemma merged_lookup_kept (found : list Paper) (m : gmap jsstring Paper) k :
  is_Some (m !! k) →
  is_Some (fold_left (λ newCache q, <[paperId q := q]> newCache) found m !! k).
Proof.
  intros Hk.
  destruct (decide (k ∈ List.map paperId found)) as [Hf|Hf].
  - destruct (merged_lookup_found found m k Hf) as (p & _ & _ & ->). eauto.
  - by rewrite merged_lookup_other.
Qed.

Lemma resolved_ids (cache : gmap jsstring Paper) (ids : list jsstring) :
  (∀ k, k ∈ ids → ∃ p, cache !! k = Some p ∧ paperId p = k) →
  List.map paperId (omap (λ k, cache !! k) ids) = ids.
Proof.
  induction ids as [|k r IH]; intros H; [done|].
  destruct (H k) as (p & Hp & Hk); [by left|].
  simpl. rewrite Hp. simpl. f_equal; [done|].
  apply IH. intros k' Hk'. apply H. by right.
Qed.

(** X4.  [handleSelectAllAcrossPages] without a topic or without a
    Semantic Scholar key fetches nothing and only sets the search error.
    Otherwise it calls [fetchAllPapersForTopic] once, with the topic, the
    key and the limit.  When that succeeds the selection becomes the ids
    of the papers found, each of which then resolves in the cache to a
    found paper of that id, while no earlier cache entry is lost.  When at
    least one paper is found the candidates of the context are then one
    paper per distinct id found; when none is found the selection is
    empty, the cache is what it was, and the candidates are the cached
    papers of the page shown.  When the fetch fails, selection and cache
    stay as they were and the error is set.  In both cases the loading
    flag is off at the end. *)
Theorem select_all_across_pages (LIMIT : Z) (snapshot st : AppState)
    (outcome : FetchAllOutcome) :
  let acts := handleSelectAllAcrossPages LIMIT snapshot outcome in
  let st' := run st (effectsOf acts) in
  (researchTopic snapshot = [] ∨ semanticScholar (apiKeys snapshot) = [] →
   fetchAllCalls acts = []
   ∧ st' = setSearchError
             (Some (lit "Cannot select all papers without a topic and Semantic Scholar API key."))
             st)
  ∧ (researchTopic snapshot ≠ [] → semanticScholar (apiKeys snapshot) ≠ [] →
     fetchAllCalls acts
     = [FetchAll (researchTopic snapshot) (semanticScholar (apiKeys snapshot)) LIMIT]
     ∧ selectingAllPapersLoading st' = false
     ∧ match outcome with
       | AllFound found =>
           selectedPaperIds st' = List.map paperId found
           ∧ searchError st' = None
           ∧ (∀ k, k ∈ selectedPaperIds st' →
                   ∃ p, p ∈ found ∧ paperId p = k ∧ cachedPapers st' !! k = Some p)
           ∧ (∀ k, is_Some (cachedPapers st !! k) → is_Some (cachedPapers st' !! k))
           ∧ (found ≠ [] →
              List.map paperId (papersToConsider st') = newSet (List.map paperId found))
           ∧ (found = [] →
              selectedPaperIds st' = []
              ∧ cachedPapers st' = cachedPapers st
              ∧ papersToConsider st'
                = omap (λ p, cachedPapers st !! paperId p) (papers st))
       | FetchAllFailed msg =>
           selectedPaperIds st' = selectedPaperIds st
           ∧ cachedPapers st' = cachedPapers st
           ∧ searchError st' = Some (orElse msg (lit "Failed to fetch all papers."))
       end).
Proof.
  cbv zeta. unfold handleSelectAllAcrossPages. split.
  - intros Hmiss.
    assert (isEmpty (researchTopic snapshot)
            || isEmpty (semanticScholar (apiKeys snapshot)) = true) as ->.
    { destruct Hmiss as [-> | ->]; [done|]. apply orb_true_r. }
    done.
  - intros Ht Hk.
    rewrite (proj2 (isEmpty_false _) Ht), (proj2 (isEmpty_false _) Hk).
    destruct outcome as [found|msg]; simpl; [|done].
    split_and!; try done.
    + intros k Hin. by apply merged_lookup_found.
    + intros k. apply merged_lookup_kept.
    + intros Hne. unfold papersToConsider. simpl.
      rewrite newSet_size, bool_decide_eq_false_2 by (by destruct found).
      simpl. apply resolved_ids. intros k Hin. apply (proj1 (newSet_elem _ _)) in Hin.
      destruct (merged_lookup_found found (cachedPapers st) k Hin) as (p & _ & ? & ?).
      eauto.
    + by intros ->.
Qed.

Lemma select_all_across_pages_witness :
  selectedPaperIds
    (run Sample.ready
       (effectsOf (handleSelectAllAcrossPages 100 Sample.ready
                     (AllFound [Sample.P2; Sample.P1]))))
  = [lit "P2"; lit "P1"].
Proof.
  pose proof (proj2 (select_all_across_pages 100 Sample.ready Sample.ready
                       (AllFound [Sample.P2; Sample.P1]))
                ltac:(discriminate) ltac:(discriminate)) as (_ & _ & H & _).
  exact H.
Defined.

Lemma same_id_same_paper (l : list Paper) p q :
  NoDup (List.map paperId l) → p ∈ l → q ∈ l → paperId p = paperId q → p = q.
Proof.
  induction l as [|x r IH]; intros Hnd Hp Hq Heq; [by apply elem_of_nil in Hp|].
  simpl in Hnd. apply NoDup_cons in Hnd as [Hx Hr].
  apply elem_of_cons in Hp as [->|Hp], Hq as [->|Hq]; try done.
  - exfalso. apply Hx. rewrite Heq. apply elem_of_paperIds. eauto.
  - exfalso. apply Hx. rewrite <- Heq. apply elem_of_paperIds. eauto.
  - by apply IH.
Qed.

Lemma omap_all {A} (f : A → option A) (l : list A) :
  (∀ x, x ∈ l → f x = Some x) → omap f l = l.
Proof.
  induction l as [|x r IH]; intros H; [done|].
  simpl. rewrite (H x) by (by left). f_equal. apply IH.
  intros y Hy. apply H. by right.
Qed.

Lemma fetch_frame_lemma PAGE snapshot st topic page outcome :
  selectedPaperIds (run st (fetchPapersForPage PAGE snapshot topic page outcome))
  = selectedPaperIds st
  ∧ researchTopic (run st (fetchPapersForPage PAGE snapshot topic page outcome))
    = researchTopic st
  ∧ ∀ k, is_Some (cachedPapers st !! k) →
         is_Some (cachedPapers
                    (run st (fetchPapersForPage PAGE snapshot topic page outcome)) !! k).
Proof.
  unfold fetchPapersForPage.
  destruct (isEmpty (semanticScholar (apiKeys snapshot))); [done|].
  destruct outcome as [found total|msg]; simpl; split_and!; try done.
  intros k. apply merged_lookup_kept.
Qed.

(** X5.  [fetchPapersForPage], whatever comes of it, leaves the
    selection, the topic and both generated sections as they were and
    never removes an entry from the cache.  Without a Semantic Scholar key
    it issues no request; with one it issues exactly one search, for the
    topic with that key, the page size as limit and the offset of the
    page, and it ends with the loading flag off. *)
Theorem fetch_frame (PAGE : Z) (snapshot st : AppState) (topic : jsstring) (page : Z)
    (outcome : SearchOutcome) :
  let es := fetchPapersForPage PAGE snapshot topic page outcome in
  let st' := run st es in
  selectedPaperIds st' = selectedPaperIds st
  ∧ researchTopic st' = researchTopic st
  ∧ slot introduction st' = slot introduction st
  ∧ slot relatedWorks st' = slot relatedWorks st
  ∧ (∀ k, is_Some (cachedPapers st !! k) → is_Some (cachedPapers st' !! k))
  ∧ remoteCalls es
    = (if isEmpty (semanticScholar (apiKeys snapshot)) then []
       else [Call (SearchPapers topic (semanticScholar (apiKeys snapshot)) PAGE
                     ((page - 1) * PAGE))])
  ∧ (semanticScholar (apiKeys snapshot) ≠ [] → searchLoading st' = false).
Proof.
  cbv zeta. unfold fetchPapersForPage.
  destruct (isEmpty (semanticScholar (apiKeys snapshot))) eqn:Ek.
  - apply isEmpty_true in Ek. by split_and!.
  - destruct outcome as [found total|msg]; simpl; split_and!; try done.
    intros k. apply merged_lookup_kept.
Qed.

(** X6.  After a fetch that succeeds the page shown is the response, the
    current page is the one asked for, and the cache is the earlier cache
    overwritten by the response: an id of the response resolves to a
    paper of the response with that id, any other id resolves as before.
    When nothing is selected and the ids of the response are distinct, the
    candidates of the context are exactly the papers of the response, in
    their order. *)
Theorem fetch_success (PAGE : Z) (snapshot st : AppState) (topic : jsstring) (page : Z)
    (found : list Paper) (total : Z) :
  semanticScholar (apiKeys snapshot) ≠ [] →
  let st' := run st (fetchPapersForPage PAGE snapshot topic page (Found found total)) in
  papers st' = found
  ∧ totalPapers st' = total
  ∧ currentPage st' = page
  ∧ searchError st' = None
  ∧ (∀ k, k ∈ List.map paperId found →
          ∃ p, p ∈ found ∧ paperId p = k ∧ cachedPapers st' !! k = Some p)
  ∧ (∀ k, k ∉ List.map paperId found → cachedPapers st' !! k = cachedPapers st !! k)
  ∧ (selectedPaperIds st = [] → NoDup (List.map paperId found) →
     papersToConsider st' = found).
Proof.
  intros Hk. cbv zeta. unfold fetchPapersForPage.
  rewrite (proj2 (isEmpty_false _) Hk). simpl.
  split_and!; try done.
  - intros k Hin. by apply merged_lookup_found.
  - intros k Hout. by apply merged_lookup_other.
  - intros Hsel Hnd. unfold papersToConsider. simpl. rewrite Hsel. simpl.
    apply omap_all. intros p Hp.
    destruct (merged_lookup_found found (cachedPapers st) (paperId p))
      as (q & Hq & Hid & ->); [apply elem_of_paperIds; eauto|].
    f_equal. by apply (same_id_same_paper found).
Qed.

Lemma fetch_success_witness :
  papersToConsider
    (run Sample.ready
       (fetchPapersForPage 10 Sample.ready (lit "graphs") 2
          (Found [Sample.P2; Sample.P1] 12)))
  = [Sample.P2; Sample.P1].
Proof.
  apply (fetch_success 10 Sample.ready Sample.ready (lit "graphs") 2
           [Sample.P2; Sample.P1] 12); [discriminate | reflexivity | compute_done].
Defined.

(** X7.  After a fetch that does not succeed, for want of a key or
    because the search fails, the page shown is empty, the total is 0,
    the search error holds a message, and the cache and the current page
    are what they were.  With nothing selected no context can then be
    assembled, so that a generation for a topic stops at the alert about
    the missing context. *)
Theorem fetch_not_successful (PAGE MAX : Z) (providerName : ApiProvider → jsstring)
    (snapshot st : AppState) (topic : jsstring) (page : Z) (outcome : SearchOutcome) :
  semanticScholar (apiKeys snapshot) = [] ∨ (∃ msg, outcome = SearchFailed msg) →
  let st' := run st (fetchPapersForPage PAGE snapshot topic page outcome) in
  papers st' = []
  ∧ totalPapers st' = 0
  ∧ cachedPapers st' = cachedPapers st
  ∧ currentPage st' = currentPage st
  ∧ (∃ c r, searchError st' = Some (c :: r))
  ∧ (selectedPaperIds st = [] →
     getContextFromSelectedPapers MAX st' = []
     ∧ (researchTopic st ≠ [] →
        ∀ sectionType geminiResponse openRouterCompletion g,
          handleGenerateSection MAX providerName st' sectionType geminiResponse
            openRouterCompletion g
          = ([Alert noContextMessage], g))).
Proof.
  intros Hfail. cbv zeta.
  assert (∃ e,
            run st (fetchPapersForPage PAGE snapshot topic page outcome)
            = setSearchLoading (searchLoading
                   (run st (fetchPapersForPage PAGE snapshot topic page outcome)))
                (setTotalPapers 0 (setPapers [] (setSearchError (Some e) st)))
            ∧ e ≠ []) as (e & Hrun & He).
  { unfold fetchPapersForPage.
    destruct (isEmpty (semanticScholar (apiKeys snapshot))) eqn:Ek.
    - eexists. split; [reflexivity|discriminate].
    - destruct Hfail as [Hk|[msg ->]]; [by rewrite Hk in Ek|].
      eexists. split; [reflexivity|]. by destruct msg as [[|]|]. }
  rewrite Hrun. simpl.
  assert (selectedPaperIds st = [] →
          getContextFromSelectedPapers MAX
            (setSearchLoading (searchLoading
                 (run st (fetchPapersForPage PAGE snapshot topic page outcome)))
               (setTotalPapers 0 (setPapers [] (setSearchError (Some e) st)))) = [])
    as Hctx.
  { intros Hsel. apply sort_nil_context. unfold papersToConsider. simpl.
    by rewrite Hsel. }
  split_and!; try done.
  - destruct e as [|c r]; [done|]. eauto.
  - intros Hsel. split; [by apply Hctx|].
    intros Ht sectionType geminiResponse openRouterCompletion g.
    unfold handleGenerateSection. simpl researchTopic.
    by rewrite (proj2 (isEmpty_false _) Ht), (Hctx Hsel).
Qed.

Lemma fetch_not_successful_witness :
  papers (run Sample.ready
            (fetchPapersForPage 10 Sample.ready (lit "graphs") 2 (SearchFailed None)))
  = [].
Proof.
  apply (fetch_not_successful 10 1000 Sample.providerName Sample.ready Sample.ready
           (lit "graphs") 2 (SearchFailed None)).
  right. by exists None.
Defined.

Lemma omap_length_mono {A B} (f f' : A → option B) (l : list A) :
  (∀ x, is_Some (f x) → is_Some (f' x)) →
  (length (omap f l) <= length (omap f' l))%nat.
Proof.
  intros H. induction l as [|x r IH]; [done|].
  change (omap f (x :: r)) with (match f x with Some y => y :: omap f r | None => omap f r end).
  change (omap f' (x :: r))
    with (match f' x with Some y => y :: omap f' r | None => omap f' r end).
  destruct (f x) as [y|] eqn:E.
  - destruct (H x) as [y' ->]; [by rewrite E|]. simpl. lia.
  - destruct (f' x); simpl; lia.
Qed.

Lemma page_change_frame PAGE st newPage outcome :
  let st' := run st (handlePageChange PAGE st newPage outcome) in
  selectedPaperIds st' = selectedPaperIds st
  ∧ researchTopic st' = researchTopic st
  ∧ ∀ k, is_Some (cachedPapers st !! k) → is_Some (cachedPapers st' !! k).
Proof.
  cbv zeta. unfold handlePageChange.
  destruct (truthy (researchTopic st)); [|done].
  pose proof (fetch_frame_lemma PAGE st st (researchTopic st) newPage outcome) as H.
  tauto.
Qed.

(** X8.  Moving through the pages, in any order and whatever the fetches
    return, never changes the selection or the topic and never makes a
    cached id unresolvable: with a selection that is not empty the context
    has at least as many candidates after the visits as before.  Without a
    topic a page change does nothing at all. *)
Theorem browsing_keeps_selection (PAGE : Z) (st : AppState)
    (visits : list (Z * SearchOutcome)) :
  let st' := browse PAGE st visits in
  selectedPaperIds st' = selectedPaperIds st
  ∧ researchTopic st' = researchTopic st
  ∧ (∀ k, is_Some (cachedPapers st !! k) → is_Some (cachedPapers st' !! k))
  ∧ (selectedPaperIds st ≠ [] →
     (length (papersToConsider st) <= length (papersToConsider st'))%nat)
  ∧ (researchTopic st = [] → st' = st).
Proof.
  cbv zeta.
  assert (selectedPaperIds (browse PAGE st visits) = selectedPaperIds st
          ∧ researchTopic (browse PAGE st visits) = researchTopic st
          ∧ ∀ k, is_Some (cachedPapers st !! k) →
                 is_Some (cachedPapers (browse PAGE st visits) !! k)) as (Hs & Ht & Hc).
  { revert st. unfold browse.
    induction visits as [|[newPage outcome] r IH]; intros st; simpl; [done|].
    destruct (page_change_frame PAGE st newPage outcome) as (Hs & Ht & Hc).
    destruct (IH (run st (handlePageChange PAGE st newPage outcome))) as (Hs' & Ht' & Hc').
    split_and!; [congruence|congruence|auto]. }
  split_and!; try done.
  - intros Hne. rewrite (papersToConsider_selected st) by done.
    rewrite (papersToConsider_selected (browse PAGE st visits)) by (by rewrite Hs).
    rewrite Hs. by apply omap_length_mono.
  - clear Hs Ht Hc. intros Hno. unfold browse.
    induction visits as [|[newPage outcome] r IH]; simpl; [done|].
    unfold handlePageChange. rewrite Hno. exact IH.
Qed.

Lemma browsing_keeps_selection_witness :
  (length (papersToConsider Sample.selected)
   <= length (papersToConsider
                (browse 10 Sample.selected
                   [(2%Z, Found [Sample.P3] 3); (3%Z, SearchFailed None)])))%nat.
Proof.
  apply (browsing_keeps_selection 10 Sample.selected
           [(2%Z, Found [Sample.P3] 3); (3%Z, SearchFailed None)]).
  discriminate.
Defined.

(** ** More on the context *)

Lemma blocks_imap k ps :
  blocks k ps = imap (λ i p, paperInfo (k + Z.of_nat i) p) ps.
Proof.
  revert k. induction ps as [|p r IH]; intros k; [done|].
  simpl. rewrite Z.add_0_r. f_equal. rewrite IH.
  apply imap_ext. intros i x _. simpl. f_equal. lia.
Qed.

(** X9.  The blocks of the context carry the numbers 1, 2, 3, ... in
    order, without a gap: the block of the paper at position [i] of the
    included papers (from 0) is its block with the number [i + 1], which
    starts with that number between square brackets, followed by the
    title. *)
Theorem blocks_numbered_from_one (MAX : Z) (st : AppState) :
  getContextFromSelectedPapers MAX st
  = trim (concat (imap (λ i p, paperInfo (1 + Z.of_nat i) p) (includedPapers MAX st)))
  ∧ ∀ i p, includedPapers MAX st !! i = Some p →
      ∃ rest,
        imap (λ i p, paperInfo (1 + Z.of_nat i) p) (includedPapers MAX st) !! i
        = Some (lit "[" ++ numberToString (1 + Z.of_nat i) ++ lit "] Title: "
                ++ title p ++ rest).
Proof.
  split.
  - by rewrite context_is_blocks, blocks_imap.
  - intros i p Hp. rewrite list_lookup_imap, Hp. simpl.
    eexists. unfold paperInfo. reflexivity.
Qed.

Lemma blocks_numbered_from_one_witness :
  ∃ rest,
    imap (λ i p, paperInfo (1 + Z.of_nat i) p) (includedPapers 1000 Sample.selected)
      !! 1%nat
    = Some (lit "[" ++ numberToString (1 + Z.of_nat 1) ++ lit "] Title: "
            ++ title Sample.P1 ++ rest).
Proof.
  apply (proj2 (blocks_numbered_from_one 1000 Sample.selected) 1%nat Sample.P1).
  reflexivity.
Defined.

Lemma splitLength_pos s : 1 <= splitLength s.
Proof. unfold splitLength. pose proof (split_length_pos s). lia. Qed.

Lemma total_splitLength_nonneg bs : 0 <= total splitLength bs.
Proof.
  unfold total. induction bs as [|b r IH]; simpl; [lia|].
  pose proof (splitLength_pos b). lia.
Qed.

Lemma appended_all MAX ps wordCount k :
  wordCount + total splitLength (blocks k ps) <= MAX → appended MAX ps wordCount k = ps.
Proof.
  revert wordCount k.
  induction ps as [|p r IH]; intros wordCount k H; [done|].
  simpl. change (total splitLength (blocks k (p :: r)))
    with (splitLength (paperInfo k p) + total splitLength (blocks (k + 1) r)) in H.
  pose proof (total_splitLength_nonneg (blocks (k + 1) r)).
  destruct (Z.leb_spec (wordCount + splitLength (paperInfo k p)) MAX); [|lia].
  f_equal. apply IH. lia.
Qed.

(** X10.  When the counts of the blocks of all candidates fit in the
    budget together, every candidate is in the context: the included
    papers are the sorted candidates, a rearrangement of the candidates in
    which none is lost and none is repeated. *)
Theorem budget_for_all (MAX : Z) (st : AppState) :
  total splitLength (blocks 1 (sort compareFn (papersToConsider st))) <= MAX →
  includedPapers MAX st = sort compareFn (papersToConsider st)
  ∧ includedPapers MAX st ≡ₚ papersToConsider st
  ∧ length (includedPapers MAX st) = length (papersToConsider st).
Proof.
  intros H.
  assert (includedPapers MAX st = sort compareFn (papersToConsider st)) as Heq.
  { unfold includedPapers. apply appended_all. lia. }
  rewrite Heq. split_and!; [done|apply sort_Permutation|].
  by rewrite (sort_Permutation compareFn (papersToConsider st)).
Qed.

Lemma budget_for_all_witness :
  includedPapers 1000 Sample.selected = sort compareFn (papersToConsider Sample.selected).
Proof.
  apply (budget_for_all 1000 Sample.selected). vm_compute. discriminate.
Defined.

Lemma appended_monotone MAX MAX' ps wordCount k :
  MAX <= MAX' →
  ∃ more, appended MAX' ps wordCount k = appended MAX ps wordCount k ++ more.
Proof.
  intros Hle. revert wordCount k.
  induction ps as [|p r IH]; intros wordCount k; simpl; [by exists []|].
  destruct (Z.leb_spec (wordCount + splitLength (paperInfo k p)) MAX).
  - destruct (Z.leb_spec (wordCount + splitLength (paperInfo k p)) MAX'); [|lia].
    destruct (IH (wordCount + splitLength (paperInfo k p)) (k + 1)) as [more ->].
    by exists more.
  - eexists. reflexivity.
Qed.

(** X11.  A larger budget never drops a paper: the papers included under
    a budget are the first of the papers included under any larger
    budget, so they also keep their numbers. *)
Theorem larger_budget_extends (MAX MAX' : Z) (st : AppState) :
  MAX <= MAX' →
  ∃ more, includedPapers MAX' st = includedPapers MAX st ++ more.
Proof. intros H. by apply appended_monotone. Qed.

Lemma larger_budget_extends_witness :
  ∃ more, includedPapers 1000 Sample.selected = includedPapers 20 Sample.selected ++ more.
Proof. apply (larger_budget_extends 20 1000 Sample.selected). lia. Defined.

Lemma insertSorted_filter (tied : Paper → bool) x l :
  (tied x = true → ∀ y, tied y = true → compareFn x y <= 0) →
  List.filter tied (insertSorted compareFn x l) = List.filter tied (x :: l).
Proof.
  intros Hx. induction l as [|y r IH]; [done|].
  simpl insertSorted. destruct (Z.leb_spec (compareFn x y) 0) as [Hle|Hgt]; [done|].
  simpl. simpl in IH. rewrite IH.
  destruct (tied x) eqn:Ex; [|done].
  destruct (tied y) eqn:Ey; [|done].
  specialize (Hx eq_refl y Ey). lia.
Qed.

(** X12.  The sort of the candidates is stable: the papers that have a
    given citation count and a given year (missing values as 0) come out
    in the order in which they went in, that is in the order of selection
    or of the page. *)
Theorem sort_keeps_ties_in_order (candidates : list Paper) (citations yr : Z) :
  let tied p :=
    (default 0 (citationCount p) =? citations) && (default 0 (year p) =? yr) in
  List.filter tied (sort compareFn candidates) = List.filter tied candidates.
Proof.
  cbv zeta. induction candidates as [|x r IH]; [done|].
  change (sort compareFn (x :: r)) with (insertSorted compareFn x (sort compareFn r)).
  rewrite insertSorted_filter.
  - simpl. by rewrite IH.
  - intros Hx y Hy.
    apply andb_true_iff in Hx as [Hc Hyr], Hy as [Hc' Hyr'].
    apply Z.eqb_eq in Hc, Hyr, Hc', Hyr'.
    apply (proj2 (compareFn_inOrder x y)). lia.
Qed.

Lemma trimStart_app_last l c :
  isWhiteSpace c = false → trimStart (l ++ [c]) ≠ [].
Proof.
  intros Hc. induction l as [|x r IH]; simpl.
  - by rewrite Hc.
  - by destruct (isWhiteSpace x).
Qed.

Lemma trim_nonempty c r : isWhiteSpace c = false → trim (c :: r) ≠ [].
Proof.
  intros Hc. unfold trim, trimEnd. simpl trimStart at 2. rewrite Hc.
  simpl rev at 2. intros H.
  apply (f_equal (@rev _)) in H. rewrite rev_involutive in H. simpl in H.
  by apply (trimStart_app_last (rev r) c Hc).
Qed.

(** X13.  The context is the empty string exactly when no paper is
    included, which happens exactly when there is no candidate or the
    count that the loop takes of the block of the first sorted candidate
    ([split(/\s+/).length], one more than the number of words of the
    block) is alone over the budget.  So the alert about the missing
    context is what [handleGenerateSection] answers, for a topic, in these
    cases and in no other. *)
Theorem context_empty_iff (MAX : Z) (providerName : ApiProvider → jsstring)
    (st : AppState) :
  (getContextFromSelectedPapers MAX st = [] ↔ includedPapers MAX st = [])
  ∧ (includedPapers MAX st = [] ↔
     sort compareFn (papersToConsider st) = []
     ∨ ∃ p rest, sort compareFn (papersToConsider st) = p :: rest
                 ∧ MAX < splitLength (paperInfo 1 p))
  ∧ (researchTopic st ≠ [] →
     ∀ sectionType geminiResponse openRouterCompletion g,
       handleGenerateSection MAX providerName st sectionType geminiResponse
         openRouterCompletion g = ([Alert noContextMessage], g)
       ↔ includedPapers MAX st = []).
Proof.
  assert (getContextFromSelectedPapers MAX st = [] ↔ includedPapers MAX st = []) as Hiff.
  { rewrite context_is_blocks. split; [|by intros ->].
    destruct (includedPapers MAX st) as [|p r]; [done|].
    intros H. exfalso. revert H. simpl.
    change (paperInfo 1 p ++ concat (blocks (1 + 1) r))
      with (91%N :: (numberToString 1 ++ lit "] Title: " ++ title p ++ LF
             ++ lit "Authors: " ++ authorNames p ++ LF
             ++ lit "Year: " ++ yearText p ++ LF
             ++ lit "Venue: " ++ orElse (venue p) (lit "N/A") ++ LF
             ++ lit "URL: " ++ orElse (url p) (lit "N/A") ++ LF
             ++ lit "Abstract: " ++ orElse (abstract_ p) (lit "N/A") ++ LF ++ LF)
             ++ concat (blocks (1 + 1) r)).
    by apply trim_nonempty. }
  split_and!.
  - exact Hiff.
  - unfold includedPapers.
    destruct (sort compareFn (papersToConsider st)) as [|p rest]; simpl.
    + split; [by left|done].
    + destruct (Z.leb_spec (0 + splitLength (paperInfo 1 p)) MAX).
      * split; [done|]. intros [?|(p' & rest' & Heq & Hover)]; [done|].
        injection Heq as <- <-. lia.
      * split; [|done]. intros _. right. exists p, rest. split; [done|lia].
  - intros Ht sectionType geminiResponse openRouterCompletion g.
    rewrite <- Hiff. unfold handleGenerateSection.
    rewrite (proj2 (isEmpty_false _) Ht).
    destruct (isEmpty (getContextFromSelectedPapers MAX st)) eqn:Ec.
    + apply isEmpty_true in Ec. by split.
    + apply isEmpty_false in Ec. split; [|done]. intros H. exfalso.
      pose proof (validation_messages_distinct providerName (generationProvider st)
                    (generationProvider st)) as (_ & _ & _ & Hk & Hm & _).
      revert H.
      repeat match goal with
             | |- context [if isEmpty ?k then _ else _] => destruct (isEmpty k)
             end.
      * intros H. injection H as H _. by apply Hk.
      * intros H. injection H as H _. by apply Hm.
      * destruct (requestText _ _ _ _ _ _ _ _) as [[g' calls] r].
        by destruct sectionType.
Qed.

Lemma context_empty_iff_witness :
  handleGenerateSection 13 Sample.providerName Sample.ready introduction
    (Gemini.Responded (lit "text") None) (OpenRouter.Choices [lit "text"]) Gemini.initial
  = ([Alert noContextMessage], Gemini.initial).
Proof.
  apply (proj2 (proj2 (context_empty_iff 13 Sample.providerName Sample.ready))
           ltac:(discriminate)).
  reflexivity.
Defined.

(** ** More on the Gemini module *)

Lemma getAi_keyed apiKey g g1 r :
  keyed g → Gemini.getAi apiKey g = (g1, r) → keyed g1.
Proof.
  unfold Gemini.getAi, keyed. intros Hk.
  destruct (if bool_decide _ then Gemini.ai g else None).
  - intros H. by injection H as <- _.
  - destruct (isEmpty apiKey) eqn:E.
    + intros H. by injection H as <- _.
    + intros H. injection H as <- _. simpl. intros a Ha. injection Ha as <-.
      simpl. by apply isEmpty_false.
Qed.

Lemma getAi_coherent apiKey g g1 r :
  coherent g → Gemini.getAi apiKey g = (g1, r) → coherent g1.
Proof.
  unfold Gemini.getAi, coherent. intros Hc.
  destruct (if bool_decide _ then Gemini.ai g else None).
  - intros H. by injection H as <- _.
  - destruct (isEmpty apiKey).
    + intros H. by injection H as <- _.
    + intros H. by injection H as <- _.
Qed.

Lemma getAi_wellFormed apiKey g g1 r :
  Gemini.wellFormed g → Gemini.getAi apiKey g = (g1, r) → Gemini.wellFormed g1.
Proof.
  intros Hwf H. destruct r as [a|e].
  - apply getAi_Ok in H as (_ & _ & _ & _ & _ & _ & _ & Hw). by apply Hw.
  - by apply getAi_Throw in H as ->.
Qed.

Lemma getOrCreate_sound apiKey history model systemInstruction g g1 r :
  Gemini.wellFormed g → keyed g → coherent g →
  Gemini.getOrCreate apiKey history model systemInstruction g = (g1, r) →
  Gemini.wellFormed g1 ∧ keyed g1 ∧ coherent g1.
Proof.
  intros Hwf Hk Hc H. destruct r as [c|e].
  - pose proof (getOrCreate_wellFormed _ _ _ _ _ _ _ Hwf H) as [Hwf1 _].
    apply getOrCreate_cases in H as (g0 & a & Ha & Hcase).
    pose proof (getAi_keyed _ _ _ _ Hk Ha) as Hk0.
    pose proof (getAi_coherent _ _ _ _ Hc Ha) as Hc0.
    pose proof (getAi_Ok _ _ _ _ Ha) as (_ & _ & _ & _ & _ & _ & _ & Hw).
    destruct (Hw Hwf) as [_ Hkey].
    destruct Hcase as [[_ ->]|(_ & -> & ->)]; [done|].
    split_and!; [done|exact Hk0|].
    intros c' H'. simpl in H'. injection H' as <-. simpl.
    rewrite Hkey. split_and!; [done|done|]. by exists systemInstruction.
  - by apply getOrCreate_Throw in H as ->.
Qed.

Lemma exec_sound g o :
  Gemini.wellFormed g ∧ keyed g ∧ coherent g →
  Gemini.wellFormed (Gemini.exec g o) ∧ keyed (Gemini.exec g o)
  ∧ coherent (Gemini.exec g o).
Proof.
  intros (Hwf & Hk & Hc).
  destruct o as [k um h m si resp|k pr m si gr resp|]; simpl.
  - unfold Gemini.startOrContinueChatWithGemini.
    destruct (Gemini.getOrCreate k h m si g) as [g1 r] eqn:Hlook.
    destruct (getOrCreate_sound _ _ _ _ _ _ _ Hwf Hk Hc Hlook) as (Hwf1 & Hk1 & Hc1).
    destruct r as [c|e]; [|done].
    pose proof (getOrCreate_stored _ _ _ _ _ _ _ Hlook) as (Hin & _).
    destruct resp as [t ch|msg]; simpl.
    + split_and!.
      * destruct Hwf1 as [Hw1 Hw2]. split; simpl; [|done].
        intros c' H. injection H as <-. simpl. by apply Hw1.
      * done.
      * intros c' H. simpl in H. injection H as <-. simpl. by apply Hc1.
    + destruct (Gemini.isApiKeyNotValid msg); [|done].
      split_and!; [split|..]; simpl; by intros x H.
  - unfold Gemini.generateTextWithGemini.
    destruct (Gemini.getAi k g) as [g1 r] eqn:Ha.
    pose proof (getAi_wellFormed _ _ _ _ Hwf Ha).
    pose proof (getAi_keyed _ _ _ _ Hk Ha).
    pose proof (getAi_coherent _ _ _ _ Hc Ha).
    destruct r as [a|e]; [by destruct resp|done].
  - destruct Hwf as [Hw1 Hw2]. split_and!; [split|..]; simpl; try done;
      by intros x H.
Qed.

Lemma reachable_sound g :
  reachable g → Gemini.wellFormed g ∧ keyed g ∧ coherent g.
Proof.
  intros [os ->]. unfold Gemini.execAll.
  assert (Gemini.wellFormed Gemini.initial ∧ keyed Gemini.initial
          ∧ coherent Gemini.initial) as Hinit.
  { split_and!; [apply initial_wellFormed|by intros a H|by intros c H]. }
  revert Hinit. generalize Gemini.initial.
  induction os as [|o r IH]; intros g Hg; simpl; [done|].
  by apply IH, exec_sound.
Qed.

Lemma reachable_exec g o : reachable g → reachable (Gemini.exec g o).
Proof.
  intros [os ->]. exists (os ++ [o]). unfold Gemini.execAll.
  by rewrite fold_left_app.
Qed.

Lemma reachable_initial : reachable Gemini.initial.
Proof. by exists []. Qed.

Lemma getAi_empty_key g :
  Gemini.wellFormed g → keyed g →
  Gemini.getAi [] g = (g, Throw (lit "Gemini API key is not set.")).
Proof.
  intros [_ Hw] Hk. unfold Gemini.getAi.
  case_bool_decide as Hact; [|done].
  destruct (Gemini.ai g) as [a|] eqn:Ha; [|done].
  exfalso. destruct (Hw a eq_refl) as [_ Hkey].
  unfold keyed in Hk. rewrite Ha in Hk. apply (Hk a eq_refl). congruence.
Qed.

(** X14.  In every state that calls of the module lead to, the [Chat]
    that a session lookup returns is one for the request: it has the
    model asked for, its client was made with the key asked for, and its
    configuration carries the system instruction asked for when that is
    not empty, and no instruction otherwise; the key is not empty; and the
    module holds that [Chat] afterwards. *)
Theorem lookup_matches_request (apiKey : jsstring) (history : list Content)
    (model : jsstring) (systemInstruction : option jsstring)
    (g g1 : Gemini.Module_) (c : Gemini.Chat) :
  reachable g →
  Gemini.getOrCreate apiKey history model systemInstruction g = (g1, Ok c) →
  apiKey ≠ []
  ∧ Gemini.chatModel c = model
  ∧ Gemini.aiKey (Gemini.chatClient c) = apiKey
  ∧ Gemini.chatConfig c = match systemInstruction with
                          | Some (x :: r) => Some (x :: r)
                          | _ => None
                          end
  ∧ Gemini.geminiChatInstance g1 = Some c.
Proof.
  intros Hr Hlook. apply reachable_sound in Hr as (Hwf & Hk & Hc).
  pose proof (getOrCreate_stored _ _ _ _ _ _ _ Hlook) as (Hin & _).
  assert (apiKey ≠ []) as Hne.
  { intros ->. unfold Gemini.getOrCreate in Hlook.
    by rewrite getAi_empty_key in Hlook. }
  apply getOrCreate_cases in Hlook as (g0 & a & Ha & Hcase).
  pose proof (getAi_coherent _ _ _ _ Hc Ha) as Hc0.
  pose proof (getAi_Ok _ _ _ _ Ha) as (_ & _ & _ & _ & _ & _ & _ & Hw).
  destruct (Hw Hwf) as [_ Hkey].
  destruct Hcase as [[Hre ->]|(_ & -> & ->)].
  - apply reusable_Some in Hre as (Hi & Hck & Hcs & Hcm).
    destruct (Hc0 c Hi) as (Hk1 & Hm1 & si & Hs1 & Hcfg).
    rewrite Hck in Hk1. rewrite Hcm in Hm1. rewrite Hcs in Hs1.
    injection Hk1 as Hk1. injection Hm1 as Hm1. injection Hs1 as <-.
    by split_and!.
  - by split_and!.
Qed.

Lemma lookup_matches_request_witness :
  Gemini.chatModel
    (Gemini.chatsCreate {| Gemini.aiId := 0; Gemini.aiKey := lit "g-key" |}
       (lit "model-a") [] None 1)
  = lit "model-a".
Proof.
  apply (lookup_matches_request (lit "g-key") [] (lit "model-a") None Gemini.initial
           (fst (Gemini.getOrCreate (lit "g-key") [] (lit "model-a") None Gemini.initial))
           _ (ex_intro _ [] eq_refl) eq_refl).
Defined.

(** X15.  With an empty key no function of the module issues a request or
    changes the module, in any state that calls of the module lead to:
    [getAi], [generateTextWithGemini] and [startOrContinueChatWithGemini]
    all throw [Gemini API key is not set.] *)
Theorem gemini_empty_key (g : Gemini.Module_) :
  reachable g →
  Gemini.getAi [] g = (g, Throw (lit "Gemini API key is not set."))
  ∧ (∀ prompt model systemInstruction useSearchGrounding response,
       Gemini.generateTextWithGemini [] prompt model systemInstruction
         useSearchGrounding response g
       = (g, [], Throw (lit "Gemini API key is not set.")))
  ∧ (∀ userMessage history model systemInstruction response,
       Gemini.startOrContinueChatWithGemini [] userMessage history model
         systemInstruction response g
       = (g, [], Throw (lit "Gemini API key is not set."))).
Proof.
  intros Hr. apply reachable_sound in Hr as (Hwf & Hk & _).
  pose proof (getAi_empty_key g Hwf Hk) as Ha.
  split_and!; [done|..]; intros.
  - unfold Gemini.generateTextWithGemini. by rewrite Ha.
  - unfold Gemini.startOrContinueChatWithGemini, Gemini.getOrCreate. by rewrite Ha.
Qed.

Lemma gemini_empty_key_witness :
  Gemini.getAi []
    (Gemini.execAll Gemini.initial
       [Gemini.OpChat (lit "g-key") (lit "hello") [] (lit "model-a") None
          (Gemini.Responded (lit "hi") None)])
  = (Gemini.execAll Gemini.initial
       [Gemini.OpChat (lit "g-key") (lit "hello") [] (lit "model-a") None
          (Gemini.Responded (lit "hi") None)],
     Throw (lit "Gemini API key is not set.")).
Proof.
  apply (gemini_empty_key _ (ex_intro _ [_] eq_refl)).
Defined.

(** X16.  [getAi] keeps one client per key: with a key that is not empty
    it returns a client made with that key; asked again with the same key
    it returns the same client and changes nothing; a client held for the
    same key is reused, and a client held for another key is replaced by a
    new one.  It never touches the chat session. *)
Theorem getAi_one_client_per_key (apiKey : jsstring) (g : Gemini.Module_) :
  reachable g →
  apiKey ≠ [] →
  ∃ g1 a,
    Gemini.getAi apiKey g = (g1, Ok a)
    ∧ Gemini.aiKey a = apiKey
    ∧ Gemini.getAi apiKey g1 = (g1, Ok a)
    ∧ (∀ a0, Gemini.ai g = Some a0 → Gemini.aiKey a0 = apiKey → g1 = g ∧ a = a0)
    ∧ (∀ a0, Gemini.ai g = Some a0 → Gemini.aiKey a0 ≠ apiKey →
             Gemini.aiId a ≠ Gemini.aiId a0)
    ∧ Gemini.geminiChatInstance g1 = Gemini.geminiChatInstance g
    ∧ Gemini.chatApiKey g1 = Gemini.chatApiKey g
    ∧ Gemini.chatSystemInstruction g1 = Gemini.chatSystemInstruction g
    ∧ Gemini.chatModelUsed g1 = Gemini.chatModelUsed g.
Proof.
  intros Hr Hne. apply reachable_sound in Hr as (Hwf & Hk & _).
  destruct (getAi_nonempty apiKey g Hne) as (g1 & a & Ha).
  exists g1, a.
  pose proof (getAi_Ok _ _ _ _ Ha) as (_ & _ & ? & ? & ? & ? & _ & Hw).
  destruct (Hw Hwf) as [_ Hkey].
  split_and!; try done.
  - by eapply getAi_again.
  - intros a0 Ha0 Hsame. destruct Hwf as [_ Hw2]. destruct (Hw2 a0 Ha0) as [_ Hact].
    unfold Gemini.getAi in Ha.
    rewrite Hact, Hsame, bool_decide_eq_true_2, Ha0 in Ha by done.
    by injection Ha as <- <-.
  - intros a0 Ha0 Hdiff. destruct Hwf as [_ Hw2]. destruct (Hw2 a0 Ha0) as [Hid Hact].
    unfold Gemini.getAi in Ha.
    rewrite Hact, bool_decide_eq_false_2 in Ha by congruence.
    rewrite (proj2 (isEmpty_false _) Hne) in Ha.
    injection Ha as _ <-. simpl. lia.
Qed.

Lemma getAi_one_client_per_key_witness :
  ∃ g1 a, Gemini.getAi (lit "g-key") Gemini.initial = (g1, Ok a)
          ∧ Gemini.aiKey a = lit "g-key".
Proof.
  destruct (getAi_one_client_per_key (lit "g-key") Gemini.initial
              (ex_intro _ [] eq_refl) ltac:(discriminate))
    as (g1 & a & H1 & H2 & _).
  by exists g1, a.
Defined.

Lemma generate_module apiKey prompt model systemInstruction useSearchGrounding response g :
  fst (fst (Gemini.generateTextWithGemini apiKey prompt model systemInstruction
              useSearchGrounding response g))
  = fst (Gemini.getAi apiKey g).
Proof.
  unfold Gemini.generateTextWithGemini.
  destruct (Gemini.getAi apiKey g) as [g1 [a|e]]; [by destruct response|done].
Qed.

(** X17.  A one-shot generation never costs the chat its session.  With a
    key that is not empty [generateTextWithGemini] issues exactly one
    request, carrying the key, the model, the prompt, the system
    instruction when it is not empty and the grounding flag; it returns
    the text and the grounding chunks of the response, or throws the
    message of the rejection after [Gemini API error: ].  Whatever key it
    is called with, the [Chat] held and its stored configuration are
    untouched, and a later lookup under that configuration still returns
    that [Chat]. *)
Theorem generation_keeps_session (apiKey prompt model : jsstring)
    (systemInstruction : option jsstring) (useSearchGrounding : bool)
    (response : Gemini.Response) (g : Gemini.Module_) :
  let g1 := fst (fst (Gemini.generateTextWithGemini apiKey prompt model systemInstruction
                        useSearchGrounding response g)) in
  Gemini.geminiChatInstance g1 = Gemini.geminiChatInstance g
  ∧ Gemini.chatApiKey g1 = Gemini.chatApiKey g
  ∧ Gemini.chatSystemInstruction g1 = Gemini.chatSystemInstruction g
  ∧ Gemini.chatModelUsed g1 = Gemini.chatModelUsed g
  ∧ (apiKey ≠ [] →
     Gemini.generateTextWithGemini apiKey prompt model systemInstruction
       useSearchGrounding response g
     = (g1,
        [Gemini.GenerateContent apiKey model prompt
           (match systemInstruction with
            | Some (c :: r) => Some (c :: r)
            | _ => None
            end) useSearchGrounding],
        match response with
        | Gemini.Responded t chunks =>
            Ok {| Gemini.resultText := t; Gemini.resultGroundingChunks := chunks |}
        | Gemini.Rejected msg =>
            Throw (lit "Gemini API error: " ++ orElse msg (lit "Unknown error"))
        end))
  ∧ (∀ k h h' m si g0 c,
       k ≠ [] →
       Gemini.getOrCreate k h m si g0 = (g, Ok c) →
       ∃ g2, Gemini.getOrCreate k h' m si g1 = (g2, Ok c)).
Proof.
  cbv zeta. rewrite generate_module.
  destruct (Gemini.getAi apiKey g) as [g1 [a|e]] eqn:Ha; simpl fst.
  - pose proof (getAi_Ok _ _ _ _ Ha) as (_ & _ & Hi & Hck & Hcs & Hcm & _).
    split_and!; try done.
    + intros _. unfold Gemini.generateTextWithGemini. rewrite Ha. by destruct response.
    + intros k h h' m si g0 c Hne Hlook.
      pose proof (getOrCreate_stored _ _ _ _ _ _ _ Hlook) as (Hc & Hk & Hs & Hm & _).
      destruct (getAi_nonempty k g1 Hne) as (g2 & a2 & Ha2).
      pose proof (getAi_Ok _ _ _ _ Ha2) as (_ & _ & Hi2 & Hck2 & Hcs2 & Hcm2 & _).
      exists g2. unfold Gemini.getOrCreate. rewrite Ha2.
      rewrite (proj2 (reusable_Some k m si g2 c)); [done|].
      split_and!; congruence.
  - pose proof (getAi_Throw _ _ _ _ Ha) as ->.
    split_and!; try done.
    + intros Hne. destruct (getAi_nonempty apiKey g Hne) as (? & ? & Ha').
      congruence.
    + intros k h h' m si g0 c Hne Hlook. exists g. by eapply getOrCreate_again.
Qed.

Lemma generation_keeps_session_witness :
  snd (Gemini.generateTextWithGemini (lit "g-key") (lit "write") (lit "model-a") None false
         (Gemini.Rejected None) Gemini.initial)
  = Throw (lit "Gemini API error: Unknown error").
Proof.
  rewrite (proj1 (proj2 (proj2 (proj2 (proj2
             (generation_keeps_session (lit "g-key") (lit "write") (lit "model-a") None
                false (Gemini.Rejected None) Gemini.initial)))))
             ltac:(discriminate)).
  reflexivity.
Defined.

(** X18.  [resetGeminiChat] drops the session and keeps the client;
    calling it again changes nothing.  After it a lookup with a key that
    is not empty never reuses: it builds a new [Chat] for the model asked
    for, starting from the history passed, even under the configuration
    that was stored before the reset, and that [Chat] is not the one that
    was held. *)
Theorem reset_forces_new_chat (g : Gemini.Module_) :
  Gemini.wellFormed g →
  Gemini.resetGeminiChat (Gemini.resetGeminiChat g) = Gemini.resetGeminiChat g
  ∧ Gemini.ai (Gemini.resetGeminiChat g) = Gemini.ai g
  ∧ Gemini.geminiChatInstance (Gemini.resetGeminiChat g) = None
  ∧ ∀ k h m si,
      k ≠ [] →
      ∃ g1 c,
        Gemini.getOrCreate k h m si (Gemini.resetGeminiChat g) = (g1, Ok c)
        ∧ Gemini.chatHistory c = h
        ∧ Gemini.chatModel c = m
        ∧ Gemini.aiKey (Gemini.chatClient c) = k
        ∧ Gemini.geminiChatInstance g1 = Some c
        ∧ ∀ c0, Gemini.geminiChatInstance g = Some c0 →
                Gemini.chatId c ≠ Gemini.chatId c0.
Proof.
  intros Hwf. split_and!; try done.
  intros k h m si Hne.
  assert (Gemini.wellFormed (Gemini.resetGeminiChat g)) as Hwf'.
  { destruct Hwf as [H1 H2]. split; simpl; [by intros c H|done]. }
  destruct (getAi_nonempty k (Gemini.resetGeminiChat g) Hne) as (g0 & a & Ha).
  pose proof (getAi_Ok _ _ _ _ Ha) as (_ & _ & Hi & _ & _ & _ & Hle & Hw).
  destruct (Hw Hwf') as [_ Hkey].
  eexists _, _. split.
  { unfold Gemini.getOrCreate. rewrite Ha, reusable_None by (by rewrite Hi).
    reflexivity. }
  simpl. split_and!; try done.
  intros c0 Hc0. destruct Hwf as [H1 _]. specialize (H1 c0 Hc0). simpl in Hle. lia.
Qed.

Lemma reset_forces_new_chat_witness :
  Gemini.geminiChatInstance
    (Gemini.resetGeminiChat
       (fst (Gemini.getOrCreate (lit "g-key") [] (lit "model-a") None Gemini.initial)))
  = None.
Proof.
  apply (reset_forces_new_chat
           (fst (Gemini.getOrCreate (lit "g-key") [] (lit "model-a") None Gemini.initial))).
  split; simpl; intros x H; injection H as <-; simpl; [lia|split; [lia|reflexivity]].
Defined.

(** ** More on OpenRouter *)



(** X20.  The request of a chat turn with OpenRouter carries the prior
    history followed by the user's message and nothing else: the system
    instruction passed to [chatWithOpenRouter] is not put into the
    request, which is the same whatever instruction is passed.  So on a
    first turn, with a history that has no system turn, the request has
    none either, while the history returned has one. *)
Theorem openrouter_chat_request (apiKey userMessage : jsstring)
    (currentHistory : list OpenRouterMessage) (model : jsstring)
    (systemInstruction : option jsstring) (completion : OpenRouter.Completion) :
  apiKey ≠ [] →
  fst (OpenRouter.chatWithOpenRouter apiKey userMessage currentHistory model
         systemInstruction completion)
  = [ {| OpenRouter.reqKey := apiKey; OpenRouter.reqModel := model;
         OpenRouter.reqMessages :=
           currentHistory ++ [ {| orRole := user; content := userMessage |} ] |} ]
  ∧ (∀ other,
       fst (OpenRouter.chatWithOpenRouter apiKey userMessage currentHistory model
              other completion)
       = fst (OpenRouter.chatWithOpenRouter apiKey userMessage currentHistory model
                systemInstruction completion))
  ∧ (existsb OpenRouter.isSystem currentHistory = false →
     ∀ c r t more,
       systemInstruction = Some (c :: r) →
       completion = OpenRouter.Choices (t :: more) →
       ∃ req updated,
         OpenRouter.chatWithOpenRouter apiKey userMessage currentHistory model
           systemInstruction completion = ([req], Ok (t, updated))
         ∧ existsb OpenRouter.isSystem (OpenRouter.reqMessages req) = false
         ∧ existsb OpenRouter.isSystem updated = true).
Proof.
  intros Hk.
  assert (∀ si,
            fst (OpenRouter.chatWithOpenRouter apiKey userMessage currentHistory model
                   si completion)
            = [ {| OpenRouter.reqKey := apiKey; OpenRouter.reqModel := model;
                   OpenRouter.reqMessages :=
                     currentHistory ++ [ {| orRole := user; content := userMessage |} ] |} ])
    as Hreq.
  { intros si. unfold OpenRouter.chatWithOpenRouter, OpenRouter.generateTextWithOpenRouter.
    rewrite (proj2 (isEmpty_false _) Hk).
    by destruct completion as [?|? ?|[|? ?]]. }
  split_and!.
  - apply Hreq.
  - intros other. by rewrite !Hreq.
  - intros Hsys c r t more -> ->.
    unfold OpenRouter.chatWithOpenRouter, OpenRouter.generateTextWithOpenRouter.
    rewrite (proj2 (isEmpty_false _) Hk), Hsys.
    eexists _, _. split; [reflexivity|]. simpl.
    split; [|done]. by rewrite existsb_app, Hsys.
Qed.

Lemma openrouter_chat_request_witness :
  fst (OpenRouter.chatWithOpenRouter (lit "or-key") (lit "hello") [] (lit "some/model")
         (Some chatSystemInstruction) (OpenRouter.Choices [lit "hi"]))
  = [ {| OpenRouter.reqKey := lit "or-key"; OpenRouter.reqModel := lit "some/model";
         OpenRouter.reqMessages := [] ++ [ {| orRole := user; content := lit "hello" |} ] |} ].
Proof.
  apply (openrouter_chat_request (lit "or-key") (lit "hello") [] (lit "some/model")
           (Some chatSystemInstruction) (OpenRouter.Choices [lit "hi"])).
  discriminate.
Defined.

Lemma converse_with_system apiKey model systemInstruction history
    (turns : list (jsstring * jsstring * list jsstring)) :
  apiKey ≠ [] →
  existsb OpenRouter.isSystem history = true ∨ default [] systemInstruction = [] →
  converse apiKey model systemInstruction history
    (List.map (λ '(u, a, more), (u, OpenRouter.Choices (a :: more))) turns)
  = Ok (history ++ exchanged (List.map (λ '(u, a, _), (u, a)) turns)).
Proof.
  intros Hk. revert history.
  induction turns as [|[[u a] more] r IH]; intros history Hsys.
  - simpl. unfold exchanged. simpl. by rewrite app_nil_r.
  - simpl converse.
    unfold OpenRouter.chatWithOpenRouter, OpenRouter.generateTextWithOpenRouter.
    rewrite (proj2 (isEmpty_false _) Hk).
    assert ((match systemInstruction with
             | Some (c :: r0) =>
                 if existsb OpenRouter.isSystem history then []
                 else [ {| orRole := system; content := c :: r0 |} ]
             | _ => []
             end) = []) as ->.
    { destruct systemInstruction as [[|c r0]|]; try done.
      by destruct Hsys as [->|?]. }
    simpl app at 1. rewrite IH.
    + unfold exchanged. simpl. by rewrite <- !app_assoc.
    + destruct Hsys as [Hs|?]; [left|by right].
      by rewrite !existsb_app, Hs.
Qed.

(** X21.  A conversation with OpenRouter, each turn passing on the history
    that the turn before returned: when every request is answered, the
    history after the turns is the system instruction, once, followed by
    the exchanges in order, each as the user's message and the content of
    the first choice.  Without an instruction it is the exchanges alone. *)
Theorem openrouter_conversation (apiKey model : jsstring)
    (systemInstruction : option jsstring)
    (turns : list (jsstring * jsstring * list jsstring)) :
  apiKey ≠ [] →
  turns ≠ [] →
  converse apiKey model systemInstruction []
    (List.map (λ '(u, a, more), (u, OpenRouter.Choices (a :: more))) turns)
  = Ok ((match systemInstruction with
         | Some (c :: r) => [ {| orRole := system; content := c :: r |} ]
         | _ => []
         end)
        ++ exchanged (List.map (λ '(u, a, _), (u, a)) turns)).
Proof.
  intros Hk Hne.
  destruct systemInstruction as [[|c r]|].
  - by rewrite converse_with_system by (done || by right).
  - destruct turns as [|[[u a] more] rest]; [done|].
    simpl converse.
    unfold OpenRouter.chatWithOpenRouter, OpenRouter.generateTextWithOpenRouter.
    rewrite (proj2 (isEmpty_false _) Hk). simpl existsb. cbv iota.
    rewrite converse_with_system by (done || by left).
    unfold exchanged. simpl. reflexivity.
  - by rewrite converse_with_system by (done || by right).
Qed.

Lemma openrouter_conversation_witness :
  converse (lit "or-key") (lit "some/model") (Some (lit "be brief")) []
    [(lit "q1", OpenRouter.Choices [lit "a1"]); (lit "q2", OpenRouter.Choices [lit "a2"])]
  = Ok [ {| orRole := system; content := lit "be brief" |};
         {| orRole := user; content := lit "q1" |};
         {| orRole := assistant; content := lit "a1" |};
         {| orRole := user; content := lit "q2" |};
         {| orRole := assistant; content := lit "a2" |} ].
Proof.
  apply (openrouter_conversation (lit "or-key") (lit "some/model") (Some (lit "be brief"))
           [(lit "q1", lit "a1", []); (lit "q2", lit "a2", [])]); discriminate.
Defined.

(** ** More on the chat *)

Lemma run_preserves {A} (f : AppState → A) st es :
  Forall (λ e, ∀ s, f (apply s e) = f s) es → f (run st es) = f st.
Proof.
  intros H. revert st. unfold run.
  induction H as [|e r He Hr IH]; intros st; simpl; [done|].
  by rewrite IH, He.
Qed.


Lemma openrouter_chat_throws apiKey userMessage history model systemInstruction completion
    reqs e :
  OpenRouter.chatWithOpenRouter apiKey userMessage history model systemInstruction
    completion = (reqs, Throw e) →
  e ≠ [].
Proof.
  unfold OpenRouter.chatWithOpenRouter, OpenRouter.generateTextWithOpenRouter.
  destruct (isEmpty apiKey).
  - intros H. by injection H as _ <-.
  - destruct completion as [msg|bm stt|[|c more]]; intros H; try done;
      by injection H as _ <-.
Qed.


Lemma run_mapped_calls {A} (f : A → RemoteCall) st (l : list A) :
  run st (List.map (λ q, Call (f q)) l) = st.
Proof. induction l as [|x r IH]; simpl; [done|exact IH]. Qed.

(** X23.  A chat message never touches what lies outside the chat: the
    keys, the topic, the page, the selection, the cache, both generated
    sections and both selected models are after every run of
    [handleSendMessage] what they were before.  A message to OpenRouter,
    and a message stopped by the checks, leaves the Gemini module
    untouched. *)
Theorem send_frame (providerName : ApiProvider → jsstring)
    (snapshot st : AppState) (messageText : jsstring) (provider : ApiProvider)
    (model : jsstring) (now later : Z)
    (geminiResponse : Gemini.Response) (openRouterCompletion : OpenRouter.Completion)
    (g : Gemini.Module_) :
  let r := handleSendMessage providerName snapshot messageText provider model now later
             geminiResponse openRouterCompletion g in
  let st' := run st (fst r) in
  apiKeys st' = apiKeys st
  ∧ researchTopic st' = researchTopic st
  ∧ papers st' = papers st
  ∧ selectedPaperIds st' = selectedPaperIds st
  ∧ cachedPapers st' = cachedPapers st
  ∧ slot introduction st' = slot introduction st
  ∧ slot relatedWorks st' = slot relatedWorks st
  ∧ selectedGeminiModel st' = selectedGeminiModel st
  ∧ selectedOpenRouterModel st' = selectedOpenRouterModel st
  ∧ (provider = OPENROUTER ∨ chatKey provider snapshot = [] ∨ model = [] → snd r = g).
Proof.
  cbv zeta. unfold handleSendMessage.
  fold (chatKey provider snapshot).
  destruct (isEmpty (chatKey provider snapshot)) eqn:Ek; [by simpl|].
  destruct (isEmpty model) eqn:Em; [by simpl|].
  cbv beta iota zeta delta [orb].
  apply isEmpty_false in Ek, Em.
  destruct provider.
  - destruct (Gemini.startOrContinueChatWithGemini _ _ _ _ _ _ _) as [[g' reqs] r].
    cbv beta iota zeta delta [fst snd].
    rewrite !run_app, run_mapped_calls.
    destruct r as [[t h]|e]; split_and!; try done; intros [?|[?|?]]; done.
  - destruct (OpenRouter.chatWithOpenRouter _ _ _ _ _ _) as [reqs r].
    cbv beta iota zeta delta [fst snd].
    rewrite !run_app, run_mapped_calls.
    destruct r as [[t h]|e]; split_and!; try done.
Qed.

Lemma remoteCalls_of_send providerName snapshot messageText provider model now later
    geminiResponse openRouterCompletion g :
  chatKey provider snapshot ≠ [] →
  model ≠ [] →
  length (remoteCalls (fst (handleSendMessage providerName snapshot messageText provider
                              model now later geminiResponse openRouterCompletion g)))
  = 1%nat.
Proof.
  intros Hk Hm. unfold handleSendMessage. fold (chatKey provider snapshot).
  rewrite (proj2 (isEmpty_false _) Hk), (proj2 (isEmpty_false _) Hm).
  cbv beta iota zeta delta [orb].
  destruct provider.
  - unfold Gemini.startOrContinueChatWithGemini.
    destruct (getOrCreate_nonempty (chatKey GEMINI snapshot) (geminiChatHistory snapshot)
                model (Some chatSystemInstruction) g Hk) as (g1 & c & Hlook).
    change (gemini (apiKeys snapshot)) with (chatKey GEMINI snapshot).
    rewrite Hlook.
    destruct geminiResponse as [t ch|msg]; [done|].
    by destruct (Gemini.isApiKeyNotValid msg).
  - unfold OpenRouter.chatWithOpenRouter, OpenRouter.generateTextWithOpenRouter.
    change (openRouter (apiKeys snapshot)) with (chatKey OPENROUTER snapshot).
    rewrite (proj2 (isEmpty_false _) Hk).
    by destruct openRouterCompletion as [?|? ?|[|? ?]].
Qed.

(** X24.  The chat window sends only what can be sent.  With the key of
    the active provider set and a model chosen, [handleSend] does nothing
    at all while the input is blank or a message is under way; otherwise
    it passes the trimmed input, which is not empty, with the active
    provider and its model to [handleSendMessage], whose run then issues
    exactly one request, and it empties the input. *)
Theorem chat_window_forwards (providerName : ApiProvider → jsstring)
    (snapshot : AppState) (input : jsstring) (now later : Z)
    (geminiResponse : Gemini.Response) (openRouterCompletion : OpenRouter.Completion)
    (g : Gemini.Module_) :
  chatKey (chatProvider snapshot) snapshot ≠ [] →
  chatWindowModel snapshot ≠ [] →
  (trim input = [] ∨ chatLoading snapshot = true →
   handleSend providerName snapshot input now later geminiResponse openRouterCompletion g
   = ([], g, input))
  ∧ (trim input ≠ [] → chatLoading snapshot = false →
     handleSend providerName snapshot input now later geminiResponse
       openRouterCompletion g
     = (handleSendMessage providerName snapshot (trim input) (chatProvider snapshot)
          (chatWindowModel snapshot) now later geminiResponse openRouterCompletion g,
        [])
     ∧ length (remoteCalls
                 (fst (handleSendMessage providerName snapshot (trim input)
                         (chatProvider snapshot) (chatWindowModel snapshot) now later
                         geminiResponse openRouterCompletion g)))
       = 1%nat).
Proof.
  intros Hk Hm. unfold handleSend. rewrite !isApiKeySet_chatKey. unfold truthy.
  fold (chatWindowModel snapshot).
  rewrite (proj2 (isEmpty_false _) Hk), (proj2 (isEmpty_false _) Hm).
  split.
  - intros [Ht|Hl].
    + by rewrite Ht.
    + rewrite Hl. cbn [negb]. by rewrite andb_false_r.
  - intros Ht Hl. rewrite (proj2 (isEmpty_false _) Ht), Hl. cbn [negb andb].
    split; [by destruct (handleSendMessage _ _ _ _ _ _ _ _ _ _)|].
    by apply remoteCalls_of_send.
Qed.

Lemma chat_window_forwards_witness :
  handleSend Sample.providerName Sample.ready (lit "   ") 7 9
    (Gemini.Responded (lit "hi") None) (OpenRouter.Choices [lit "hi"]) Gemini.initial
  = ([], Gemini.initial, lit "   ").
Proof.
  apply (proj1 (chat_window_forwards Sample.providerName Sample.ready (lit "   ") 7 9
                  (Gemini.Responded (lit "hi") None) (OpenRouter.Choices [lit "hi"])
                  Gemini.initial ltac:(discriminate) ltac:(discriminate))).
  left. reflexivity.
Defined.

(** X25.  [handleApiKeyChange] sets the named key and no other.  For the
    Gemini key it also resets the Gemini session and empties the stored
    Gemini history; for the OpenRouter key it empties the stored
    OpenRouter history; for the Semantic Scholar key it does nothing else.
    The history of the other provider, the transcript, the selection and
    the cache are never touched.  In the state that a change of the
    Gemini key to a key that is not empty leaves, a message sent to Gemini
    goes to a new [Chat] with an empty history, on a client made with the
    new key. *)
Theorem api_key_change (providerName : ApiProvider → jsstring)
    (name : ApiKeyName) (value : jsstring) (st : AppState) (g : Gemini.Module_) :
  let st' := run st (fst (handleApiKeyChange name value g)) in
  let g' := snd (handleApiKeyChange name value g) in
  semanticScholar (apiKeys st')
  = (match name with KeySemanticScholar => value | _ => semanticScholar (apiKeys st) end)
  ∧ gemini (apiKeys st')
    = (match name with KeyGemini => value | _ => gemini (apiKeys st) end)
  ∧ openRouter (apiKeys st')
    = (match name with KeyOpenRouter => value | _ => openRouter (apiKeys st) end)
  ∧ geminiChatHistory st'
    = (match name with KeyGemini => [] | _ => geminiChatHistory st end)
  ∧ openRouterChatHistory st'
    = (match name with KeyOpenRouter => [] | _ => openRouterChatHistory st end)
  ∧ g' = (match name with KeyGemini => Gemini.resetGeminiChat g | _ => g end)
  ∧ chatMessages st' = chatMessages st
  ∧ selectedPaperIds st' = selectedPaperIds st
  ∧ cachedPapers st' = cachedPapers st
  ∧ (name = KeyGemini → value ≠ [] → Gemini.wellFormed g →
     ∀ messageText model now later geminiResponse openRouterCompletion,
       model ≠ [] →
       ∃ c,
         remoteCalls (fst (handleSendMessage providerName st' messageText GEMINI model
                             now later geminiResponse openRouterCompletion g'))
         = [Call (ToGemini (Gemini.SendMessage c messageText))]
         ∧ Gemini.chatHistory c = []
         ∧ Gemini.chatModel c = model
         ∧ Gemini.aiKey (Gemini.chatClient c) = value
         ∧ ∀ c0, Gemini.geminiChatInstance g = Some c0 →
                 Gemini.chatId c ≠ Gemini.chatId c0).
Proof.
  cbv zeta. split_and!; try (by destruct name).
  intros -> Hv Hwf messageText model now later geminiResponse openRouterCompletion Hm.
  simpl fst. simpl snd. unfold handleSendMessage.
  simpl gemini. rewrite (proj2 (isEmpty_false _) Hv), (proj2 (isEmpty_false _) Hm).
  cbv beta iota zeta delta [orb].
  simpl geminiChatHistory.
  assert (Gemini.wellFormed (Gemini.resetGeminiChat g)) as Hwf'.
  { destruct Hwf as [H1 H2]. split; simpl; [by intros c H|done]. }
  destruct (getAi_nonempty value (Gemini.resetGeminiChat g) Hv) as (g0 & a & Ha).
  pose proof (getAi_Ok _ _ _ _ Ha) as (_ & _ & Hi & _ & _ & _ & Hle & Hw).
  destruct (Hw Hwf') as [_ Hkey].
  unfold Gemini.startOrContinueChatWithGemini, Gemini.getOrCreate.
  rewrite Ha, reusable_None by (by rewrite Hi).
  exists (Gemini.chatsCreate a model [] (Some chatSystemInstruction) (Gemini.allocated g0)).
  split_and!; try done.
  - destruct geminiResponse as [t ch|msg]; [done|].
    by destruct (Gemini.isApiKeyNotValid msg).
  - intros c0 Hc0. destruct Hwf as [H1 _]. specialize (H1 c0 Hc0).
    simpl in *. lia.
Qed.

Lemma api_key_change_witness :
  ∃ c,
    remoteCalls
      (fst (handleSendMessage Sample.providerName
              (run Sample.noKey (fst (handleApiKeyChange KeyGemini (lit "new-key")
                                        Gemini.initial)))
              (lit "hello") GEMINI (lit "gemini-pro") 1 2
              (Gemini.Responded (lit "hi") None) (OpenRouter.Choices [])
              (snd (handleApiKeyChange KeyGemini (lit "new-key") Gemini.initial))))
    = [Call (ToGemini (Gemini.SendMessage c (lit "hello")))]
    ∧ Gemini.aiKey (Gemini.chatClient c) = lit "new-key".
Proof.
  destruct (proj2 (proj2 (proj2 (proj2 (proj2 (proj2 (proj2 (proj2 (proj2
              (api_key_change Sample.providerName KeyGemini (lit "new-key")
                 Sample.noKey Gemini.initial)))))))))
              eq_refl ltac:(discriminate) initial_wellFormed
              (lit "hello") (lit "gemini-pro") 1 2
              (Gemini.Responded (lit "hi") None) (OpenRouter.Choices [])
              ltac:(discriminate))
    as (c & H1 & _ & _ & H2 & _).
  by exists c.
Defined.

(** ** The stored history and the session *)

Lemma lookup_history apiKey model systemInstruction st g g1 c :
  inStep (st, g) →
  Gemini.getOrCreate apiKey (geminiChatHistory st) model systemInstruction g = (g1, Ok c) →
  Gemini.chatHistory c = geminiChatHistory st.
Proof.
  intros Hin Hlook. apply getOrCreate_cases in Hlook as (g0 & a & Ha & Hcase).
  apply getAi_Ok in Ha as (_ & _ & Hi & _).
  destruct Hcase as [[Hre _]|(_ & -> & _)]; [|done].
  apply reusable_Some in Hre as (Hc & _). rewrite Hi in Hc. by apply Hin.
Qed.

Lemma send_inStep providerName st messageText provider model now later
    geminiResponse openRouterCompletion g :
  inStep (st, g) →
  inStep (run st (fst (handleSendMessage providerName st messageText provider model now
                         later geminiResponse openRouterCompletion g)),
          snd (handleSendMessage providerName st messageText provider model now
                 later geminiResponse openRouterCompletion g)).
Proof.
  intros Hin. unfold handleSendMessage.
  destruct (isEmpty _ || isEmpty model); [exact Hin|].
  destruct provider.
  - unfold Gemini.startOrContinueChatWithGemini.
    destruct (Gemini.getOrCreate _ _ _ _ _) as [g1 [c|e]] eqn:Hlook.
    + pose proof (lookup_history _ _ _ _ _ _ _ Hin Hlook) as Hc.
      pose proof (getOrCreate_stored _ _ _ _ _ _ _ Hlook) as (Hheld & _).
      destruct geminiResponse as [t ch|msg].
      * intros c' H. simpl in H. injection H as <-. simpl. by rewrite Hc.
      * destruct (Gemini.isApiKeyNotValid msg).
        -- by intros c' H.
        -- intros c' H. simpl in H. rewrite Hheld in H. injection H as <-. exact Hc.
    + apply getOrCreate_Throw in Hlook as ->. exact Hin.
  - destruct (OpenRouter.chatWithOpenRouter _ _ _ _ _ _) as [reqs r].
    cbv beta iota zeta delta [fst snd].
    intros c' H. rewrite (Hin c' H).
    rewrite !run_app, run_mapped_calls. by destruct r as [[t h]|e].
Qed.

Lemma generate_inStep MAX providerName st sectionType geminiResponse
    openRouterCompletion g :
  inStep (st, g) →
  inStep (run st (fst (handleGenerateSection MAX providerName st sectionType
                         geminiResponse openRouterCompletion g)),
          snd (handleGenerateSection MAX providerName st sectionType
                 geminiResponse openRouterCompletion g)).
Proof.
  intros Hin. unfold handleGenerateSection.
  repeat match goal with
         | |- context [if isEmpty ?k then _ else _] => destruct (isEmpty k); [exact Hin|]
         end.
  destruct (requestText _ _ _ _ _ _ _ _) as [[g' calls] r] eqn:Hreq.
  cbv beta iota zeta delta [fst snd].
  assert (Gemini.geminiChatInstance g' = Gemini.geminiChatInstance g) as Hg.
  { unfold requestText in Hreq. destruct (generationProvider st).
    - destruct (Gemini.generateTextWithGemini _ _ _ _ _ _ _) as [[g2 reqs] r2] eqn:Hgen.
      match type of Hgen with
      | Gemini.generateTextWithGemini ?k ?p ?m ?s ?u ?r ?g0 = _ =>
          pose proof (generate_module k p m s u r g0) as Hmod
      end.
      rewrite Hgen in Hmod. simpl in Hmod.
      assert (g' = g2) as -> by (by destruct r2; injection Hreq as <- _ _).
      rewrite Hmod.
      destruct (Gemini.getAi (gemini (apiKeys st)) g) as [g3 [a|e]] eqn:Ha; simpl.
      + by apply getAi_Ok in Ha as (_ & _ & ? & _).
      + by apply getAi_Throw in Ha as ->.
    - destruct (OpenRouter.generateTextWithOpenRouter _ _ _ _ _ _).
      by injection Hreq as <- _ _. }
  intros c' H. simpl in H. rewrite Hg in H. rewrite (Hin c' H).
  rewrite !run_app, run_calls. simpl.
  by destruct r, sectionType.
Qed.

Lemma search_keeps_gemini_history PAGE snapshot st topic outcome :
  geminiChatHistory (run st (handleSearch PAGE snapshot topic outcome))
  = geminiChatHistory st.
Proof.
  unfold handleSearch, fetchPapersForPage.
  destruct (isEmpty (semanticScholar (apiKeys snapshot))); [done|].
  by destruct outcome.
Qed.

Lemma after_inStep MAX PAGE providerName w ev :
  inStep w → inStep (after MAX PAGE providerName w ev).
Proof.
  destruct w as [st g]. intros Hin.
  destruct ev as [messageText provider model now later gr oc|model|model|name value
                 |sectionType gr oc|topic outcome];
    cbv beta iota zeta delta [after].
  - pose proof (send_inStep providerName st messageText provider model now later gr oc g
                  Hin) as H.
    by destruct (handleSendMessage _ _ _ _ _ _ _ _ _ _).
  - unfold handleSelectedGeminiModelChange. by intros c H.
  - unfold handleSelectedOpenRouterModelChange. intros c H. by apply Hin.
  - unfold handleApiKeyChange. destruct name.
    + intros c H. by apply Hin.
    + by intros c H.
    + intros c H. by apply Hin.
  - pose proof (generate_inStep MAX providerName st sectionType gr oc g Hin) as H.
    by destruct (handleGenerateSection _ _ _ _ _ _ _).
  - intros c H. cbv beta iota delta [fst snd] in *. rewrite (Hin c H).
    symmetry. apply search_keeps_gemini_history.
Qed.

(** X26.  Through messages, changes of model and of key, generations and
    searches, in any order and with any outcomes, the [Chat] that the
    Gemini module holds has exactly the history that the component stores
    for Gemini (the SDK adding to a [Chat] the two turns of each message
    it answers).  So a session that is reused carries the history that
    would otherwise have been passed to a new one. *)
Theorem session_history_in_step (MAX PAGE : Z) (providerName : ApiProvider → jsstring)
    (w : AppState * Gemini.Module_) (evs : list Event) :
  inStep w → inStep (afterAll MAX PAGE providerName w evs).
Proof.
  revert w. unfold afterAll.
  induction evs as [|ev r IH]; intros w Hin; simpl; [done|].
  by apply IH, after_inStep.
Qed.

Lemma session_history_in_step_witness :
  ∃ c,
    Gemini.geminiChatInstance
      (snd (afterAll 1000 10 Sample.providerName (Sample.ready, Gemini.initial)
              [Sends (lit "q1") GEMINI (lit "gemini-pro") 1 2
                 (Gemini.Responded (lit "a1") None) (OpenRouter.Choices []);
               Sends (lit "q2") GEMINI (lit "gemini-pro") 3 4
                 (Gemini.Rejected (Some (lit "overloaded"))) (OpenRouter.Choices [])]))
    = Some c
    ∧ Gemini.chatHistory c
      = geminiChatHistory
          (fst (afterAll 1000 10 Sample.providerName (Sample.ready, Gemini.initial)
                  [Sends (lit "q1") GEMINI (lit "gemini-pro") 1 2
                     (Gemini.Responded (lit "a1") None) (OpenRouter.Choices []);
                   Sends (lit "q2") GEMINI (lit "gemini-pro") 3 4
                     (Gemini.Rejected (Some (lit "overloaded"))) (OpenRouter.Choices [])])).
Proof.
  destruct (Gemini.geminiChatInstance _) as [c|] eqn:E.
  - exists c. split; [reflexivity|].
    refine (session_history_in_step 1000 10 Sample.providerName
              (Sample.ready, Gemini.initial) _ _ c E).
    intros c0 H. discriminate H.
  - vm_compute in E. discriminate E.
Defined.

Example session_after_two_messages :
  let w := afterAll 1000 10 Sample.providerName (Sample.ready, Gemini.initial)
             [Sends (lit "q1") GEMINI (lit "gemini-pro") 1 2
                (Gemini.Responded (lit "a1") None) (OpenRouter.Choices []);
              Sends (lit "q2") GEMINI (lit "gemini-pro") 3 4
                (Gemini.Responded (lit "a2") None) (OpenRouter.Choices [])] in
  Gemini.chatHistory <$> Gemini.geminiChatInstance (snd w)
  = Some [Gemini.userContent (lit "q1"); Gemini.modelContent (lit "a1");
          Gemini.userContent (lit "q2"); Gemini.modelContent (lit "a2")]
  ∧ Gemini.chatId <$> Gemini.geminiChatInstance (snd w) = Some 1%nat.
Proof. vm_compute. auto. Qed.

(** ** More on the generation *)

Lemma remoteCalls_app es1 es2 :
  remoteCalls (es1 ++ es2) = remoteCalls es1 ++ remoteCalls es2.
Proof. apply List.filter_app. Qed.

Lemma remoteCalls_calls (calls : list RemoteCall) :
  remoteCalls (List.map Call calls) = List.map Call calls.
Proof. induction calls as [|c r IH]; simpl; [done|]. by f_equal. Qed.

Lemma remoteCalls_storeOutcome sectionType r : remoteCalls (storeOutcome sectionType r) = [].
Proof. by destruct r as [[t gd]|e], sectionType. Qed.

(** X27.  A generation that has passed the checks issues exactly one
    request, to the generation provider, with its key and its model: for
    Gemini a one-shot generation with the system instruction of the
    generation and grounding off; for OpenRouter a completion whose
    messages are that system instruction and then the prompt.  The prompt
    is the template filled with the topic, the kind of section and the
    assembled context.  The loading flag is on once the attempt has
    started and off when the run is over, on success and on failure. *)
Theorem generation_request (MAX : Z) (providerName : ApiProvider → jsstring)
    (st : AppState) (sectionType : SectionType)
    (geminiResponse : Gemini.Response) (openRouterCompletion : OpenRouter.Completion)
    (g : Gemini.Module_) :
  researchTopic st ≠ [] →
  getContextFromSelectedPapers MAX st ≠ [] →
  generationKey st ≠ [] →
  generationModel st ≠ [] →
  let es := fst (handleGenerateSection MAX providerName st sectionType
                   geminiResponse openRouterCompletion g) in
  let prompt :=
    promptFor (researchTopic st)
      (match sectionType with
       | introduction => lit "an introduction"
       | relatedWorks => lit "a related works section"
       end)
      (getContextFromSelectedPapers MAX st) in
  remoteCalls es
  = [Call (match generationProvider st with
           | GEMINI =>
               ToGemini (Gemini.GenerateContent (generationKey st) (generationModel st)
                           prompt (Some generationSystemInstruction) false)
           | OPENROUTER =>
               ToOpenRouter
                 {| OpenRouter.reqKey := generationKey st;
                    OpenRouter.reqModel := generationModel st;
                    OpenRouter.reqMessages :=
                      [ {| orRole := system; content := generationSystemInstruction |};
                        {| orRole := user; content := prompt |} ] |}
           end)]
  ∧ generationLoading (run st (startAttempt sectionType)) = true
  ∧ generationLoading (run st es) = false.
Proof.
  intros Ht Hc Hk Hm. cbv zeta.
  unfold handleGenerateSection.
  rewrite (proj2 (isEmpty_false _) Ht), (proj2 (isEmpty_false _) Hc).
  fold (generationKey st). fold (generationModel st).
  rewrite (proj2 (isEmpty_false _) Hk), (proj2 (isEmpty_false _) Hm).
  set (prompt := promptFor _ _ _).
  destruct (requestText _ _ _ _ _ _ _ _) as [[g' calls] r] eqn:Hreq.
  cbv beta iota zeta delta [fst].
  assert (calls = [match generationProvider st with
                   | GEMINI =>
                       ToGemini (Gemini.GenerateContent (generationKey st)
                                   (generationModel st) prompt
                                   (Some generationSystemInstruction) false)
                   | OPENROUTER =>
                       ToOpenRouter
                         {| OpenRouter.reqKey := generationKey st;
                            OpenRouter.reqModel := generationModel st;
                            OpenRouter.reqMessages :=
                              [ {| orRole := system;
                                   content := generationSystemInstruction |};
                                {| orRole := user; content := prompt |} ] |}
                   end]) as ->.
  { unfold requestText in Hreq. destruct (generationProvider st).
    - unfold Gemini.generateTextWithGemini in Hreq.
      destruct (getAi_nonempty (generationKey st) g Hk) as (g1 & a & Ha).
      rewrite Ha in Hreq.
      destruct geminiResponse; by injection Hreq as _ <- _.
    - unfold OpenRouter.generateTextWithOpenRouter in Hreq.
      rewrite (proj2 (isEmpty_false _) Hk) in Hreq.
      destruct openRouterCompletion as [?|? ?|[|? ?]]; by injection Hreq as _ <- _. }
  split_and!.
  - rewrite !remoteCalls_app, remoteCalls_calls, remoteCalls_storeOutcome.
    by destruct sectionType.
  - by destruct sectionType.
  - rewrite !run_app, run_calls. by destruct r, sectionType.
Qed.

Lemma generation_request_witness :
  generationLoading
    (run Sample.selected
       (fst (handleGenerateSection 1000 Sample.providerName Sample.selected introduction
               (Gemini.Responded (lit "text") None) (OpenRouter.Choices [])
               Gemini.initial)))
  = false.
Proof.
  apply (generation_request 1000 Sample.providerName Sample.selected introduction
           (Gemini.Responded (lit "text") None) (OpenRouter.Choices []) Gemini.initial);
    [discriminate | vm_compute; discriminate | discriminate | discriminate].
Defined.

Lemma cached_size_pos (m : gmap jsstring Paper) k p :
  m !! k = Some p → (0 <? size m)%nat = true.
Proof.
  intros H. apply Nat.ltb_lt.
  destruct (decide (size m = 0%nat)) as [E|E]; [|lia].
  apply map_size_empty_iff in E. subst m. by rewrite lookup_empty in H.
Qed.

(** X28.  [handleGenerateSection] issues a request only in a state in
    which the two buttons that call it can be enabled: whenever a run
    issues a request, [canGenerateSections] holds.  In a state where it
    does not hold a run is one alert and nothing else. *)
Theorem request_only_when_enabled (MAX : Z) (providerName : ApiProvider → jsstring)
    (st : AppState) (sectionType : SectionType)
    (geminiResponse : Gemini.Response) (openRouterCompletion : OpenRouter.Completion)
    (g : Gemini.Module_) :
  let r := handleGenerateSection MAX providerName st sectionType geminiResponse
             openRouterCompletion g in
  (remoteCalls (fst r) ≠ [] → canGenerateSections st = true)
  ∧ (canGenerateSections st = false → ∃ message, r = ([Alert message], g)).
Proof.
  cbv zeta.
  assert (canGenerateSections st = false →
          ∃ message,
            handleGenerateSection MAX providerName st sectionType geminiResponse
              openRouterCompletion g = ([Alert message], g)) as Hoff.
  { intros Hcan. unfold handleGenerateSection.
    destruct (isEmpty (researchTopic st)) eqn:Et; [eauto|].
    destruct (isEmpty (getContextFromSelectedPapers MAX st)) eqn:Ec; [eauto|].
    fold (generationKey st). fold (generationModel st).
    destruct (isEmpty (generationKey st)) eqn:Ek; [eauto|].
    destruct (isEmpty (generationModel st)) eqn:Em; [eauto|].
    exfalso. revert Hcan. unfold canGenerateSections.
    rewrite Et, isApiKeySet_chatKey.
    change (chatKey (generationProvider st) st) with (generationKey st).
    rewrite Ek.
    change (match generationProvider st with
            | GEMINI => truthy (selectedGeminiModel st)
            | OPENROUTER => truthy (selectedOpenRouterModel st)
            end) with
      (match generationProvider st with
       | GEMINI => negb (isEmpty (selectedGeminiModel st))
       | OPENROUTER => negb (isEmpty (selectedOpenRouterModel st))
       end).
    assert (match generationProvider st with
            | GEMINI => negb (isEmpty (selectedGeminiModel st))
            | OPENROUTER => negb (isEmpty (selectedOpenRouterModel st))
            end = true) as ->.
    { unfold generationModel in Em. destruct (generationProvider st); by rewrite Em. }
    cbn [negb andb]. rewrite !andb_true_r.
    apply isEmpty_false in Ec.
    assert (papersToConsider st ≠ []) as Hcand.
    { intros Hnil. by apply Ec, sort_nil_context. }
    revert Hcand. unfold papersToConsider.
    destruct (0 <? length (newSet (selectedPaperIds st)))%nat eqn:Esel; [done|].
    apply Nat.ltb_ge in Esel.
    assert (length (newSet (selectedPaperIds st)) = 0%nat) as -> by lia.
    simpl. intros Hcand.
    destruct (omap _ (papers st)) as [|p l] eqn:Eo; [done|].
    assert (p ∈ omap (λ q, cachedPapers st !! paperId q) (papers st)) as Hp
      by (rewrite Eo; by left).
    apply list_elem_of_omap in Hp as (q & Hq & Hl).
    rewrite (cached_size_pos _ _ _ Hl).
    destruct (papers st); [by apply elem_of_nil in Hq|done]. }
  split; [|exact Hoff].
  intros Hcalls. destruct (canGenerateSections st) eqn:Hcan; [done|].
  destruct (Hoff eq_refl) as [message Hr]. by rewrite Hr in Hcalls.
Qed.

Lemma request_only_when_enabled_witness :
  canGenerateSections Sample.selected = true.
Proof.
  apply (proj1 (request_only_when_enabled 1000 Sample.providerName Sample.selected
                  introduction (Gemini.Responded (lit "text") None)
                  (OpenRouter.Choices []) Gemini.initial)).
  vm_compute. discriminate.
Defined.
